(** * cryptobacktest: Black-Scholes pricer, portfolio aggregator, volatility

    A shallow embedding of [src/cryptobacktest/cryptobacktest.py] and
    [src/cryptobacktest/vol.py].

    Numbers.  Python's [float] is modelled by the real numbers [R]: the
    rounding of binary64 is not part of the model, and its range is not part
    of [Py.math_exp]; [Binary64.math_exp] has the range, and the statements
    on the sign of [gamma()] and [vega()] are made there.  What the
    interpreter does on the domain errors of the operations IS part of it:
    [math.log] and [math.sqrt] raise [ValueError] outside their domain and
    [/] raises [ZeroDivisionError] on a zero divisor.  The integer parameter
    [time_to_maturity] is a [Z]; the true division [/] turns it into a real.

    numpy.  What [norm.cdf] returns is a [numpy.float64], and so is every
    number computed from it ([black_scholes()], [delta()], [theta()]): where
    the interpreter raises [ZeroDivisionError], numpy's division returns an
    infinity or NaN (with a warning).  The two portfolio queries that divide
    such a number, [delta] and [theta], return a [Np.float64].

    Objects.  A method of [Option] runs in a state-and-exception monad whose
    state is the object [self]; the portfolio queries run in the exception
    monad and read the entries they walk. *)

From Stdlib Require Import Reals Lra Lia ZArith List String Bool.
From Stdlib Require Import Sorted Permutation.
Import ListNotations.

Open Scope R_scope.

(** ** Python: exceptions, the exception monad, [math] *)

Module Py.

Inductive exn : Type :=
| ValueError (msg : string)
| ZeroDivisionError
| OverflowError (msg : string).

Inductive result (A : Type) : Type :=
| Ok (a : A)
| Raise (e : exn).

Arguments Ok {A} a.
Arguments Raise {A} e.

Definition bind {A B : Type} (m : result A) (k : A -> result B) : result B :=
  match m with
  | Ok a => k a
  | Raise e => Raise e
  end.

(** [math.exp], exact: the value of the real exponential.  It never
    flushes to zero and never overflows; see [Binary64.math_exp] for the
    range. *)
Definition math_exp (x : R) : result R := Ok (exp x).

(** [math.log]: defined on the positive numbers. *)
Definition math_log (x : R) : result R :=
  if Rlt_dec 0 x then Ok (ln x) else Raise (ValueError "math domain error").

(** [math.sqrt]: defined on the non-negative numbers. *)
Definition math_sqrt (x : R) : result R :=
  if Rle_dec 0 x then Ok (sqrt x) else Raise (ValueError "math domain error").

(** [x / y]. *)
Definition div (x y : R) : result R :=
  if Req_dec_T y 0 then Raise ZeroDivisionError else Ok (x / y).

(** [math.pi]. *)
Definition math_pi : R := PI.

End Py.

Import Py.

Declare Scope py_scope.
Delimit Scope py_scope with py.
Notation "x <- m ;; k" := (Py.bind m (fun x => k))
  (at level 61, m at next level, right associativity) : py_scope.
Notation "' pat <- m ;; k" := (Py.bind m (fun x => match x with pat => k end))
  (at level 61, pat pattern, m at next level, right associativity) : py_scope.

(** ** The standard normal density and distribution function *)

(** The density [n(x) = e^(-x^2/2) / sqrt(2 pi)]. *)
Definition phi (x : R) : R := exp (- x ^ 2 / 2) / sqrt (2 * PI).

Lemma phi_continuity : continuity phi.
Proof.
  unfold phi. reg.
Qed.

(** [phi] is integrable between any two bounds, in either order. *)
Lemma phi_integrable (a b : R) : Riemann_integrable phi a b.
Proof.
  destruct (Rle_dec a b) as [Hab | Hab].
  - apply continuity_implies_RiemannInt; [exact Hab |].
    intros x _. apply phi_continuity.
  - apply RiemannInt_P1.
    apply continuity_implies_RiemannInt; [lra |].
    intros x _. apply phi_continuity.
Qed.

(** [scipy.stats.norm.cdf]: the distribution function of the standard
    normal law, [N(x) = 1/2 + integral of n from 0 to x]. *)
Definition Phi (x : R) : R := 1 / 2 + RiemannInt (phi_integrable 0 x).

(** ** class Option *)

Module Option.

(** The attributes [__init__] sets on [self]. *)
Record t : Type := mk {
  option_type : string;
  underlying_price : R;
  strike_price : R;
  interest_rate : R;
  dividend_yield : R;
  time_to_maturity : Z;
  implied_volatility : R
}.

Definition DAYS_IN_YEAR : Z := 365.

Definition Rleb (x y : R) : bool := if Rle_dec x y then true else false.

(** [Option(option_type, underlying_price, ...)]: the two guards of
    [__init__], then the seven assignments. *)
Definition __init__ (option_type : string)
    (underlying_price strike_price interest_rate dividend_yield : R)
    (time_to_maturity : Z) (implied_volatility : R) : result t :=
  if negb (existsb (String.eqb option_type) ["Call"; "Put"]%string) then
    Raise (ValueError "option_type must be 'Call' or 'Put'")
  else if Rleb underlying_price 0 || Rleb strike_price 0
          || (time_to_maturity <=? 0)%Z || Rleb implied_volatility 0 then
    Raise (ValueError
      "Underlying Price, strike price, implied volatility and time to maturity must be positive values")
  else
    Ok (mk option_type underlying_price strike_price interest_rate
           dividend_yield time_to_maturity implied_volatility).

(** A method: a computation over the object [self] that returns a value or
    raises.  The state is threaded through, also when an exception is
    raised. *)
Definition method (A : Type) : Type := t -> t * result A.

Definition ret {A : Type} (a : A) : method A := fun self => (self, Ok a).

Definition mbind {A B : Type} (m : method A) (k : A -> method B) : method B :=
  fun self =>
    match m self with
    | (self', Ok a) => k a self'
    | (self', Raise e) => (self', Raise e)
    end.

(** [self.f]: read an attribute. *)
Definition getattr {A : Type} (f : t -> A) : method A :=
  fun self => (self, Ok (f self)).

(** A call that does not receive [self] ([math], a static method). *)
Definition lift {A : Type} (r : result A) : method A := fun self => (self, r).

(** The value a call [self.m(...)] returns (or the exception it raises). *)
Definition call {A : Type} (m : method A) (self : t) : result A := snd (m self).

(** The object after the call. *)
Definition after {A : Type} (m : method A) (self : t) : t := fst (m self).

Declare Scope method_scope.
Delimit Scope method_scope with method.
Notation "x <- m ;; k" := (mbind m (fun x => k))
  (at level 61, m at next level, right associativity) : method_scope.
Notation "' pat <- m ;; k" := (mbind m (fun x => match x with pat => k end))
  (at level 61, pat pattern, m at next level, right associativity) : method_scope.

Local Open Scope method_scope.

(** [norm_dist(d)]: [norm.cdf(d)]. *)
Definition norm_dist (d : R) : result R := Ok (Phi d).

(** [normal_pdf(d)]: [math.exp(-d ** 2 / 2) / math.sqrt(2 * math.pi)]. *)
Definition normal_pdf (d : R) : result R :=
  (e <- math_exp (- d ^ 2 / 2) ;;
   s <- math_sqrt (2 * math_pi) ;;
   Py.div e s)%py.

(** [self._calculate_d1_d2(S, K, T, r, q, sigma)], evaluated left to
    right. *)
Definition _calculate_d1_d2 (S K T r q sigma : R) : method (R * R) :=
  eq <- lift (math_exp (- q * T)) ;;
  er <- lift (math_exp (- r * T)) ;;
  ratio <- lift (Py.div (S * eq) (K * er)) ;;
  l <- lift (math_log ratio) ;;
  sq <- lift (math_sqrt T) ;;
  D1 <- lift (Py.div (l + 0.5 * sigma ^ 2 * T) (sigma * sq)) ;;
  sq' <- lift (math_sqrt T) ;;
  ret (D1, D1 - sigma * sq').

(** The six assignments that open each of the five pricing methods: [T],
    [S], [K], [r], [q] and [sigma], the three overrides taking the place of
    the stored attributes when they are not [None]. *)
Definition locals (underlying_price : option R) (time_to_maturity : option Z)
    (implied_volatility : option R) : method (R * R * R * R * R * R) :=
  T <- match time_to_maturity with
       | None => ttm <- getattr Option.time_to_maturity ;;
                 lift (Py.div (IZR ttm) (IZR DAYS_IN_YEAR))
       | Some ttm => lift (Py.div (IZR ttm) (IZR DAYS_IN_YEAR))
       end ;;
  S <- match underlying_price with
       | None => getattr Option.underlying_price
       | Some s => ret s
       end ;;
  K <- getattr strike_price ;;
  r <- getattr interest_rate ;;
  q <- getattr dividend_yield ;;
  sigma <- match implied_volatility with
           | None => getattr Option.implied_volatility
           | Some v => ret v
           end ;;
  ret (T, S, K, r, q, sigma).

(** [black_scholes(underlying_price=None, time_to_maturity=None,
    implied_volatility=None)]. *)
Definition black_scholes (underlying_price : option R)
    (time_to_maturity : option Z) (implied_volatility : option R) : method R :=
  '(T, S_, K, r, q, sigma) <-
     locals underlying_price time_to_maturity implied_volatility ;;
  '(D1, D2) <- _calculate_d1_d2 S_ K T r q sigma ;;
  ty <- getattr option_type ;;
  if String.eqb ty "Call" then
    eq <- lift (math_exp (- q * T)) ;;
    n1 <- lift (norm_dist D1) ;;
    er <- lift (math_exp (- r * T)) ;;
    n2 <- lift (norm_dist D2) ;;
    ret (S_ * eq * n1 - K * er * n2)
  else
    er <- lift (math_exp (- r * T)) ;;
    n2 <- lift (norm_dist (- D2)) ;;
    eq <- lift (math_exp (- q * T)) ;;
    n1 <- lift (norm_dist (- D1)) ;;
    ret (K * er * n2 - S_ * eq * n1).

(** [delta(...)]. *)
Definition delta (underlying_price : option R)
    (time_to_maturity : option Z) (implied_volatility : option R) : method R :=
  '(T, S_, K, r, q, sigma) <-
     locals underlying_price time_to_maturity implied_volatility ;;
  '(D1, _) <- _calculate_d1_d2 S_ K T r q sigma ;;
  ty <- getattr option_type ;;
  if String.eqb ty "Call" then
    eq <- lift (math_exp (- q * T)) ;;
    n1 <- lift (norm_dist D1) ;;
    ret (eq * n1)
  else
    eq <- lift (math_exp (- q * T)) ;;
    n1 <- lift (norm_dist D1) ;;
    ret (eq * (n1 - 1)).

(** [vega(...)]. *)
Definition vega (underlying_price : option R)
    (time_to_maturity : option Z) (implied_volatility : option R) : method R :=
  '(T, S_, K, r, q, sigma) <-
     locals underlying_price time_to_maturity implied_volatility ;;
  '(D1, _) <- _calculate_d1_d2 S_ K T r q sigma ;;
  eq <- lift (math_exp (- q * T)) ;;
  p <- lift (normal_pdf D1) ;;
  sq <- lift (math_sqrt T) ;;
  ret (S_ * eq * p * sq * 0.01).

(** [gamma(...)]. *)
Definition gamma (underlying_price : option R)
    (time_to_maturity : option Z) (implied_volatility : option R) : method R :=
  '(T, S_, K, r, q, sigma) <-
     locals underlying_price time_to_maturity implied_volatility ;;
  '(D1, _) <- _calculate_d1_d2 S_ K T r q sigma ;;
  p <- lift (normal_pdf D1) ;;
  eq <- lift (math_exp (- q * T)) ;;
  sq <- lift (math_sqrt T) ;;
  lift (Py.div (p * eq) (S_ * sigma * sq)).

(** [theta(...)]. *)
Definition theta (underlying_price : option R)
    (time_to_maturity : option Z) (implied_volatility : option R) : method R :=
  '(T, S_, K, r, q, sigma) <-
     locals underlying_price time_to_maturity implied_volatility ;;
  '(D1, D2) <- _calculate_d1_d2 S_ K T r q sigma ;;
  ty <- getattr option_type ;;
  if String.eqb ty "Call" then
    p <- lift (normal_pdf D1) ;;
    eq <- lift (math_exp (- q * T)) ;;
    sq <- lift (math_sqrt T) ;;
    decay <- lift (Py.div (- S_ * p * sigma * eq) (2 * sq)) ;;
    n1 <- lift (norm_dist D1) ;;
    eq' <- lift (math_exp (- q * T)) ;;
    er <- lift (math_exp (- r * T)) ;;
    n2 <- lift (norm_dist D2) ;;
    lift (Py.div (decay + q * S_ * n1 * eq' - r * K * er * n2)
                 (IZR DAYS_IN_YEAR))
  else
    p <- lift (normal_pdf D1) ;;
    eq <- lift (math_exp (- q * T)) ;;
    sq <- lift (math_sqrt T) ;;
    decay <- lift (Py.div (- S_ * p * sigma * eq) (2 * sq)) ;;
    n1 <- lift (norm_dist (- D1)) ;;
    eq' <- lift (math_exp (- q * T)) ;;
    er <- lift (math_exp (- r * T)) ;;
    n2 <- lift (norm_dist (- D2)) ;;
    lift (Py.div (decay - q * S_ * n1 * eq' + r * K * er * n2)
                 (IZR DAYS_IN_YEAR)).

End Option.

(** ** The range of binary64 in [math.exp]

    The exponential of a real number is never zero; the one [math.exp]
    returns is [0.0] as soon as the exact value is at most [2^-1075], half
    the least positive binary64 number, and [math.exp] raises
    [OverflowError] as soon as the exact value rounds to infinity, that is
    from [2^1024 - 2^970] on.  Here [normal_pdf], [_calculate_d1_d2],
    [vega] and [gamma] are run on that [math.exp]; inside the range the
    value is the exact one, and the other operations stay exact. *)

Module Binary64.

Import Option.

Local Open Scope method_scope.

(** Half the least positive binary64 number. *)
Definition tiny : R := / 2 ^ 1075.

(** The least number that rounds to infinity, [2^1024 - 2^970]. *)
Definition huge : R := (2 ^ 54 - 1) * 2 ^ 970.

(** The exact value is the one [math.exp] returns, up to rounding. *)
Definition in_range (y : R) : Prop := tiny < y < huge.

(** [math.exp]. *)
Definition math_exp (x : R) : result R :=
  if Rle_dec huge (exp x) then Raise (OverflowError "math range error")
  else if Rle_dec (exp x) tiny then Ok 0
  else Ok (exp x).

(** [normal_pdf(d)]: [math.exp(-d ** 2 / 2) / math.sqrt(2 * math.pi)]. *)
Definition normal_pdf (d : R) : result R :=
  (e <- math_exp (- d ^ 2 / 2) ;;
   s <- math_sqrt (2 * math_pi) ;;
   Py.div e s)%py.

(** [self._calculate_d1_d2(S, K, T, r, q, sigma)]. *)
Definition _calculate_d1_d2 (S K T r q sigma : R) : method (R * R) :=
  eq <- lift (math_exp (- q * T)) ;;
  er <- lift (math_exp (- r * T)) ;;
  ratio <- lift (Py.div (S * eq) (K * er)) ;;
  l <- lift (math_log ratio) ;;
  sq <- lift (math_sqrt T) ;;
  D1 <- lift (Py.div (l + 0.5 * sigma ^ 2 * T) (sigma * sq)) ;;
  sq' <- lift (math_sqrt T) ;;
  ret (D1, D1 - sigma * sq').

(** [vega(...)]. *)
Definition vega (underlying_price : option R)
    (time_to_maturity : option Z) (implied_volatility : option R) : method R :=
  '(T, S_, K, r, q, sigma) <-
     locals underlying_price time_to_maturity implied_volatility ;;
  '(D1, _) <- _calculate_d1_d2 S_ K T r q sigma ;;
  eq <- lift (math_exp (- q * T)) ;;
  p <- lift (normal_pdf D1) ;;
  sq <- lift (math_sqrt T) ;;
  ret (S_ * eq * p * sq * 0.01).

(** [gamma(...)]. *)
Definition gamma (underlying_price : option R)
    (time_to_maturity : option Z) (implied_volatility : option R) : method R :=
  '(T, S_, K, r, q, sigma) <-
     locals underlying_price time_to_maturity implied_volatility ;;
  '(D1, _) <- _calculate_d1_d2 S_ K T r q sigma ;;
  p <- lift (normal_pdf D1) ;;
  eq <- lift (math_exp (- q * T)) ;;
  sq <- lift (math_sqrt T) ;;
  lift (Py.div (p * eq) (S_ * sigma * sq)).

(** The density [normal_pdf] computes: zero where the exponential is. *)
Definition density (d : R) : R :=
  if Rle_dec (exp (- d ^ 2 / 2)) tiny then 0 else phi d.

End Binary64.

(** ** class Forward *)

Module Forward.

Record t : Type := mk { underlying_price : R }.

Definition __init__ (underlying_price : R) : t := mk underlying_price.

End Forward.

(** ** numpy.float64 *)

Module Np.

(** A [numpy.float64]: a number, an infinity or NaN. *)
Inductive float64 : Type :=
| Finite (x : R)
| Inf (negative : bool)
| NaN.

Definition Rltb (x y : R) : bool := if Rlt_dec x y then true else false.

(** [x / y] for a [numpy.float64] [x]: a zero divisor raises nothing, the
    quotient is an infinity of the sign of [x], or NaN for [0 / 0]. *)
Definition div (x y : R) : float64 :=
  if Req_dec_T y 0 then
    if Req_dec_T x 0 then NaN else Inf (Rltb x 0)
  else Finite (x / y).

(** [a + b]. *)
Definition add (a b : float64) : float64 :=
  match a, b with
  | Finite x, Finite y => Finite (x + y)
  | NaN, _ | _, NaN => NaN
  | Inf s, Finite _ | Finite _, Inf s => Inf s
  | Inf s, Inf s' => if Bool.eqb s s' then Inf s else NaN
  end.

(** An infinity or NaN. *)
Definition nonfinite (a : float64) : Prop :=
  match a with
  | Finite _ => False
  | _ => True
  end.

End Np.

(** A number where a [numpy.float64] is expected is that finite value. *)
Coercion Np.Finite : R >-> Np.float64.
Arguments Py.Ok {A} & a.

(** ** class Portfolio *)

Module Portfolio.

(** An entry of [self.options] or [self.forwards]: the dict with the keys
    ['option'] (or ['forward']), ['quantity'] and ['contract_size']. *)
Record entry (I : Type) : Type := mk_entry {
  instrument : I;
  quantity : R;
  contract_size : R
}.

Arguments mk_entry {I} _ _ _.
Arguments instrument {I} _.
Arguments quantity {I} _.
Arguments contract_size {I} _.

Record t : Type := mk {
  portfolio_value : R;
  options : list (entry Option.t);
  forwards : list (entry Forward.t)
}.

Definition __init__ (portfolio_value : R) : t := mk portfolio_value [] [].

(** [self.options.append({...})]. *)
Definition add_option (self : t) (option : Option.t)
    (quantity contract_size : R) : t :=
  mk (portfolio_value self)
     (options self ++ [mk_entry option quantity contract_size])
     (forwards self).

(** [self.forwards.append({...})]. *)
Definition add_forward (self : t) (forward : Forward.t)
    (quantity contract_size : R) : t :=
  mk (portfolio_value self)
     (options self)
     (forwards self ++ [mk_entry forward quantity contract_size]).

Local Open Scope py_scope.

(** [for entry in entries: total += body(entry)], from the running total
    [total]; the first exception leaves the loop. *)
Fixpoint for_each {A : Type} (body : A -> result R) (entries : list A)
    (total : R) : result R :=
  match entries with
  | [] => Ok total
  | entry :: rest =>
      term <- body entry ;;
      for_each body rest (total + term)
  end.

(** The five queries.  A pricing call on the instrument of an entry is
    made through [Option.call]: the instrument it leaves behind is the one
    it found (see [Frame] below), so the loops read the entries and write
    nothing but their running total. *)
Definition total_premium_amount (self : t) : result R :=
  for_each
    (fun entry =>
       price <- Option.call (Option.black_scholes None None None)
                            (instrument entry) ;;
       Ok (price * quantity entry * contract_size entry))
    (options self) 0.

(** The same loop on a running total that is a [numpy.float64]. *)
Fixpoint for_each_np {A : Type} (body : A -> result Np.float64)
    (entries : list A) (total : Np.float64) : result Np.float64 :=
  match entries with
  | [] => Ok total
  | entry :: rest =>
      term <- body entry ;;
      for_each_np body rest (Np.add total term)
  end.

(** [option.delta()] is a [numpy.float64], and so is the dividend of the
    first loop: its division is numpy's.  The dividend of the second loop
    is made of the entry's own numbers: its division is the
    interpreter's. *)
Definition delta (self : t) : result Np.float64 :=
  total_delta <-
    for_each_np
      (fun entry =>
         d <- Option.call (Option.delta None None None) (instrument entry) ;;
         Ok (Np.div (d * quantity entry * contract_size entry
                     * Option.underlying_price (instrument entry))
                    (portfolio_value self)))
      (options self) (Np.Finite 0) ;;
  for_each_np
    (fun entry =>
       term <- Py.div (quantity entry * contract_size entry
                       * Forward.underlying_price (instrument entry))
                      (portfolio_value self) ;;
       Ok (Np.Finite term))
    (forwards self) total_delta.

Definition gamma (self : t) : result R :=
  for_each
    (fun entry =>
       g <- Option.call (Option.gamma None None None) (instrument entry) ;;
       scaled <- Py.div (g * quantity entry * contract_size entry
                         * Option.underlying_price (instrument entry) ^ 2)
                        100 ;;
       Py.div scaled (portfolio_value self))
    (options self) 0.

Definition vega (self : t) : result R :=
  for_each
    (fun entry =>
       v <- Option.call (Option.vega None None None) (instrument entry) ;;
       Py.div (v * quantity entry * contract_size entry * 10000)
              (portfolio_value self))
    (options self) 0.

(** [option.theta()] is a [numpy.float64]: the division is numpy's. *)
Definition theta (self : t) : result Np.float64 :=
  for_each_np
    (fun entry =>
       th <- Option.call (Option.theta None None None) (instrument entry) ;;
       Ok (Np.div (th * quantity entry * contract_size entry * 10000)
                  (portfolio_value self)))
    (options self) (Np.Finite 0).

End Portfolio.

(** ** class Volatility (vol.py) *)

Module Volatility.

(** The index of the price series: a calendar date (one sample per trading
    day). *)
Record Timestamp : Type := mk_ts { year : Z; month : Z; day : Z }.

(** [12 * year + (month - 1)]: the calendar months, numbered in a row. *)
Definition month_index (ts : Timestamp) : Z := 12 * year ts + (month ts - 1).

Definition ts_leb (a b : Timestamp) : bool :=
  (month_index a <? month_index b)%Z
  || ((month_index a =? month_index b)%Z && (day a <=? day b)%Z).

(** A float64 cell of a pandas Series: a number, an infinity (what numpy's
    division by zero gives) or NaN, pandas' marker of a missing value. *)
Inductive cell : Type :=
| NaN
| Inf (negative : bool)
| Num (x : R).

Definition Series (A : Type) : Type := list (Timestamp * A).

Definition isna (c : cell) : bool :=
  match c with NaN => true | _ => false end.

(** [Series.sort_index()]: ascending by timestamp. *)
Fixpoint insert_sorted {A : Type} (e : Timestamp * A) (s : Series A)
    : Series A :=
  match s with
  | [] => [e]
  | e' :: s' =>
      if ts_leb (fst e) (fst e') then e :: e' :: s'
      else e' :: insert_sorted e s'
  end.

Definition sort_index {A : Type} (s : Series A) : Series A :=
  fold_right insert_sorted [] s.

Record t : Type := mk { historical_prices : Series R }.

Definition __init__ (historical_prices : Series R) : t :=
  mk (sort_index historical_prices).

Definition Rltb (x y : R) : bool := if Rlt_dec x y then true else false.

(** [p / prev - 1] on float64 arrays: numpy divides by zero without
    raising. *)
Definition pct (prev p : R) : cell :=
  if Req_dec_T prev 0 then
    if Req_dec_T p 0 then NaN else Inf (Rltb p 0)
  else Num (p / prev - 1).

Fixpoint pct_change_from (prev : R) (s : Series R) : Series cell :=
  match s with
  | [] => []
  | (ts, p) :: s' => (ts, pct prev p) :: pct_change_from p s'
  end.

(** [Series.pct_change()]: the first position has no previous price. *)
Definition pct_change (s : Series R) : Series cell :=
  match s with
  | [] => []
  | (ts, p) :: s' => (ts, NaN) :: pct_change_from p s'
  end.

(** [Series.dropna()]. *)
Definition dropna (s : Series cell) : Series cell :=
  filter (fun e => negb (isna (snd e))) s.

(** The observations of a window that count: pandas' rolling aggregations
    read an infinity as a missing value. *)
Fixpoint observations (w : list cell) : list R :=
  match w with
  | [] => []
  | Num x :: w' => x :: observations w'
  | _ :: w' => observations w'
  end.

Definition Rsum (l : list R) : R := fold_right Rplus 0 l.

Definition mean (l : list R) : R := Rsum l / INR (List.length l).

(** The sample standard deviation (ddof = 1). *)
Definition sample_std (l : list R) : R :=
  sqrt (Rsum (map (fun x => (x - mean l) ^ 2) l) / (INR (List.length l) - 1)).

(** The trailing window that ends at position [i]: at most [window]
    cells. *)
Definition trailing (window i : nat) (l : list cell) : list cell :=
  skipn (S i - window) (firstn (S i) l).

(** [Series.rolling(window).std()], [min_periods] defaulting to [window]:
    a position with fewer than [window] observations in its trailing
    window is NaN. *)
Definition rolling_std (window : nat) (s : Series cell) : Series cell :=
  map (fun i =>
         let obs := observations (trailing window i (map snd s)) in
         (fst (nth i s (mk_ts 0 0 0, NaN)),
          if (List.length obs <? window)%nat then NaN else Num (sample_std obs)))
      (seq 0 (List.length s)).

(** [series * k] for a scalar [k > 0]. *)
Definition scale (k : R) (s : Series cell) : Series cell :=
  map (fun e => (fst e,
                 match snd e with
                 | Num x => Num (x * k)
                 | c => c
                 end)) s.

Definition is_leap (y : Z) : bool :=
  ((y mod 4 =? 0) && negb (y mod 100 =? 0) || (y mod 400 =? 0))%Z.

Definition days_in_month (y m : Z) : Z :=
  if (m =? 2)%Z then (if is_leap y then 29 else 28)
  else if ((m =? 4) || (m =? 6) || (m =? 9) || (m =? 11))%Z then 30
  else 31.

(** The last calendar day of the month numbered [mi]. *)
Definition month_end (mi : Z) : Timestamp :=
  let y := (mi / 12)%Z in
  let m := (mi mod 12 + 1)%Z in
  mk_ts y m (days_in_month y m).

(** The last cell of a bin that is not NaN, NaN when there is none. *)
Definition last_valid (bin : list cell) : cell :=
  fold_left (fun acc c => if isna c then acc else c) bin NaN.

(** [Series.resample('M').last()]: one bin per calendar month from the
    month of the earliest timestamp to the month of the latest one,
    labelled by its month end, whether or not a sample falls in it; an
    empty series has no bin. *)
Definition resample_M_last (s : Series cell) : Series cell :=
  match s with
  | [] => []
  | (first, _) :: rest =>
      let months := map (fun e => month_index (fst e)) rest in
      let lo := fold_right Z.min (month_index first) months in
      let hi := fold_right Z.max (month_index first) months in
      map (fun k =>
             let mi := (lo + Z.of_nat k)%Z in
             (month_end mi,
              last_valid
                (map snd
                   (filter (fun e => (month_index (fst e) =? mi)%Z) s))))
          (seq 0 (Z.to_nat (hi - lo + 1)))
  end.

(** [daily_returns]. *)
Definition daily_returns (self : t) : Series cell :=
  dropna (pct_change (historical_prices self)).

(** [rolling_volatility]. *)
Definition rolling_volatility (self : t) : Series cell :=
  scale (sqrt 252) (rolling_std 30 (daily_returns self)).

Definition compute_monthly_30d_volatility (self : t) : Series cell :=
  resample_M_last (rolling_volatility self).

End Volatility.

(** ** The formulas of the specification *)

Module Spec.

(** [T = timeToMaturityDays / 365]. *)
Definition T (timeToMaturityDays : Z) : R := IZR timeToMaturityDays / 365.

(** [d1 = (ln(S e^(-qT) / (K e^(-rT))) + 0.5 sigma^2 T) / (sigma sqrt T)]. *)
Definition d1 (S K r q T sigma : R) : R :=
  (ln (S * exp (- q * T) / (K * exp (- r * T))) + 0.5 * sigma ^ 2 * T)
  / (sigma * sqrt T).

(** [d2 = d1 - sigma sqrt T]. *)
Definition d2 (S K r q T sigma : R) : R :=
  d1 S K r q T sigma - sigma * sqrt T.

Inductive kind : Type := Call | Put.

Definition price (k : kind) (S K r q T sigma : R) : R :=
  match k with
  | Call => S * exp (- q * T) * Phi (d1 S K r q T sigma)
            - K * exp (- r * T) * Phi (d2 S K r q T sigma)
  | Put => K * exp (- r * T) * Phi (- d2 S K r q T sigma)
           - S * exp (- q * T) * Phi (- d1 S K r q T sigma)
  end.

Definition delta (k : kind) (S K r q T sigma : R) : R :=
  match k with
  | Call => exp (- q * T) * Phi (d1 S K r q T sigma)
  | Put => exp (- q * T) * (Phi (d1 S K r q T sigma) - 1)
  end.

Definition gamma (S K r q T sigma : R) : R :=
  phi (d1 S K r q T sigma) * exp (- q * T) / (S * sigma * sqrt T).

Definition vega (S K r q T sigma : R) : R :=
  S * exp (- q * T) * phi (d1 S K r q T sigma) * sqrt T * 0.01.

Definition theta (k : kind) (S K r q T sigma : R) : R :=
  match k with
  | Call =>
      (- S * phi (d1 S K r q T sigma) * sigma * exp (- q * T) / (2 * sqrt T)
       + q * S * Phi (d1 S K r q T sigma) * exp (- q * T)
       - r * K * exp (- r * T) * Phi (d2 S K r q T sigma)) / 365
  | Put =>
      (- S * phi (d1 S K r q T sigma) * sigma * exp (- q * T) / (2 * sqrt T)
       - q * S * Phi (- d1 S K r q T sigma) * exp (- q * T)
       + r * K * exp (- r * T) * Phi (- d2 S K r q T sigma)) / 365
  end.

(** The instrument invariant of the data model. *)
Definition valid (o : Option.t) : Prop :=
  (Option.option_type o = "Call"%string \/ Option.option_type o = "Put"%string)
  /\ 0 < Option.underlying_price o
  /\ 0 < Option.strike_price o
  /\ (0 < Option.time_to_maturity o)%Z
  /\ 0 < Option.implied_volatility o.

(** The parameters a pricing call works with: the override when there is
    one, the stored attribute otherwise. *)
Definition days (ut : option Z) (o : Option.t) : Z :=
  match ut with None => Option.time_to_maturity o | Some d => d end.

Definition spot (us : option R) (o : Option.t) : R :=
  match us with None => Option.underlying_price o | Some s => s end.

Definition vol (uv : option R) (o : Option.t) : R :=
  match uv with None => Option.implied_volatility o | Some v => v end.

(** The kind of a stored instrument. *)
Definition kind_of (o : Option.t) : kind :=
  if String.eqb (Option.option_type o) "Call" then Call else Put.

(** [delta()] of a stored instrument, by its kind. *)
Definition delta_of (o : Option.t) : R :=
  delta (kind_of o)
        (Option.underlying_price o) (Option.strike_price o)
        (Option.interest_rate o) (Option.dividend_yield o)
        (T (Option.time_to_maturity o)) (Option.implied_volatility o).

(** [price()] of a stored instrument, by its kind. *)
Definition price_of (o : Option.t) : R :=
  price (kind_of o)
        (Option.underlying_price o) (Option.strike_price o)
        (Option.interest_rate o) (Option.dividend_yield o)
        (T (Option.time_to_maturity o)) (Option.implied_volatility o).

(** Sum of [term] over the entries, in the order of the list. *)
Definition sum_over {A : Type} (term : A -> R) (entries : list A) : R :=
  fold_left (fun acc e => acc + term e) entries 0.

(** [price() * quantity * contractSize]. *)
Definition premium_term (e : Portfolio.entry Option.t) : R :=
  price_of (Portfolio.instrument e)
  * Portfolio.quantity e * Portfolio.contract_size e.

(** [delta() * quantity * contractSize * underlyingPrice / portfolioValue]. *)
Definition option_delta_term (p : Portfolio.t)
    (e : Portfolio.entry Option.t) : R :=
  delta_of (Portfolio.instrument e)
  * Portfolio.quantity e * Portfolio.contract_size e
  * Option.underlying_price (Portfolio.instrument e)
  / Portfolio.portfolio_value p.

(** [quantity * contractSize * underlyingPrice / portfolioValue]. *)
Definition forward_delta_term (p : Portfolio.t)
    (e : Portfolio.entry Forward.t) : R :=
  Portfolio.quantity e * Portfolio.contract_size e
  * Forward.underlying_price (Portfolio.instrument e)
  / Portfolio.portfolio_value p.

(** [totalDelta()]: the sum over the option entries plus the sum over the
    forward entries. *)
Definition totalDelta (p : Portfolio.t) : R :=
  sum_over (option_delta_term p) (Portfolio.options p)
  + sum_over (forward_delta_term p) (Portfolio.forwards p).

(** The same sum as one running total: the option entries first, in the
    order of insertion, then the forward entries. *)
Definition totalDelta_running (p : Portfolio.t) : R :=
  fold_left (fun acc e => acc + forward_delta_term p e)
    (Portfolio.forwards p)
    (fold_left (fun acc e => acc + option_delta_term p e)
       (Portfolio.options p) 0).

(** [totalPremium()]. *)
Definition totalPremium (p : Portfolio.t) : R :=
  sum_over premium_term (Portfolio.options p).

(** Every option entry holds a constructed (valid) instrument. *)
Definition valid_entries (p : Portfolio.t) : Prop :=
  Forall (fun e => valid (Portfolio.instrument e)) (Portfolio.options p).

(** The five pricing calls of an option instrument. *)
Definition pricing_calls
    : list (option R -> option Z -> option R -> Option.method R) :=
  [Option.black_scholes; Option.delta; Option.gamma; Option.vega;
   Option.theta].

(** A method that leaves every attribute of [self] as it found it, whether
    it returns or raises. *)
Definition readonly {A : Type} (m : Option.method A) : Prop :=
  forall self : Option.t, Option.after m self = self.

(** The instrument of the repository's test: a 30-day call, spot 100,
    strike 110. *)
Definition example_call : Option.t :=
  Option.mk "Call" 100 110 0.05 0.02 30 0.2.

(** The book of the specification's scenario: value 1 000 000, 100
    contracts of the call and 50 forwards at 100. *)
Definition example_book : Portfolio.t :=
  Portfolio.add_forward
    (Portfolio.add_option (Portfolio.__init__ 1000000) example_call 100 1)
    (Forward.__init__ 100) 50 1.

(** Two daily closes of January 2024. *)
Definition two_closes : Volatility.Series R :=
  [(Volatility.mk_ts 2024 1 2, 100); (Volatility.mk_ts 2024 1 3, 101)].

(** The calendar months [lo], [lo + 1], ..., [hi], by their number. *)
Definition months (lo hi : Z) : list Z :=
  map (fun k => (lo + Z.of_nat k)%Z) (seq 0 (Z.to_nat (hi - lo + 1))).

(** The timestamps span the months [lo] to [hi]: one of them falls in
    month [lo], one in month [hi], none before [lo] or after [hi]. *)
Definition spans (index : list Volatility.Timestamp) (lo hi : Z) : Prop :=
  In lo (map Volatility.month_index index)
  /\ In hi (map Volatility.month_index index)
  /\ Forall (fun ts => (lo <= Volatility.month_index ts <= hi)%Z) index.

(** The insufficient-data marker at every position. *)
Definition all_nan (s : Volatility.Series Volatility.cell) : Prop :=
  Forall (fun e => snd e = Volatility.NaN) s.

(** A call far out of the money, one day before expiry: spot 100, strike
    150, volatility 0.1. *)
Definition far_call : Option.t :=
  Option.mk "Call" 100 150 0.05 0.02 1 0.1.

(** A book of zero value that holds 100 contracts of [example_call]. *)
Definition zero_value_book : Portfolio.t :=
  Portfolio.add_option (Portfolio.__init__ 0) example_call 100 1.

End Spec.

(** ** Quantities read off the pricer and the aggregator *)

Module Greeks.

(** [gamma()], [vega()] and [theta()] of a stored instrument. *)
Definition gamma_of (o : Option.t) : R :=
  Spec.gamma (Option.underlying_price o) (Option.strike_price o)
             (Option.interest_rate o) (Option.dividend_yield o)
             (Spec.T (Option.time_to_maturity o))
             (Option.implied_volatility o).

Definition vega_of (o : Option.t) : R :=
  Spec.vega (Option.underlying_price o) (Option.strike_price o)
            (Option.interest_rate o) (Option.dividend_yield o)
            (Spec.T (Option.time_to_maturity o))
            (Option.implied_volatility o).

Definition theta_of (o : Option.t) : R :=
  Spec.theta (Spec.kind_of o)
             (Option.underlying_price o) (Option.strike_price o)
             (Option.interest_rate o) (Option.dividend_yield o)
             (Spec.T (Option.time_to_maturity o))
             (Option.implied_volatility o).

(** The instrument a call with overrides prices: the stored one, with the
    overridden attributes replaced. *)
Definition with_overrides (us : option R) (ut : option Z) (uv : option R)
    (o : Option.t) : Option.t :=
  Option.mk (Option.option_type o) (Spec.spot us o) (Option.strike_price o)
            (Option.interest_rate o) (Option.dividend_yield o)
            (Spec.days ut o) (Spec.vol uv o).

(** The number a call returns (0 where it raises). *)
Definition value (r : result R) : R :=
  match r with Ok v => v | Raise _ => 0 end.

(** [price()], [delta()] and [gamma()] as functions of the underlying
    price, and [price()] and [vega()] as functions of the volatility, the
    other parameters being the stored ones. *)
Definition price_at_spot (o : Option.t) (s : R) : R :=
  value (Option.call (Option.black_scholes (Some s) None None) o).

Definition delta_at_spot (o : Option.t) (s : R) : R :=
  value (Option.call (Option.delta (Some s) None None) o).

Definition gamma_at_spot (o : Option.t) (s : R) : R :=
  value (Option.call (Option.gamma (Some s) None None) o).

Definition price_at_vol (o : Option.t) (v : R) : R :=
  value (Option.call (Option.black_scholes None None (Some v)) o).

Definition vega_at_vol (o : Option.t) (v : R) : R :=
  value (Option.call (Option.vega None None (Some v)) o).

End Greeks.

Module Totals.

(** The term of an option entry in [totalGamma], [totalVega] and
    [totalTheta]. *)
Definition gamma_term (p : Portfolio.t) (e : Portfolio.entry Option.t) : R :=
  Greeks.gamma_of (Portfolio.instrument e)
  * Portfolio.quantity e * Portfolio.contract_size e
  * Option.underlying_price (Portfolio.instrument e) ^ 2
  / 100 / Portfolio.portfolio_value p.

Definition vega_term (p : Portfolio.t) (e : Portfolio.entry Option.t) : R :=
  Greeks.vega_of (Portfolio.instrument e)
  * Portfolio.quantity e * Portfolio.contract_size e
  * 10000 / Portfolio.portfolio_value p.

Definition theta_term (p : Portfolio.t) (e : Portfolio.entry Option.t) : R :=
  Greeks.theta_of (Portfolio.instrument e)
  * Portfolio.quantity e * Portfolio.contract_size e
  * 10000 / Portfolio.portfolio_value p.

Definition totalGamma (p : Portfolio.t) : R :=
  Spec.sum_over (gamma_term p) (Portfolio.options p).

Definition totalVega (p : Portfolio.t) : R :=
  Spec.sum_over (vega_term p) (Portfolio.options p).

Definition totalTheta (p : Portfolio.t) : R :=
  Spec.sum_over (theta_term p) (Portfolio.options p).

(** A call whose underlying price was set to 0 after construction. *)
Definition worthless_call : Option.t :=
  Option.mk "Call" 0 110 0.05 0.02 30 0.2.

(** A book that holds it behind a valid entry. *)
Definition book_with_bad_entry : Portfolio.t :=
  Portfolio.add_option
    (Portfolio.add_option (Portfolio.__init__ 1000000)
                          Spec.example_call 100 1)
    worthless_call 10 1.

End Totals.

Module Realized.

Import Volatility.

(** Ascending timestamps. *)
Definition ts_le {A : Type} (a b : Timestamp * A) : Prop :=
  ts_leb (fst a) (fst b) = true.

(** A defined, non-negative value, or the insufficient-data marker. *)
Definition nonneg_or_nan (c : cell) : Prop :=
  match c with
  | NaN => True
  | Inf _ => False
  | Num x => 0 <= x
  end.

Definition zero_or_nan (c : cell) : Prop := c = NaN \/ c = Num 0.

Definition is_number (c : cell) : Prop := exists x : R, c = Num x.

(** The same closes in another unit: every price multiplied by [k]. *)
Definition rescale (k : R) (s : Series R) : Series R :=
  map (fun e => (fst e, k * snd e)) s.

(** The last day of a calendar month. *)
Definition is_month_end (ts : Timestamp) : Prop :=
  (1 <= month ts <= 12)%Z /\ day ts = days_in_month (year ts) (month ts).

(** The rolling volatility at position [i]: the annualized sample
    standard deviation of the observations of the window that ends there,
    NaN when they are fewer than 30. *)
Definition value_at (v : t) (i : nat) : cell :=
  let obs := observations (trailing 30 i (map snd (daily_returns v))) in
  if (List.length obs <? 30)%nat then NaN
  else Num (sample_std obs * sqrt 252).

(** What the order of two timestamps depends on. *)
Definition key (ts : Timestamp) : Z * Z := (month_index ts, day ts).

(** No two samples on the same day. *)
Definition distinct_days {A : Type} (s : Series A) : Prop :=
  NoDup (map (fun e => key (fst e)) s).

(** The 31 days of January 2024, all closing at 100. *)
Definition steady_january : Series R :=
  map (fun k => (mk_ts 2024 1 (Z.of_nat k), 100)) (seq 1 31).

End Realized.

(** ** The distribution function is symmetric *)

Section PhiSymmetry.

Variable M : R.
Hypothesis M_nonneg : 0 <= M.

Let bounds : - M <= M.
Proof. lra. Qed.

Let C0 : forall x : R, - M <= x <= M -> continuity_pt phi x.
Proof. intros x _. apply phi_continuity. Qed.

(** The primitive of [phi] on [[-M, M]] that vanishes at [-M]. *)
Let G : R -> R := primitive bounds (FTC_P1 bounds C0).

Lemma G_integral (x : R) :
  - M <= x <= M -> G x = RiemannInt (phi_integrable (- M) x).
Proof.
  intros [Hl Hr]. unfold G, primitive.
  destruct (Rle_dec (- M) x) as [H1 | H1]; [| contradiction].
  destruct (Rle_dec x M) as [H2 | H2]; [| contradiction].
  apply RiemannInt_P5.
Qed.

Lemma phi_even (x : R) : phi (- x) = phi x.
Proof. unfold phi. f_equal. f_equal. field. Qed.

Lemma G_mirror_antiderivative :
  antiderivative phi (fun x => - G (- x)) (- M) M.
Proof.
  split; [| exact bounds].
  intros x Hx.
  assert (HG : derivable_pt_lim G (- x) (phi (- x))).
  { apply RiemannInt_P28. lra. }
  assert (Hneg : derivable_pt_lim (fun y => - y) x (-1)).
  { apply derivable_pt_lim_opp_fwd.
    apply derivable_pt_lim_ext with (f := fun y => y).
    - intros z. unfold opp_fct. ring.
    - replace (- -1) with 1 by ring. apply derivable_pt_lim_id. }
  assert (Hcomp := derivable_pt_lim_comp _ _ _ _ _ Hneg HG).
  assert (H : derivable_pt_lim (fun y => - G (- y)) x (phi x)).
  { apply derivable_pt_lim_opp_fwd.
    apply derivable_pt_lim_ext with (f := comp G (fun y => - y)).
    - intros z. reflexivity.
    - replace (- phi x) with (phi (- x) * -1); [exact Hcomp |].
      rewrite phi_even. ring. }
  exists (exist _ (phi x) H). reflexivity.
Qed.

Lemma G_symmetric (x : R) :
  - M <= x <= M -> G x + G (- x) = 2 * G 0.
Proof.
  intros Hx.
  destruct (antiderivative_Ucte phi G _ (- M) M
              (RiemannInt_P29 bounds C0) G_mirror_antiderivative) as [c Hc].
  assert (H0 := Hc 0 ltac:(lra)). simpl in H0.
  assert (H1 := Hc x Hx). simpl in H1.
  rewrite Ropp_0 in H0. lra.
Qed.

Lemma integral_from_0_odd (x : R) :
  - M <= x <= M ->
  RiemannInt (phi_integrable 0 x) + RiemannInt (phi_integrable 0 (- x)) = 0.
Proof.
  intros Hx.
  assert (Hs := G_symmetric x Hx).
  rewrite !G_integral in Hs by lra.
  assert (Ha := RiemannInt_P26 (phi_integrable (- M) 0) (phi_integrable 0 x)
                  (phi_integrable (- M) x)).
  assert (Hb := RiemannInt_P26 (phi_integrable (- M) 0)
                  (phi_integrable 0 (- x)) (phi_integrable (- M) (- x))).
  lra.
Qed.

End PhiSymmetry.

(** [N(x) + N(-x) = 1]. *)
Lemma Phi_symmetric (x : R) : Phi x + Phi (- x) = 1.
Proof.
  unfold Phi.
  assert (H := integral_from_0_odd (Rabs x) (Rabs_pos x) x).
  assert (Hx : - Rabs x <= x <= Rabs x).
  { unfold Rabs. destruct (Rcase_abs x); lra. }
  specialize (H Hx). lra.
Qed.

Example Phi_0 : Phi 0 = 1 / 2.
Proof. unfold Phi. rewrite RiemannInt_P9. lra. Qed.

Lemma phi_pos (x : R) : 0 < phi x.
Proof.
  unfold phi. apply Rdiv_lt_0_compat.
  - apply exp_pos.
  - apply sqrt_lt_R0. generalize PI_RGT_0. lra.
Qed.

(** ** Python's arithmetic on its domain and off it *)

Lemma div_ok (x y : R) : y <> 0 -> Py.div x y = Ok (x / y).
Proof.
  intros Hy. unfold Py.div. destruct (Req_dec_T y 0); [contradiction | reflexivity].
Qed.

Lemma div_by_zero (x : R) : Py.div x 0 = Raise ZeroDivisionError.
Proof.
  unfold Py.div. destruct (Req_dec_T 0 0) as [_ | H]; [reflexivity | now destruct H].
Qed.

Lemma math_log_ok (x : R) : 0 < x -> math_log x = Ok (ln x).
Proof.
  intros Hx. unfold math_log. destruct (Rlt_dec 0 x); [reflexivity | contradiction].
Qed.

Lemma math_log_domain (x : R) :
  x <= 0 -> math_log x = Raise (ValueError "math domain error").
Proof.
  intros Hx. unfold math_log. destruct (Rlt_dec 0 x); [lra | reflexivity].
Qed.

Lemma math_sqrt_ok (x : R) : 0 <= x -> math_sqrt x = Ok (sqrt x).
Proof.
  intros Hx. unfold math_sqrt. destruct (Rle_dec 0 x); [reflexivity | contradiction].
Qed.

Lemma math_sqrt_domain (x : R) :
  x < 0 -> math_sqrt x = Raise (ValueError "math domain error").
Proof.
  intros Hx. unfold math_sqrt. destruct (Rle_dec 0 x); [lra | reflexivity].
Qed.

Lemma sqrt_2pi_pos : 0 < sqrt (2 * PI).
Proof. apply sqrt_lt_R0. generalize PI_RGT_0. lra. Qed.

Lemma normal_pdf_ok (d : R) : Option.normal_pdf d = Ok (phi d).
Proof.
  unfold Option.normal_pdf, math_exp, math_pi. cbn.
  rewrite math_sqrt_ok by (generalize sqrt_2pi_pos, PI_RGT_0; lra). cbn.
  rewrite div_ok by (apply Rgt_not_eq, sqrt_2pi_pos).
  reflexivity.
Qed.

Lemma days_in_year_nonzero : IZR Option.DAYS_IN_YEAR <> 0.
Proof. unfold Option.DAYS_IN_YEAR. lra. Qed.

(** ** The pricing methods on their domain *)

Module OptionFacts.

Import Option.
Import Spec(days, spot, vol, kind_of).

Lemma locals_run (us : option R) (ut : option Z) (uv : option R) (self : t) :
  locals us ut uv self =
  (self, Ok (Spec.T (days ut self), spot us self, strike_price self,
             interest_rate self, dividend_yield self, vol uv self)).
Proof.
  unfold locals, mbind, getattr, lift, ret, Spec.T, days, spot, vol.
  destruct ut, us, uv; cbn;
    rewrite div_ok by apply days_in_year_nonzero; reflexivity.
Qed.

Lemma sigma_sqrt_nonzero (T sigma : R) : 0 < T -> sigma <> 0 -> sigma * sqrt T <> 0.
Proof.
  intros HT Hs. apply Rmult_integral_contrapositive_currified; [exact Hs |].
  apply Rgt_not_eq, sqrt_lt_R0, HT.
Qed.

Lemma ratio_pos (S K r q T : R) :
  0 < S -> 0 < K -> 0 < S * exp (- q * T) / (K * exp (- r * T)).
Proof.
  intros HS HK. apply Rdiv_lt_0_compat; apply Rmult_lt_0_compat;
    try assumption; apply exp_pos.
Qed.

Lemma calculate_d1_d2_run (S K T r q sigma : R) (self : t) :
  0 < S -> 0 < K -> 0 < T -> sigma <> 0 ->
  _calculate_d1_d2 S K T r q sigma self =
  (self, Ok (Spec.d1 S K r q T sigma, Spec.d2 S K r q T sigma)).
Proof.
  intros HS HK HT Hs.
  unfold _calculate_d1_d2, mbind, lift, ret, math_exp. cbn.
  rewrite div_ok
    by (apply Rgt_not_eq, Rmult_lt_0_compat; [exact HK | apply exp_pos]).
  rewrite math_log_ok by (apply ratio_pos; assumption).
  rewrite math_sqrt_ok by lra.
  rewrite div_ok by (apply sigma_sqrt_nonzero; assumption).
  reflexivity.
Qed.

Lemma T_pos (d : Z) : (0 < d)%Z -> 0 < Spec.T d.
Proof.
  intros Hd. unfold Spec.T. apply Rdiv_lt_0_compat; [| lra].
  apply IZR_lt. exact Hd.
Qed.

Section Domain.

Variables (us : option R) (ut : option Z) (uv : option R) (self : t).

Hypothesis spot_pos : 0 < spot us self.
Hypothesis strike_pos : 0 < strike_price self.
Hypothesis days_pos : (0 < days ut self)%Z.
Hypothesis vol_nonzero : vol uv self <> 0.

Let S := spot us self.
Let K := strike_price self.
Let r := interest_rate self.
Let q := dividend_yield self.
Let T := Spec.T (days ut self).
Let sigma := vol uv self.

Ltac enter m :=
  unfold m, mbind; rewrite locals_run;
  rewrite calculate_d1_d2_run by (auto using T_pos);
  unfold getattr, lift, ret, norm_dist, math_exp, kind_of;
  rewrite ?normal_pdf_ok;
  rewrite ?math_sqrt_ok by (apply Rlt_le, T_pos, days_pos).

Lemma black_scholes_run :
  black_scholes us ut uv self =
  (self, Ok (Spec.price (kind_of self) S K r q T sigma)).
Proof.
  enter black_scholes.
  destruct (String.eqb (option_type self) "Call"); reflexivity.
Qed.

Lemma delta_run :
  delta us ut uv self =
  (self, Ok (Spec.delta (kind_of self) S K r q T sigma)).
Proof.
  enter delta.
  destruct (String.eqb (option_type self) "Call"); reflexivity.
Qed.

Lemma vega_run :
  vega us ut uv self = (self, Ok (Spec.vega S K r q T sigma)).
Proof.
  enter vega. reflexivity.
Qed.

Lemma gamma_run :
  gamma us ut uv self = (self, Ok (Spec.gamma S K r q T sigma)).
Proof.
  enter gamma.
  rewrite div_ok; [reflexivity |].
  rewrite Rmult_assoc.
  apply Rmult_integral_contrapositive_currified.
  - apply Rgt_not_eq, spot_pos.
  - apply sigma_sqrt_nonzero; [apply T_pos, days_pos | exact vol_nonzero].
Qed.

Lemma theta_run :
  theta us ut uv self =
  (self, Ok (Spec.theta (kind_of self) S K r q T sigma)).
Proof.
  assert (Hsq : 2 * sqrt (Spec.T (days ut self)) <> 0).
  { apply Rgt_not_eq. generalize (sqrt_lt_R0 _ (T_pos _ days_pos)). lra. }
  enter theta.
  destruct (String.eqb (option_type self) "Call");
    rewrite div_ok by exact Hsq;
    rewrite div_ok by apply days_in_year_nonzero; reflexivity.
Qed.

End Domain.

End OptionFacts.

(** ** Pricing calls never write to the instrument *)

Module Frame.

Import Option.
Import Spec(readonly, pricing_calls).

Lemma readonly_ret {A : Type} (a : A) : readonly (ret a).
Proof. intros self. reflexivity. Qed.

Lemma readonly_lift {A : Type} (r : result A) : readonly (lift r).
Proof. intros self. reflexivity. Qed.

Lemma readonly_getattr {A : Type} (f : t -> A) : readonly (getattr f).
Proof. intros self. reflexivity. Qed.

Lemma readonly_mbind {A B : Type} (m : method A) (k : A -> method B) :
  readonly m -> (forall a, readonly (k a)) -> readonly (mbind m k).
Proof.
  intros Hm Hk self. unfold after, mbind.
  specialize (Hm self). unfold after in Hm.
  destruct (m self) as [self' [a | e]]; simpl in Hm; subst self'.
  - apply Hk.
  - reflexivity.
Qed.

Create HintDb readonly.
#[local] Hint Resolve readonly_ret readonly_lift readonly_getattr : readonly.

Ltac readonly_step :=
  match goal with
  | |- readonly (mbind _ _) => apply readonly_mbind
  | |- forall _, _ => intro
  | |- readonly (match ?x with (_, _) => _ end) => destruct x
  | |- readonly (match ?x with Some _ => _ | None => _ end) => destruct x
  | |- readonly (if ?b then _ else _) => destruct b
  | |- readonly _ => solve [auto with readonly]
  end.

Ltac readonly_method m := unfold m; repeat readonly_step.

Lemma readonly_calculate_d1_d2 (S K T r q sigma : R) :
  readonly (_calculate_d1_d2 S K T r q sigma).
Proof. readonly_method _calculate_d1_d2. Qed.

Lemma readonly_locals (us : option R) (ut : option Z) (uv : option R) :
  readonly (locals us ut uv).
Proof. readonly_method locals. Qed.

#[local] Hint Resolve readonly_calculate_d1_d2 readonly_locals : readonly.

Lemma readonly_black_scholes us ut uv : readonly (black_scholes us ut uv).
Proof. readonly_method black_scholes. Qed.

Lemma readonly_delta us ut uv : readonly (delta us ut uv).
Proof. readonly_method delta. Qed.

Lemma readonly_vega us ut uv : readonly (vega us ut uv).
Proof. readonly_method vega. Qed.

Lemma readonly_gamma us ut uv : readonly (gamma us ut uv).
Proof. readonly_method gamma. Qed.

Lemma readonly_theta us ut uv : readonly (theta us ut uv).
Proof. readonly_method theta. Qed.

Lemma readonly_pricing_calls m us ut uv :
  In m pricing_calls -> readonly (m us ut uv).
Proof.
  unfold pricing_calls. simpl.
  intros [<- | [<- | [<- | [<- | [<- | []]]]]];
    auto using readonly_black_scholes, readonly_delta, readonly_vega,
               readonly_gamma, readonly_theta.
Qed.

End Frame.

(** ** The constructor *)

Module Constructor.

Import Option.

Section Init.

Variables (ty : string) (S K r q : R) (days : Z) (sigma : R).

Lemma init_type_error :
  ty <> "Call"%string -> ty <> "Put"%string ->
  __init__ ty S K r q days sigma
  = Raise (ValueError "option_type must be 'Call' or 'Put'").
Proof.
  intros Hc Hp. unfold __init__. simpl.
  rewrite (proj2 (String.eqb_neq _ _) Hc), (proj2 (String.eqb_neq _ _) Hp).
  reflexivity.
Qed.

Lemma kind_accepted :
  ty = "Call"%string \/ ty = "Put"%string ->
  negb (existsb (String.eqb ty) ["Call"; "Put"]%string) = false.
Proof.
  intros [-> | ->]; reflexivity.
Qed.

Lemma init_value_error :
  ty = "Call"%string \/ ty = "Put"%string ->
  S <= 0 \/ K <= 0 \/ (days <= 0)%Z \/ sigma <= 0 ->
  exists msg : string, __init__ ty S K r q days sigma = Raise (ValueError msg).
Proof.
  intros Hty Hbad. unfold __init__. rewrite (kind_accepted Hty).
  unfold Rleb.
  destruct (Rle_dec S 0); destruct (Rle_dec K 0);
    destruct (Z.leb_spec days 0); destruct (Rle_dec sigma 0); simpl;
    try (eexists; reflexivity).
  exfalso. destruct Hbad as [Hb | [Hb | [Hb | Hb]]]; try contradiction. lia.
Qed.

Lemma init_returns :
  ty = "Call"%string \/ ty = "Put"%string ->
  0 < S -> 0 < K -> (0 < days)%Z -> 0 < sigma ->
  __init__ ty S K r q days sigma = Ok (mk ty S K r q days sigma).
Proof.
  intros Hty HS HK Hd Hs. unfold __init__. rewrite (kind_accepted Hty).
  unfold Rleb.
  destruct (Rle_dec S 0); [lra |]. destruct (Rle_dec K 0); [lra |].
  destruct (Z.leb_spec days 0); [lia |].
  destruct (Rle_dec sigma 0); [lra |]. reflexivity.
Qed.

End Init.

(** The valid instruments are the ones the constructor returns. *)
Lemma valid_iff_constructed (o : t) :
  Spec.valid o <->
  __init__ (option_type o) (underlying_price o) (strike_price o)
           (interest_rate o) (dividend_yield o) (time_to_maturity o)
           (implied_volatility o) = Ok o.
Proof.
  split.
  - intros (Hty & HS & HK & Hd & Hs).
    rewrite init_returns by assumption. destruct o; reflexivity.
  - intros Hinit. unfold Spec.valid.
    destruct (string_dec (option_type o) "Call") as [Hc | Hc];
      [| destruct (string_dec (option_type o) "Put") as [Hp | Hp]].
    3: { rewrite init_type_error in Hinit by assumption. discriminate. }
    all: assert (Hty : option_type o = "Call"%string
                       \/ option_type o = "Put"%string) by tauto.
    all: split; [exact Hty |].
    all: destruct (Rle_dec (underlying_price o) 0) as [H1 | H1];
      [| destruct (Rle_dec (strike_price o) 0) as [H2 | H2];
         [| destruct (Z_le_dec (time_to_maturity o) 0) as [H3 | H3];
            [| destruct (Rle_dec (implied_volatility o) 0) as [H4 | H4];
               [| repeat split; lra || lia ]]]].
    all: exfalso.
    all: destruct (init_value_error (option_type o) (underlying_price o)
                     (strike_price o) (interest_rate o) (dividend_yield o)
                     (time_to_maturity o) (implied_volatility o) Hty
                     ltac:(tauto)) as [msg Hmsg].
    all: rewrite Hmsg in Hinit; discriminate.
Qed.

Example init_test_instrument :
  __init__ "Call" 100 110 0.05 0.02 30 0.2 = Ok Spec.example_call.
Proof. apply init_returns; lra || lia || (left; reflexivity). Qed.

Example init_rejects_kind :
  __init__ "Straddle" 100 110 0.05 0.02 30 0.2
  = Raise (ValueError "option_type must be 'Call' or 'Put'").
Proof. reflexivity. Qed.

End Constructor.

(** ** The claims about the pricer *)

(** C1: for every option instrument with valid parameters (S > 0, K > 0,
    timeToMaturityDays > 0, sigma > 0), [price()] returns
    [S e^(-qT) N(d1) - K e^(-rT) N(d2)] when the kind is Call and
    [K e^(-rT) N(-d2) - S e^(-qT) N(-d1)] when it is Put, where
    [T = timeToMaturityDays / 365],
    [d1 = (ln(S e^(-qT) / (K e^(-rT))) + 0.5 sigma^2 T) / (sigma sqrt T)]
    and [d2 = d1 - sigma sqrt T]. *)
Theorem C1_price_formula (o : Option.t) :
  0 < Option.underlying_price o ->
  0 < Option.strike_price o ->
  (0 < Option.time_to_maturity o)%Z ->
  0 < Option.implied_volatility o ->
  let S := Option.underlying_price o in
  let K := Option.strike_price o in
  let r := Option.interest_rate o in
  let q := Option.dividend_yield o in
  let sigma := Option.implied_volatility o in
  let T := IZR (Option.time_to_maturity o) / 365 in
  let d1 := (ln (S * exp (- q * T) / (K * exp (- r * T)))
             + 0.5 * sigma ^ 2 * T) / (sigma * sqrt T) in
  let d2 := d1 - sigma * sqrt T in
  (Option.option_type o = "Call"%string ->
   Option.call (Option.black_scholes None None None) o
   = Ok (S * exp (- q * T) * Phi d1 - K * exp (- r * T) * Phi d2))
  /\
  (Option.option_type o = "Put"%string ->
   Option.call (Option.black_scholes None None None) o
   = Ok (K * exp (- r * T) * Phi (- d2) - S * exp (- q * T) * Phi (- d1))).
Proof.
  intros HS HK HT Hsigma. cbv zeta. unfold Option.call.
  rewrite OptionFacts.black_scholes_run
    by (simpl; auto using Rgt_not_eq).
  unfold Spec.kind_of.
  split; intros Hty; rewrite Hty; reflexivity.
Qed.

Lemma C1_price_formula_witness :
  0 < 100 /\ 0 < 110 /\ (0 < 30)%Z /\ 0 < 0.2 /\
  Option.call (Option.black_scholes None None None) Spec.example_call
  = Ok (Spec.price Spec.Call 100 110 0.05 0.02 (Spec.T 30) 0.2).
Proof.
  assert (H1 : 0 < 100) by lra.
  assert (H2 : 0 < 110) by lra.
  assert (H3 : (0 < 30)%Z) by lia.
  assert (H4 : 0 < 0.2) by lra.
  refine (conj H1 (conj H2 (conj H3 (conj H4 _)))).
  exact (proj1 (C1_price_formula Spec.example_call H1 H2 H3 H4) eq_refl).
Defined.

(** C2 (put-call parity): for every valid parameter set (S > 0, K > 0, any
    real r and q, T > 0, sigma > 0), the price of a Call minus the price of
    a Put with identical parameters equals [S e^(-qT) - K e^(-rT)]. *)
Theorem C2_put_call_parity (S K r q : R) (days : Z) (sigma : R) :
  0 < S -> 0 < K -> (0 < days)%Z -> 0 < sigma ->
  let T := IZR days / 365 in
  exists c p : R,
    Option.call (Option.black_scholes None None None)
                (Option.mk "Call" S K r q days sigma) = Ok c
    /\ Option.call (Option.black_scholes None None None)
                   (Option.mk "Put" S K r q days sigma) = Ok p
    /\ c - p = S * exp (- q * T) - K * exp (- r * T).
Proof.
  intros HS HK HT Hsigma T.
  eexists. eexists. unfold Option.call.
  rewrite !OptionFacts.black_scholes_run
    by (simpl; auto using Rgt_not_eq).
  split; [reflexivity | split; [reflexivity |]].
  simpl. fold T.
  set (d1 := Spec.d1 S K r q (Spec.T days) sigma).
  set (d2 := Spec.d2 S K r q (Spec.T days) sigma).
  unfold Spec.T. fold T.
  assert (H1 := Phi_symmetric d1).
  assert (H2 := Phi_symmetric d2).
  replace (Phi (- d1)) with (1 - Phi d1) by lra.
  replace (Phi (- d2)) with (1 - Phi d2) by lra.
  ring.
Qed.

Lemma C2_put_call_parity_witness :
  0 < 100 /\ 0 < 110 /\ (0 < 30)%Z /\ 0 < 0.2 /\
  exists c p : R,
    Option.call (Option.black_scholes None None None)
                (Option.mk "Call" 100 110 0.05 0.02 30 0.2) = Ok c
    /\ Option.call (Option.black_scholes None None None)
                   (Option.mk "Put" 100 110 0.05 0.02 30 0.2) = Ok p
    /\ c - p = 100 * exp (- (0.02) * (30 / 365))
               - 110 * exp (- (0.05) * (30 / 365)).
Proof.
  assert (H1 : 0 < 100) by lra.
  assert (H2 : 0 < 110) by lra.
  assert (H3 : (0 < 30)%Z) by lia.
  assert (H4 : 0 < 0.2) by lra.
  refine (conj H1 (conj H2 (conj H3 (conj H4 _)))).
  exact (C2_put_call_parity 100 110 0.05 0.02 30 0.2 H1 H2 H3 H4).
Defined.

(** ** [gamma()] and [vega()] within the range of binary64 *)

Module RangeFacts.

Import Option.
Import Spec(days, spot, vol).

Arguments Binary64.tiny : simpl never.
Arguments Binary64.huge : simpl never.

Lemma two_le_pow (n : nat) : 2 <= 2 ^ S n.
Proof.
  change (2 ^ S n) with (2 * 2 ^ n).
  assert (H : 1 <= 2 ^ n) by (apply pow_R1_Rle; lra). lra.
Qed.

Lemma tiny_pos : 0 < Binary64.tiny.
Proof.
  unfold Binary64.tiny. apply Rinv_0_lt_compat.
  generalize (two_le_pow 1074). lra.
Qed.

Lemma tiny_le_half : Binary64.tiny <= / 2.
Proof.
  unfold Binary64.tiny. apply Rinv_le_contravar; [lra |].
  exact (two_le_pow 1074).
Qed.

Lemma huge_ge_2 : 2 <= Binary64.huge.
Proof.
  unfold Binary64.huge.
  assert (H1 := two_le_pow 53). assert (H2 := two_le_pow 969).
  replace 2 with (1 * 2) at 1 by lra.
  apply Rmult_le_compat; lra.
Qed.

Lemma exp_le_1 (x : R) : x <= 0 -> exp x <= 1.
Proof.
  intros [Hx | Hx].
  - rewrite <- exp_0. left. apply exp_increasing. exact Hx.
  - rewrite Hx, exp_0. lra.
Qed.

Lemma exp_monotone (x y : R) : x <= y -> exp x <= exp y.
Proof.
  intros [H | H].
  - left. apply exp_increasing. exact H.
  - rewrite H. lra.
Qed.

(** A small discount exponent is well inside the range. *)
Lemma exp_in_range (x : R) : - (1 / 4) <= x <= 0 -> Binary64.in_range (exp x).
Proof.
  intros [Hlo Hhi]. split.
  - generalize (exp_ineq1_le x), tiny_le_half. lra.
  - generalize (exp_le_1 x Hhi), huge_ge_2. lra.
Qed.

Lemma math_exp_ok (x : R) :
  Binary64.in_range (exp x) -> Binary64.math_exp x = Ok (exp x).
Proof.
  intros [Hlo Hhi]. unfold Binary64.math_exp.
  destruct (Rle_dec Binary64.huge (exp x)); [lra |].
  destruct (Rle_dec (exp x) Binary64.tiny); [lra | reflexivity].
Qed.

Lemma math_exp_underflow (x : R) :
  exp x <= Binary64.tiny -> Binary64.math_exp x = Ok 0.
Proof.
  intros Hx. unfold Binary64.math_exp.
  destruct (Rle_dec Binary64.huge (exp x)).
  - generalize tiny_le_half, huge_ge_2. lra.
  - destruct (Rle_dec (exp x) Binary64.tiny); [reflexivity | contradiction].
Qed.

Lemma density_nonneg (d : R) : 0 <= Binary64.density d.
Proof.
  unfold Binary64.density.
  destruct (Rle_dec (exp (- d ^ 2 / 2)) Binary64.tiny); [lra |].
  left. apply phi_pos.
Qed.

Lemma density_underflow (d : R) :
  exp (- d ^ 2 / 2) <= Binary64.tiny -> Binary64.density d = 0.
Proof.
  intros H. unfold Binary64.density.
  destruct (Rle_dec (exp (- d ^ 2 / 2)) Binary64.tiny);
    [reflexivity | contradiction].
Qed.

(** [normal_pdf] raises nothing: the exponent is never positive. *)
Lemma normal_pdf_run (d : R) :
  Binary64.normal_pdf d = Ok (Binary64.density d).
Proof.
  assert (Hle : exp (- d ^ 2 / 2) <= 1).
  { apply exp_le_1. generalize (pow2_ge_0 d). lra. }
  unfold Binary64.normal_pdf, Binary64.density, Binary64.math_exp, math_pi.
  destruct (Rle_dec Binary64.huge (exp (- d ^ 2 / 2))).
  { generalize huge_ge_2. lra. }
  destruct (Rle_dec (exp (- d ^ 2 / 2)) Binary64.tiny); cbn [Py.bind];
    rewrite math_sqrt_ok by (generalize PI_RGT_0; lra); cbn [Py.bind];
    rewrite div_ok by (apply Rgt_not_eq, sqrt_2pi_pos).
  - unfold Rdiv. rewrite Rmult_0_l. reflexivity.
  - reflexivity.
Qed.

Lemma calculate_d1_d2_in_range (S K T r q sigma : R) (self : t) :
  0 < S -> 0 < K -> 0 < T -> sigma <> 0 ->
  Binary64.in_range (exp (- q * T)) -> Binary64.in_range (exp (- r * T)) ->
  Binary64._calculate_d1_d2 S K T r q sigma self =
  (self, Ok (Spec.d1 S K r q T sigma, Spec.d2 S K r q T sigma)).
Proof.
  intros HS HK HT Hs Hq Hr.
  rewrite <- (OptionFacts.calculate_d1_d2_run S K T r q sigma self)
    by assumption.
  unfold Binary64._calculate_d1_d2, _calculate_d1_d2.
  rewrite !math_exp_ok by assumption. reflexivity.
Qed.

Section Domain.

Variables (us : option R) (ut : option Z) (uv : option R) (self : t).

Hypothesis spot_pos : 0 < spot us self.
Hypothesis strike_pos : 0 < strike_price self.
Hypothesis days_pos : (0 < days ut self)%Z.
Hypothesis vol_nonzero : vol uv self <> 0.

Let S := spot us self.
Let K := strike_price self.
Let r := interest_rate self.
Let q := dividend_yield self.
Let T := Spec.T (days ut self).
Let sigma := vol uv self.

Hypothesis dividend_factor : Binary64.in_range (exp (- q * T)).
Hypothesis interest_factor : Binary64.in_range (exp (- r * T)).

Lemma vega_in_range :
  Binary64.vega us ut uv self =
  (self, Ok (S * exp (- q * T) * Binary64.density (Spec.d1 S K r q T sigma)
             * sqrt T * 0.01)).
Proof.
  unfold Binary64.vega, mbind. rewrite OptionFacts.locals_run.
  rewrite calculate_d1_d2_in_range by (auto using OptionFacts.T_pos).
  unfold lift, ret. rewrite math_exp_ok by exact dividend_factor.
  rewrite normal_pdf_run.
  rewrite math_sqrt_ok by (apply Rlt_le, OptionFacts.T_pos, days_pos).
  reflexivity.
Qed.

Lemma gamma_in_range :
  Binary64.gamma us ut uv self =
  (self, Ok (Binary64.density (Spec.d1 S K r q T sigma) * exp (- q * T)
             / (S * sigma * sqrt T))).
Proof.
  unfold Binary64.gamma, mbind. rewrite OptionFacts.locals_run.
  rewrite calculate_d1_d2_in_range by (auto using OptionFacts.T_pos).
  unfold lift, ret. rewrite normal_pdf_run.
  rewrite math_exp_ok by exact dividend_factor.
  rewrite math_sqrt_ok by (apply Rlt_le, OptionFacts.T_pos, days_pos).
  rewrite div_ok; [reflexivity |].
  rewrite Rmult_assoc.
  apply Rmult_integral_contrapositive_currified.
  - apply Rgt_not_eq, spot_pos.
  - apply OptionFacts.sigma_sqrt_nonzero;
      [apply OptionFacts.T_pos, days_pos | exact vol_nonzero].
Qed.

End Domain.

(** [e^n >= 2^n]. *)
Lemma exp_nat (n : nat) : 2 ^ n <= exp (INR n).
Proof.
  induction n as [| n IH].
  - simpl. rewrite exp_0. lra.
  - rewrite S_INR, exp_plus. change (2 ^ S n) with (2 * 2 ^ n).
    assert (H1 : 2 <= exp 1) by (generalize (exp_ineq1_le 1); lra).
    assert (H2 : 0 < 2 ^ n) by (apply pow_lt; lra).
    rewrite Rmult_comm.
    apply Rmult_le_compat; lra.
Qed.

(** From [d^2 >= 2150] on, [e^(-d^2/2)] is below the least binary64
    number. *)
Lemma far_tail (d : R) :
  2150 <= d ^ 2 -> exp (- d ^ 2 / 2) <= Binary64.tiny.
Proof.
  intros Hd.
  apply Rle_trans with (exp (- INR 1075)).
  - apply exp_monotone.
    replace (INR 1075) with 1075 by (rewrite INR_IZR_INZ; reflexivity).
    lra.
  - rewrite exp_Ropp. unfold Binary64.tiny.
    apply Rinv_le_contravar.
    + apply pow_lt. lra.
    + apply exp_nat.
Qed.

(** The call far out of the money. *)
Lemma far_call_valid : Spec.valid Spec.far_call.
Proof.
  unfold Spec.valid, Spec.far_call. simpl.
  refine (conj (or_introl eq_refl) (conj _ (conj _ (conj _ _)))); lra || lia.
Qed.

Lemma far_call_ratio :
  0 < 100 * exp (- (0.02) * (1 / 365)) / (150 * exp (- (0.05) * (1 / 365)))
    <= 3 / 4.
Proof.
  set (eq := exp (- (0.02) * (1 / 365))).
  set (er := exp (- (0.05) * (1 / 365))).
  assert (Heq : 0 < eq <= 1).
  { split; [apply exp_pos | apply exp_le_1; lra]. }
  assert (Her : 99 / 100 <= er).
  { generalize (exp_ineq1_le (- (0.05) * (1 / 365))). fold er. lra. }
  split.
  - apply Rdiv_lt_0_compat; lra.
  - apply Rmult_le_reg_r with (150 * er); [lra |].
    unfold Rdiv. rewrite Rmult_assoc, Rinv_l by lra. lra.
Qed.

Lemma ln_three_quarters : ln (3 / 4) <= - (1 / 4).
Proof.
  rewrite <- (ln_exp (- (1 / 4))).
  assert (H : 3 / 4 <= exp (- (1 / 4)))
    by (generalize (exp_ineq1_le (- (1 / 4))); lra).
  destruct H as [H | H].
  - left. apply ln_increasing; [lra | exact H].
  - rewrite <- H. lra.
Qed.

Lemma far_call_d1 :
  2150 <= Spec.d1 100 150 0.05 0.02 (Spec.T 1) 0.1 ^ 2.
Proof.
  unfold Spec.d1, Spec.T.
  destruct far_call_ratio as [Hpos Hle].
  set (ratio := 100 * exp (- (0.02) * (1 / 365))
                / (150 * exp (- (0.05) * (1 / 365)))) in *.
  assert (Hln : ln ratio <= - (1 / 4)).
  { apply Rle_trans with (ln (3 / 4)); [| exact ln_three_quarters].
    destruct Hle as [Hlt | Heq].
    - left. apply ln_increasing; assumption.
    - rewrite Heq. lra. }
  set (N := ln ratio + 0.5 * 0.1 ^ 2 * (1 / 365)).
  assert (HN : N <= - (2499 / 10000)) by (unfold N; lra).
  assert (HT : 0 < 1 / 365) by lra.
  assert (Hsq : sqrt (1 / 365) * sqrt (1 / 365) = 1 / 365)
    by (apply sqrt_sqrt; lra).
  assert (Hs : 0 < sqrt (1 / 365)) by (apply sqrt_lt_R0; exact HT).
  set (w := sqrt (1 / 365)) in *.
  replace ((N / (0.1 * w)) ^ 2) with (N * N * 36500).
  - nra.
  - replace 36500 with (/ (0.1 * 0.1 * (w * w))) by (rewrite Hsq; lra).
    field. lra.
Qed.

End RangeFacts.




(** C7: constructing an option instrument fails with the constructor's
    error (a [ValueError]) if and only if the kind is not one of Call and
    Put or one of underlyingPrice, strikePrice, timeToMaturityDays and
    impliedVolatility is [<= 0]; otherwise construction succeeds and stores
    the given parameters. *)
Theorem C7_construction_validates
    (ty : string) (S K r q : R) (days : Z) (sigma : R) :
  let invalid :=
    (ty <> "Call"%string /\ ty <> "Put"%string)
    \/ S <= 0 \/ K <= 0 \/ (days <= 0)%Z \/ sigma <= 0 in
  ((exists msg : string,
      Option.__init__ ty S K r q days sigma = Raise (ValueError msg))
   <-> invalid)
  /\ (~ invalid ->
      Option.__init__ ty S K r q days sigma
      = Ok (Option.mk ty S K r q days sigma)).
Proof.
  intros invalid. unfold invalid.
  assert (Hreturns :
            ~ ((ty <> "Call"%string /\ ty <> "Put"%string)
               \/ S <= 0 \/ K <= 0 \/ (days <= 0)%Z \/ sigma <= 0) ->
            Option.__init__ ty S K r q days sigma
            = Ok (Option.mk ty S K r q days sigma)).
  { intros Hn. apply Constructor.init_returns.
    - destruct (string_dec ty "Call"); destruct (string_dec ty "Put"); tauto.
    - apply Rnot_le_lt. tauto.
    - apply Rnot_le_lt. tauto.
    - apply Z.nle_gt. tauto.
    - apply Rnot_le_lt. tauto. }
  split; [split |].
  - intros [msg Hmsg].
    destruct (string_dec ty "Call") as [Hc | Hc];
      destruct (string_dec ty "Put") as [Hp | Hp];
      destruct (Rle_dec S 0); destruct (Rle_dec K 0);
      destruct (Z_le_dec days 0); destruct (Rle_dec sigma 0);
      try tauto;
      rewrite Hreturns in Hmsg by tauto; discriminate.
  - intros [[Hc Hp] | Hbad].
    + eexists. apply Constructor.init_type_error; assumption.
    + destruct (string_dec ty "Call") as [Hc | Hc];
        [| destruct (string_dec ty "Put") as [Hp | Hp]].
      * apply Constructor.init_value_error; tauto.
      * apply Constructor.init_value_error; tauto.
      * eexists. apply Constructor.init_type_error; assumption.
  - exact Hreturns.
Qed.

(** C8: for every option instrument and every pricing call (price, delta,
    gamma, vega, theta), with any combination of overrides of the
    underlying price, the time to maturity and the implied volatility, the
    stored instrument (all seven attributes) is the same after the call as
    before it, whether the call returns or raises. *)
Theorem C8_pricing_calls_leave_instrument_unchanged
    (o : Option.t) (us : option R) (ut : option Z) (uv : option R) :
  Option.after (Option.black_scholes us ut uv) o = o
  /\ Option.after (Option.delta us ut uv) o = o
  /\ Option.after (Option.gamma us ut uv) o = o
  /\ Option.after (Option.vega us ut uv) o = o
  /\ Option.after (Option.theta us ut uv) o = o.
Proof.
  repeat split.
  - apply Frame.readonly_black_scholes.
  - apply Frame.readonly_delta.
  - apply Frame.readonly_gamma.
  - apply Frame.readonly_vega.
  - apply Frame.readonly_theta.
Qed.

(** ** Pricing calls outside the domain of the formulas *)

Module OptionFailures.

Import Option.
Import Spec(days, spot, vol, kind_of, pricing_calls).

Lemma T_neg (d : Z) : (d < 0)%Z -> Spec.T d < 0.
Proof.
  intros Hd. unfold Spec.T.
  assert (H : IZR d < 0) by (apply (IZR_lt d 0); exact Hd).
  lra.
Qed.

Lemma T_zero : Spec.T 0 = 0.
Proof. unfold Spec.T. lra. Qed.

(** A negative [T]: [math.sqrt(T)] raises. *)
Lemma calculate_d1_d2_negative_T (S K T r q sigma : R) (self : t) :
  0 < S -> 0 < K -> T < 0 ->
  _calculate_d1_d2 S K T r q sigma self =
  (self, Raise (ValueError "math domain error")).
Proof.
  intros HS HK HT.
  unfold _calculate_d1_d2, mbind, lift, ret, math_exp. cbn.
  rewrite div_ok
    by (apply Rgt_not_eq, Rmult_lt_0_compat; [exact HK | apply exp_pos]).
  rewrite math_log_ok by (apply OptionFacts.ratio_pos; assumption).
  rewrite math_sqrt_domain by exact HT.
  reflexivity.
Qed.

(** [sigma * sqrt(T)] zero: the division that gives [D1] raises. *)
Lemma calculate_d1_d2_zero_divisor (S K T r q sigma : R) (self : t) :
  0 < S -> 0 < K -> 0 <= T -> sigma * sqrt T = 0 ->
  _calculate_d1_d2 S K T r q sigma self = (self, Raise ZeroDivisionError).
Proof.
  intros HS HK HT Hz.
  unfold _calculate_d1_d2, mbind, lift, ret, math_exp. cbn.
  rewrite div_ok
    by (apply Rgt_not_eq, Rmult_lt_0_compat; [exact HK | apply exp_pos]).
  rewrite math_log_ok by (apply OptionFacts.ratio_pos; assumption).
  rewrite math_sqrt_ok by exact HT.
  rewrite Hz, div_by_zero.
  reflexivity.
Qed.

(** Each pricing call raises what [_calculate_d1_d2] raises. *)
Lemma pricing_call_propagates m us ut uv (self : t) (e : exn) :
  In m pricing_calls ->
  _calculate_d1_d2 (spot us self) (strike_price self) (Spec.T (days ut self))
                   (interest_rate self) (dividend_yield self) (vol uv self)
                   self = (self, Raise e) ->
  call (m us ut uv) self = Raise e.
Proof.
  unfold pricing_calls. simpl.
  intros [<- | [<- | [<- | [<- | [<- | []]]]]] Hraise; unfold call;
    [ unfold black_scholes | unfold delta | unfold gamma | unfold vega
    | unfold theta ];
    unfold mbind; rewrite OptionFacts.locals_run, Hraise; reflexivity.
Qed.

(** On a negative volatility every pricing call returns a number. *)
Lemma pricing_call_returns m us ut uv (self : t) :
  In m pricing_calls ->
  0 < spot us self -> 0 < strike_price self -> (0 < days ut self)%Z ->
  vol uv self <> 0 ->
  exists v : R, call (m us ut uv) self = Ok v.
Proof.
  unfold pricing_calls. simpl.
  intros [<- | [<- | [<- | [<- | [<- | []]]]]] HS HK HT Hv; unfold call;
    [ rewrite OptionFacts.black_scholes_run by assumption
    | rewrite OptionFacts.delta_run by assumption
    | rewrite OptionFacts.gamma_run by assumption
    | rewrite OptionFacts.vega_run by assumption
    | rewrite OptionFacts.theta_run by assumption ];
    eexists; reflexivity.
Qed.

End OptionFailures.

(** C5, as the code has it: a pricing call checks none of its overrides.
    For a valid instrument and a positive underlying price, a negative
    time-to-maturity override raises the [ValueError] of [math.sqrt], a
    zero time to maturity or a zero volatility raises the
    [ZeroDivisionError] of the division by [sigma sqrt T], and a negative
    volatility override (with a positive time to maturity) raises nothing:
    the call returns a number.  In every case the stored instrument is
    unchanged and still valid. *)
Theorem C5_unchecked_overrides
    (m : option R -> option Z -> option R -> Option.method R)
    (o : Option.t) (us : option R) (ut : option Z) (uv : option R) :
  In m Spec.pricing_calls ->
  Spec.valid o ->
  0 < Spec.spot us o ->
  ((Spec.days ut o < 0)%Z ->
   Option.call (m us ut uv) o = Raise (ValueError "math domain error"))
  /\ ((Spec.days ut o = 0)%Z
      \/ ((0 < Spec.days ut o)%Z /\ Spec.vol uv o = 0) ->
      Option.call (m us ut uv) o = Raise ZeroDivisionError)
  /\ ((0 < Spec.days ut o)%Z -> Spec.vol uv o < 0 ->
      exists v : R, Option.call (m us ut uv) o = Ok v)
  /\ Option.after (m us ut uv) o = o
  /\ Spec.valid (Option.after (m us ut uv) o).
Proof.
  intros Hm Hvalid HS.
  assert (Hframe := Frame.readonly_pricing_calls m us ut uv Hm o).
  destruct Hvalid as (Hty & HS0 & HK & HT0 & Hs0).
  split; [| split; [| split; [| split]]].
  - intros Hneg. apply OptionFailures.pricing_call_propagates; [exact Hm |].
    apply OptionFailures.calculate_d1_d2_negative_T;
      auto using OptionFailures.T_neg.
  - intros Hzero. apply OptionFailures.pricing_call_propagates; [exact Hm |].
    apply OptionFailures.calculate_d1_d2_zero_divisor; try assumption.
    + destruct Hzero as [-> | [Hpos _]].
      * rewrite OptionFailures.T_zero. lra.
      * apply Rlt_le, OptionFacts.T_pos, Hpos.
    + destruct Hzero as [-> | [_ ->]].
      * rewrite OptionFailures.T_zero, sqrt_0. ring.
      * ring.
  - intros Hpos Hv.
    apply OptionFailures.pricing_call_returns; try assumption.
    apply Rlt_not_eq, Hv.
  - exact Hframe.
  - rewrite Hframe. repeat split; assumption.
Qed.

Lemma example_call_valid : Spec.valid Spec.example_call.
Proof.
  unfold Spec.valid, Spec.example_call. simpl.
  repeat split; try lra; try lia. left. reflexivity.
Qed.

Lemma C5_unchecked_overrides_witness :
  In Option.black_scholes Spec.pricing_calls
  /\ Spec.valid Spec.example_call
  /\ 0 < Spec.spot None Spec.example_call
  /\ Option.call (Option.black_scholes None (Some 0%Z) None)
                 Spec.example_call = Raise ZeroDivisionError.
Proof.
  assert (Hin : In Option.black_scholes Spec.pricing_calls)
    by (left; reflexivity).
  assert (HS : 0 < Spec.spot None Spec.example_call) by (simpl; lra).
  refine (conj Hin (conj example_call_valid (conj HS _))).
  exact (proj1 (proj2 (C5_unchecked_overrides Option.black_scholes
                         Spec.example_call None (Some 0%Z) None
                         Hin example_call_valid HS))
               (or_introl eq_refl)).
Defined.

(** C5 fails as stated: on the instrument of the test, a volatility
    override of -0.2 makes [price()] return a number, and a
    time-to-maturity override of 0 days makes it raise the unguarded
    [ZeroDivisionError] of the division by [sigma sqrt T]. *)
Lemma C5_counterexample :
  Option.call (Option.black_scholes None None (Some (- (0.2))))
              Spec.example_call
  = Ok (Spec.price Spec.Call 100 110 0.05 0.02 (Spec.T 30) (- (0.2)))
  /\ Option.call (Option.black_scholes None (Some 0%Z) None)
                 Spec.example_call
     = Raise ZeroDivisionError.
Proof.
  split.
  - unfold Option.call.
    rewrite OptionFacts.black_scholes_run by (simpl; lra || lia).
    reflexivity.
  - apply OptionFailures.pricing_call_propagates; [left; reflexivity |].
    apply OptionFailures.calculate_d1_d2_zero_divisor; simpl; try lra.
    + rewrite OptionFailures.T_zero. lra.
    + rewrite OptionFailures.T_zero, sqrt_0. lra.
Qed.

(** ** The portfolio aggregator *)

Module PortfolioFacts.

Import Portfolio.

(** Entries are appended: the lists are in the order of insertion. *)
Lemma add_option_appends (p : t) (o : Option.t) (q c : R) :
  options (add_option p o q c) = options p ++ [mk_entry o q c]
  /\ forwards (add_option p o q c) = forwards p
  /\ portfolio_value (add_option p o q c) = portfolio_value p.
Proof. repeat split. Qed.

Lemma add_forward_appends (p : t) (f : Forward.t) (q c : R) :
  forwards (add_forward p f q c) = forwards p ++ [mk_entry f q c]
  /\ options (add_forward p f q c) = options p
  /\ portfolio_value (add_forward p f q c) = portfolio_value p.
Proof. repeat split. Qed.

(** A loop whose body returns on every entry returns the running total. *)
Lemma for_each_returns {A : Type} (body : A -> result R) (term : A -> R)
    (entries : list A) (total : R) :
  (forall e, In e entries -> body e = Ok (term e)) ->
  for_each body entries total
  = Ok (fold_left (fun acc e => acc + term e) entries total).
Proof.
  revert total. induction entries as [| e rest IH]; intros total Hbody.
  - reflexivity.
  - simpl. rewrite (Hbody e) by (left; reflexivity). simpl.
    apply IH. intros e' He'. apply Hbody. right. exact He'.
Qed.

(** A loop whose body raises on the first entry raises the same. *)
Lemma for_each_raises_at_head {A : Type} (body : A -> result R)
    (e : A) (rest : list A) (total : R) (x : exn) :
  body e = Raise x -> for_each body (e :: rest) total = Raise x.
Proof. intros H. simpl. rewrite H. reflexivity. Qed.

Lemma fold_left_from {A : Type} (term : A -> R) (l : list A) (a : R) :
  fold_left (fun acc e => acc + term e) l a
  = a + fold_left (fun acc e => acc + term e) l 0.
Proof.
  revert a. induction l as [| e l IH]; intros a; simpl.
  - ring.
  - rewrite (IH (a + term e)), (IH (0 + term e)). ring.
Qed.

(** The same on a [numpy.float64] total: finite terms give the finite
    running total. *)
Lemma for_each_np_returns {A : Type} (body : A -> result Np.float64)
    (term : A -> R) (entries : list A) (total : R) :
  (forall e, In e entries -> body e = Ok (Np.Finite (term e))) ->
  for_each_np body entries (Np.Finite total)
  = Ok (Np.Finite (fold_left (fun acc e => acc + term e) entries total)).
Proof.
  revert total. induction entries as [| e rest IH]; intros total Hbody.
  - reflexivity.
  - simpl. rewrite (Hbody e) by (left; reflexivity). simpl.
    apply IH. intros e' He'. apply Hbody. right. exact He'.
Qed.

Lemma add_nonfinite_l (a b : Np.float64) :
  Np.nonfinite a -> Np.nonfinite (Np.add a b).
Proof.
  destruct a as [x | s |], b as [y | s' |]; simpl; try tauto.
  destruct (Bool.eqb s s'); exact (fun _ => I).
Qed.

Lemma add_nonfinite_r (a b : Np.float64) :
  Np.nonfinite b -> Np.nonfinite (Np.add a b).
Proof.
  destruct a as [x | s |], b as [y | s' |]; simpl; try tauto.
  destruct (Bool.eqb s s'); exact (fun _ => I).
Qed.

(** numpy's quotient by zero is an infinity or NaN. *)
Lemma div_by_zero_nonfinite (x : R) : Np.nonfinite (Np.div x 0).
Proof.
  unfold Np.div. destruct (Req_dec_T 0 0) as [_ | H]; [| now destruct H].
  destruct (Req_dec_T x 0); exact I.
Qed.

Lemma np_div_ok (x y : R) : y <> 0 -> Np.div x y = Np.Finite (x / y).
Proof.
  intros Hy. unfold Np.div.
  destruct (Req_dec_T y 0); [contradiction | reflexivity].
Qed.

(** A loop whose terms are all infinities or NaN returns, and what it
    returns is one, as soon as it has run once or started from one. *)
Lemma for_each_np_nonfinite {A : Type} (body : A -> result Np.float64)
    (entries : list A) (total : Np.float64) :
  (forall e, In e entries ->
             exists x, body e = Ok x /\ Np.nonfinite x) ->
  entries <> [] \/ Np.nonfinite total ->
  exists x, for_each_np body entries total = Ok x /\ Np.nonfinite x.
Proof.
  revert total. induction entries as [| e rest IH]; intros total Hbody Hstart.
  - destruct Hstart as [H | H]; [contradiction |].
    exists total. split; [reflexivity | exact H].
  - destruct (Hbody e ltac:(left; reflexivity)) as (x & Hx & Hnf).
    simpl. rewrite Hx. simpl. apply IH.
    + intros e' He'. apply Hbody. right. exact He'.
    + right. apply add_nonfinite_r. exact Hnf.
Qed.

(** A loop whose body returns on every entry returns. *)
Lemma for_each_np_completes {A : Type} (body : A -> result Np.float64)
    (entries : list A) (total : Np.float64) :
  (forall e, In e entries -> exists x, body e = Ok x) ->
  exists x, for_each_np body entries total = Ok x.
Proof.
  revert total. induction entries as [| e rest IH]; intros total Hbody.
  - exists total. reflexivity.
  - destruct (Hbody e ltac:(left; reflexivity)) as (x & Hx).
    simpl. rewrite Hx. simpl. apply IH.
    intros e' He'. apply Hbody. right. exact He'.
Qed.

Lemma valid_domain (o : Option.t) :
  Spec.valid o ->
  0 < Spec.spot None o /\ 0 < Option.strike_price o
  /\ (0 < Spec.days None o)%Z /\ Spec.vol None o <> 0.
Proof.
  intros (_ & HS & HK & HT & Hs). simpl.
  repeat split; try assumption. apply Rgt_not_eq, Hs.
Qed.

Lemma call_black_scholes (o : Option.t) :
  Spec.valid o ->
  Option.call (Option.black_scholes None None None) o = Ok (Spec.price_of o).
Proof.
  intros Hv. destruct (valid_domain o Hv) as (HS & HK & HT & Hs).
  unfold Option.call. rewrite OptionFacts.black_scholes_run by assumption.
  reflexivity.
Qed.

Lemma call_delta (o : Option.t) :
  Spec.valid o ->
  Option.call (Option.delta None None None) o = Ok (Spec.delta_of o).
Proof.
  intros Hv. destruct (valid_domain o Hv) as (HS & HK & HT & Hs).
  unfold Option.call. rewrite OptionFacts.delta_run by assumption.
  reflexivity.
Qed.

Lemma call_returns m (o : Option.t) :
  In m Spec.pricing_calls -> Spec.valid o ->
  exists v : R, Option.call (m None None None) o = Ok v.
Proof.
  intros Hm Hv. destruct (valid_domain o Hv) as (HS & HK & HT & Hs).
  apply OptionFailures.pricing_call_returns; assumption.
Qed.

Lemma total_premium_amount_returns (p : t) :
  Spec.valid_entries p ->
  total_premium_amount p = Ok (Spec.totalPremium p).
Proof.
  intros Hv. unfold total_premium_amount, Spec.totalPremium, Spec.sum_over.
  apply for_each_returns. intros e He.
  rewrite call_black_scholes.
  - reflexivity.
  - exact (proj1 (Forall_forall _ _) Hv e He).
Qed.

End PortfolioFacts.

(** C3: for every portfolio with a nonzero [portfolioValue], [totalDelta()]
    returns the sum over the option entries of
    [delta() * quantity * contractSize * underlyingPrice / portfolioValue]
    plus the sum over the forward entries of
    [quantity * contractSize * underlyingPrice / portfolioValue], the option
    entries summed first, in the order of insertion, then the forward
    entries. *)
Theorem C3_total_delta (p : Portfolio.t) :
  Portfolio.portfolio_value p <> 0 ->
  Spec.valid_entries p ->
  Portfolio.delta p = Ok (Spec.totalDelta_running p)
  /\ Spec.totalDelta_running p = Spec.totalDelta p.
Proof.
  intros Hpv Hvalid. split.
  - unfold Portfolio.delta, Spec.totalDelta_running.
    rewrite (PortfolioFacts.for_each_np_returns _ (Spec.option_delta_term p)).
    + simpl.
      apply (PortfolioFacts.for_each_np_returns _ (Spec.forward_delta_term p)).
      intros e _. rewrite div_ok by exact Hpv. reflexivity.
    + intros e He.
      rewrite PortfolioFacts.call_delta
        by exact (proj1 (Forall_forall _ _) Hvalid e He).
      simpl. rewrite PortfolioFacts.np_div_ok by exact Hpv. reflexivity.
  - unfold Spec.totalDelta_running, Spec.totalDelta, Spec.sum_over.
    apply PortfolioFacts.fold_left_from.
Qed.

(** C10: for every portfolio with no option entry and no forward entry,
    each of the five aggregate queries returns exactly 0 and raises
    nothing, whatever the [portfolioValue], zero included. *)
Theorem C10_empty_portfolio (portfolio_value : R) :
  let p := Portfolio.__init__ portfolio_value in
  Portfolio.options p = [] /\ Portfolio.forwards p = []
  /\ Portfolio.total_premium_amount p = Ok 0
  /\ Portfolio.delta p = Ok 0
  /\ Portfolio.gamma p = Ok 0
  /\ Portfolio.vega p = Ok 0
  /\ Portfolio.theta p = Ok 0.
Proof.
  cbv zeta. repeat split; reflexivity.
Qed.

Lemma C3_total_delta_witness :
  Portfolio.portfolio_value Spec.example_book <> 0
  /\ Spec.valid_entries Spec.example_book
  /\ Portfolio.delta Spec.example_book
     = Ok (0 + Spec.delta_of Spec.example_call * 100 * 1 * 100 / 1000000
           + 50 * 1 * 100 / 1000000).
Proof.
  assert (Hpv : Portfolio.portfolio_value Spec.example_book <> 0)
    by (simpl; lra).
  assert (Hv : Spec.valid_entries Spec.example_book)
    by (apply Forall_cons; [exact example_call_valid | apply Forall_nil]).
  refine (conj Hpv (conj Hv _)).
  exact (proj1 (C3_total_delta Spec.example_book Hpv Hv)).
Defined.

(** ** A zero portfolio value *)

Module ZeroValue.

Import Portfolio.

Section ZeroValue.

Variable p : t.
Hypothesis value_zero : portfolio_value p = 0.
Hypothesis entries_valid : Spec.valid_entries p.

Lemma entry_valid (e : entry Option.t) :
  In e (options p) -> Spec.valid (instrument e).
Proof. exact (proj1 (Forall_forall _ _) entries_valid e). Qed.

(** [gamma()] and [vega()] are plain floats: the interpreter's division
    raises at the first option entry. *)
Lemma gamma_raises :
  options p <> [] -> gamma p = Raise ZeroDivisionError.
Proof.
  intros Hne. unfold gamma.
  pose proof entry_valid as Hin.
  destruct (options p) as [| e rest]; [contradiction |].
  assert (Hm : In Option.gamma Spec.pricing_calls)
    by (right; right; left; reflexivity).
  destruct (PortfolioFacts.call_returns _ (instrument e) Hm
              (Hin e (or_introl eq_refl))) as [v Hv].
  simpl. rewrite Hv. simpl. rewrite div_ok by lra. simpl.
  rewrite value_zero, div_by_zero. reflexivity.
Qed.

Lemma vega_raises :
  options p <> [] -> vega p = Raise ZeroDivisionError.
Proof.
  intros Hne. unfold vega.
  pose proof entry_valid as Hin.
  destruct (options p) as [| e rest]; [contradiction |].
  assert (Hm : In Option.vega Spec.pricing_calls)
    by (right; right; right; left; reflexivity).
  destruct (PortfolioFacts.call_returns _ (instrument e) Hm
              (Hin e (or_introl eq_refl))) as [v Hv].
  simpl. rewrite Hv. simpl.
  rewrite value_zero, div_by_zero. reflexivity.
Qed.

(** The term of an option entry in [delta()] and in [theta()]: numpy's
    quotient by zero. *)
Lemma delta_term_nonfinite (e : entry Option.t) :
  In e (options p) ->
  exists x : Np.float64,
    Py.bind (Option.call (Option.delta None None None) (instrument e))
            (fun d => Ok (Np.div (d * quantity e * contract_size e
                                  * Option.underlying_price (instrument e))
                                 (portfolio_value p)))
    = Ok x /\ Np.nonfinite x.
Proof.
  intros He.
  assert (Hm : In Option.delta Spec.pricing_calls)
    by (right; left; reflexivity).
  destruct (PortfolioFacts.call_returns _ (instrument e) Hm (entry_valid e He))
    as [v Hv].
  rewrite Hv, value_zero. simpl. eexists. split; [reflexivity |].
  apply PortfolioFacts.div_by_zero_nonfinite.
Qed.

Lemma theta_term_nonfinite (e : entry Option.t) :
  In e (options p) ->
  exists x : Np.float64,
    Py.bind (Option.call (Option.theta None None None) (instrument e))
            (fun th => Ok (Np.div (th * quantity e * contract_size e * 10000)
                                  (portfolio_value p)))
    = Ok x /\ Np.nonfinite x.
Proof.
  intros He.
  assert (Hm : In Option.theta Spec.pricing_calls)
    by (right; right; right; right; left; reflexivity).
  destruct (PortfolioFacts.call_returns _ (instrument e) Hm (entry_valid e He))
    as [v Hv].
  rewrite Hv, value_zero. simpl. eexists. split; [reflexivity |].
  apply PortfolioFacts.div_by_zero_nonfinite.
Qed.

(** [theta()] raises nothing: it returns an infinity or NaN. *)
Lemma theta_nonfinite :
  options p <> [] ->
  exists x : Np.float64, theta p = Ok x /\ Np.nonfinite x.
Proof.
  intros Hne. unfold theta.
  apply PortfolioFacts.for_each_np_nonfinite.
  - exact theta_term_nonfinite.
  - left. exact Hne.
Qed.

(** So does [delta()] when there is no forward entry. *)
Lemma delta_nonfinite :
  options p <> [] -> forwards p = [] ->
  exists x : Np.float64, delta p = Ok x /\ Np.nonfinite x.
Proof.
  intros Hne Hf. unfold delta. rewrite Hf.
  destruct (PortfolioFacts.for_each_np_nonfinite _ (options p) (Np.Finite 0)
              delta_term_nonfinite (or_introl Hne)) as (x & Hx & Hnf).
  rewrite Hx. simpl. exists x. split; [reflexivity | exact Hnf].
Qed.

(** The term of a forward entry is made of plain floats: the first forward
    entry raises, whatever the option entries gave. *)
Lemma delta_raises_on_forward :
  forwards p <> [] -> delta p = Raise ZeroDivisionError.
Proof.
  intros Hf. unfold delta.
  destruct (PortfolioFacts.for_each_np_completes
              (fun entry =>
                 Py.bind (Option.call (Option.delta None None None)
                                      (instrument entry))
                         (fun d =>
                            Ok (Np.div (d * quantity entry
                                        * contract_size entry
                                        * Option.underlying_price
                                            (instrument entry))
                                       (portfolio_value p))))
              (options p) (Np.Finite 0)) as [x Hx].
  { intros e He. destruct (delta_term_nonfinite e He) as (y & Hy & _).
    exists y. exact Hy. }
  rewrite Hx. simpl.
  destruct (forwards p) as [| f rest]; [contradiction |].
  simpl. rewrite value_zero, div_by_zero. reflexivity.
Qed.

End ZeroValue.

End ZeroValue.

(** C4, as the code has it: no query checks [portfolioValue], and what a
    zero [portfolioValue] does depends on the kind of number that is
    divided.  On a portfolio whose [portfolioValue] is zero and whose
    option entries are valid: [totalGamma] and [totalVega] raise the
    [ZeroDivisionError] of the interpreter as soon as there is an option
    entry; [totalDelta] raises it as soon as there is a forward entry;
    [totalTheta] with an option entry, and [totalDelta] with an option
    entry and no forward entry, raise nothing and return an infinity or
    NaN (numpy's division by zero); [totalPremium] does not divide by
    [portfolioValue] and returns its sum. *)
Theorem C4_zero_portfolio_value (p : Portfolio.t) :
  Portfolio.portfolio_value p = 0 ->
  Spec.valid_entries p ->
  (Portfolio.options p <> [] ->
   Portfolio.gamma p = Raise ZeroDivisionError
   /\ Portfolio.vega p = Raise ZeroDivisionError
   /\ (exists x : Np.float64,
         Portfolio.theta p = Ok x /\ Np.nonfinite x)
   /\ (Portfolio.forwards p = [] ->
       exists x : Np.float64,
         Portfolio.delta p = Ok x /\ Np.nonfinite x))
  /\ (Portfolio.forwards p <> [] ->
      Portfolio.delta p = Raise ZeroDivisionError)
  /\ Portfolio.total_premium_amount p = Ok (Spec.totalPremium p).
Proof.
  intros Hz Hv. split; [| split].
  - intros Hne. split; [| split; [| split]].
    + exact (ZeroValue.gamma_raises p Hz Hv Hne).
    + exact (ZeroValue.vega_raises p Hz Hv Hne).
    + exact (ZeroValue.theta_nonfinite p Hz Hv Hne).
    + exact (ZeroValue.delta_nonfinite p Hz Hv Hne).
  - exact (ZeroValue.delta_raises_on_forward p Hz Hv).
  - apply PortfolioFacts.total_premium_amount_returns. exact Hv.
Qed.

Lemma zero_value_book_valid : Spec.valid_entries Spec.zero_value_book.
Proof. apply Forall_cons; [exact example_call_valid | apply Forall_nil]. Qed.

Lemma C4_zero_portfolio_value_witness :
  Portfolio.portfolio_value Spec.zero_value_book = 0
  /\ Spec.valid_entries Spec.zero_value_book
  /\ Portfolio.gamma Spec.zero_value_book = Raise ZeroDivisionError
  /\ (exists x : Np.float64,
        Portfolio.delta Spec.zero_value_book = Ok x /\ Np.nonfinite x)
  /\ Portfolio.total_premium_amount Spec.zero_value_book
     = Ok (Spec.totalPremium Spec.zero_value_book).
Proof.
  assert (Hz : Portfolio.portfolio_value Spec.zero_value_book = 0)
    by reflexivity.
  assert (Hne : Portfolio.options Spec.zero_value_book <> [])
    by discriminate.
  refine (conj Hz (conj zero_value_book_valid _)).
  destruct (C4_zero_portfolio_value Spec.zero_value_book Hz
              zero_value_book_valid) as (Hopt & _ & Hprem).
  destruct (Hopt Hne) as (Hgamma & _ & _ & Hdelta).
  exact (conj Hgamma (conj (Hdelta eq_refl) Hprem)).
Defined.

(** C4 fails as stated: on a book of zero value that holds 100 contracts
    of the call of the test, [totalPremium] raises nothing and returns the
    premium, and [totalTheta] raises nothing either: it returns an infinity
    or NaN. *)
Lemma C4_counterexample :
  Portfolio.portfolio_value Spec.zero_value_book = 0
  /\ Portfolio.total_premium_amount Spec.zero_value_book
     = Ok (0 + Spec.price_of Spec.example_call * 100 * 1)
  /\ exists x : Np.float64,
       Portfolio.theta Spec.zero_value_book = Ok x /\ Np.nonfinite x.
Proof.
  split; [reflexivity | split].
  - rewrite PortfolioFacts.total_premium_amount_returns
      by exact zero_value_book_valid.
    reflexivity.
  - apply (ZeroValue.theta_nonfinite Spec.zero_value_book eq_refl
             zero_value_book_valid).
    discriminate.
Qed.

(** ** The volatility estimator on a short series *)

Module VolatilityFacts.

Import Volatility.
Import Spec(all_nan).

Lemma length_insert_sorted {A : Type} (e : Timestamp * A) (s : Series A) :
  List.length (insert_sorted e s) = S (List.length s).
Proof.
  induction s as [| e' s IH]; simpl.
  - reflexivity.
  - destruct (ts_leb (fst e) (fst e')); simpl; [| rewrite IH]; reflexivity.
Qed.

Lemma length_sort_index {A : Type} (s : Series A) :
  List.length (sort_index s) = List.length s.
Proof.
  induction s as [| e s IH]; simpl.
  - reflexivity.
  - rewrite length_insert_sorted, IH. reflexivity.
Qed.

Lemma length_pct_change_from (prev : R) (s : Series R) :
  List.length (pct_change_from prev s) = List.length s.
Proof.
  revert prev. induction s as [| [ts p] s IH]; intros prev; simpl.
  - reflexivity.
  - rewrite IH. reflexivity.
Qed.

Lemma length_dropna (s : Series cell) :
  (List.length (dropna s) <= List.length s)%nat.
Proof. apply filter_length_le. Qed.

(** The first position of [pct_change] is dropped: a series of [n]
    prices has at most [n - 1] returns. *)
Lemma length_daily_returns (v : t) :
  (List.length (daily_returns v) <= List.length (historical_prices v) - 1)%nat.
Proof.
  unfold daily_returns, pct_change.
  destruct (historical_prices v) as [| [ts p] s]; simpl.
  - lia.
  - fold (dropna (pct_change_from p s)).
    assert (H := length_dropna (pct_change_from p s)).
    rewrite length_pct_change_from in H. lia.
Qed.

Lemma length_observations (w : list cell) :
  (List.length (observations w) <= List.length w)%nat.
Proof.
  induction w as [| [| b | x] w IH]; simpl; lia.
Qed.

Lemma length_trailing (window i : nat) (l : list cell) :
  (List.length (trailing window i l) <= List.length l)%nat.
Proof.
  unfold trailing. rewrite length_skipn, length_firstn. lia.
Qed.

(** Fewer cells than the window: no position has enough observations. *)
Lemma rolling_std_short (window : nat) (s : Series cell) :
  (List.length s < window)%nat -> all_nan (rolling_std window s).
Proof.
  intros Hshort. unfold all_nan, rolling_std.
  apply Forall_forall. intros e He.
  apply in_map_iff in He. destruct He as (i & <- & _). simpl.
  assert (H1 := length_observations (trailing window i (map snd s))).
  assert (H2 := length_trailing window i (map snd s)).
  rewrite length_map in H2.
  destruct (Nat.ltb_spec
              (List.length (observations (trailing window i (map snd s))))
              window) as [_ | Hge]; [reflexivity | lia].
Qed.

Lemma scale_all_nan (k : R) (s : Series cell) :
  all_nan s -> all_nan (scale k s).
Proof.
  unfold all_nan, scale. intros H.
  apply Forall_map. apply (Forall_impl _ (P := fun e => snd e = NaN));
    [| exact H].
  intros e He. simpl. rewrite He. reflexivity.
Qed.

Lemma last_valid_all_nan (bin : list cell) :
  Forall (fun c => c = NaN) bin -> last_valid bin = NaN.
Proof.
  unfold last_valid. induction 1 as [| c bin Hc _ IH]; simpl.
  - reflexivity.
  - subst c. simpl. exact IH.
Qed.

Lemma bin_all_nan (f : Timestamp * cell -> bool) (s : Series cell) :
  all_nan s -> last_valid (map snd (filter f s)) = NaN.
Proof.
  intros H. apply last_valid_all_nan.
  apply Forall_map, Forall_forall. intros e He.
  apply filter_In in He. destruct He as [He _].
  exact (proj1 (Forall_forall _ _) H e He).
Qed.

Lemma resample_all_nan (s : Series cell) :
  all_nan s -> all_nan (resample_M_last s).
Proof.
  intros H.
  destruct s as [| [first c] rest]; [constructor |].
  unfold resample_M_last, all_nan.
  apply Forall_map, Forall_forall. intros k _.
  exact (bin_all_nan _ _ H).
Qed.

Lemma fold_min_le (a : Z) (l : list Z) : (fold_right Z.min a l <= a)%Z.
Proof. induction l as [| b l IH]; simpl; lia. Qed.

Lemma fold_max_ge (a : Z) (l : list Z) : (a <= fold_right Z.max a l)%Z.
Proof. induction l as [| b l IH]; simpl; lia. Qed.

(** The monthly series has a bin as soon as there is one sample. *)
Lemma resample_empty_iff (s : Series cell) :
  resample_M_last s = [] <-> s = [].
Proof.
  split; [| intros ->; reflexivity].
  destruct s as [| [first c] rest]; [reflexivity |].
  unfold resample_M_last. intros H. exfalso.
  apply (f_equal (@List.length _)) in H.
  rewrite length_map, length_seq in H. simpl in H.
  set (months := map (fun e => month_index (fst e)) rest) in H.
  assert (H1 := fold_min_le (month_index first) months).
  assert (H2 := fold_max_ge (month_index first) months).
  lia.
Qed.

Lemma rolling_volatility_empty_iff (v : t) :
  rolling_volatility v = [] <-> daily_returns v = [].
Proof.
  unfold rolling_volatility, scale, rolling_std.
  split; intros H.
  - apply (f_equal (@List.length _)) in H.
    rewrite !length_map, length_seq in H. simpl in H.
    apply length_zero_iff_nil. exact H.
  - rewrite H. reflexivity.
Qed.

End VolatilityFacts.

(** ** More on the pricer: the other Greeks, parities, overrides *)

Module OverrideFacts.

Import Option.
Import Spec(days, spot, vol, kind_of, pricing_calls).

(** What [_calculate_d1_d2] returns or raises does not depend on [self]. *)
Lemma calculate_d1_d2_result (S K T r q sigma : R) :
  exists res : result (R * R),
    forall self : t, _calculate_d1_d2 S K T r q sigma self = (self, res).
Proof.
  cbv beta iota zeta delta [_calculate_d1_d2 mbind lift ret math_exp].
  repeat match goal with
         | |- context [match ?x with Ok _ => _ | Raise _ => _ end] =>
             destruct x
         end;
    eexists; intros; reflexivity.
Qed.

(** A call with overrides is the call without overrides on the instrument
    with the overridden attributes replaced. *)
Lemma call_with_overrides m us ut uv (o : t) :
  In m pricing_calls ->
  call (m us ut uv) o = call (m None None None) (Greeks.with_overrides us ut uv o).
Proof.
  unfold pricing_calls. simpl.
  destruct (calculate_d1_d2_result (spot us o) (strike_price o)
              (Spec.T (days ut o)) (interest_rate o) (dividend_yield o)
              (vol uv o)) as [res Hres].
  intros [<- | [<- | [<- | [<- | [<- | []]]]]]; unfold call;
    [ unfold black_scholes | unfold delta | unfold gamma | unfold vega
    | unfold theta ];
    unfold mbind; rewrite !OptionFacts.locals_run; simpl;
    rewrite !Hres; destruct res as [[D1 D2] | e]; try reflexivity;
    unfold getattr, lift, ret;
    change (option_type (Greeks.with_overrides us ut uv o))
      with (option_type o);
    repeat match goal with
           | |- context [if ?b then _ else _] => destruct b
           | |- context [match ?x with Ok _ => _ | Raise _ => _ end] =>
               destruct x
           end;
    reflexivity.
Qed.

(** A non-positive underlying price: [math.log] raises. *)
Lemma calculate_d1_d2_nonpositive_S (S K T r q sigma : R) (self : t) :
  S <= 0 -> 0 < K ->
  _calculate_d1_d2 S K T r q sigma self =
  (self, Raise (ValueError "math domain error")).
Proof.
  intros HS HK.
  unfold _calculate_d1_d2, mbind, lift, ret, math_exp. cbn.
  assert (Hden : 0 < K * exp (- r * T))
    by (apply Rmult_lt_0_compat; [exact HK | apply exp_pos]).
  rewrite div_ok by (apply Rgt_not_eq, Hden).
  rewrite math_log_domain; [reflexivity |].
  assert (Hnum : S * exp (- q * T) <= 0).
  { assert (He := exp_pos (- q * T)). nra. }
  unfold Rdiv. assert (Hinv := Rinv_0_lt_compat _ Hden). nra.
Qed.

End OverrideFacts.

(** X1: on a valid instrument [delta()] returns [e^(-qT) N(d1)] for a Call
    and [e^(-qT) (N(d1) - 1)] for a Put. *)
Theorem X1_delta_formula (o : Option.t) :
  0 < Option.underlying_price o ->
  0 < Option.strike_price o ->
  (0 < Option.time_to_maturity o)%Z ->
  0 < Option.implied_volatility o ->
  let S := Option.underlying_price o in
  let K := Option.strike_price o in
  let r := Option.interest_rate o in
  let q := Option.dividend_yield o in
  let sigma := Option.implied_volatility o in
  let T := IZR (Option.time_to_maturity o) / 365 in
  let d1 := (ln (S * exp (- q * T) / (K * exp (- r * T)))
             + 0.5 * sigma ^ 2 * T) / (sigma * sqrt T) in
  (Option.option_type o = "Call"%string ->
   Option.call (Option.delta None None None) o = Ok (exp (- q * T) * Phi d1))
  /\
  (Option.option_type o = "Put"%string ->
   Option.call (Option.delta None None None) o
   = Ok (exp (- q * T) * (Phi d1 - 1))).
Proof.
  intros HS HK HT Hsigma. cbv zeta. unfold Option.call.
  rewrite OptionFacts.delta_run by (simpl; auto using Rgt_not_eq).
  unfold Spec.kind_of.
  split; intros Hty; rewrite Hty; reflexivity.
Qed.

Lemma X1_delta_formula_witness :
  0 < 100 /\ 0 < 110 /\ (0 < 30)%Z /\ 0 < 0.2 /\
  Option.call (Option.delta None None None) Spec.example_call
  = Ok (Spec.delta Spec.Call 100 110 0.05 0.02 (Spec.T 30) 0.2).
Proof.
  assert (H1 : 0 < 100) by lra.
  assert (H2 : 0 < 110) by lra.
  assert (H3 : (0 < 30)%Z) by lia.
  assert (H4 : 0 < 0.2) by lra.
  refine (conj H1 (conj H2 (conj H3 (conj H4 _)))).
  exact (proj1 (X1_delta_formula Spec.example_call H1 H2 H3 H4) eq_refl).
Defined.

(** X2: on a valid instrument [theta()] returns, per calendar day,
    [(-S n(d1) sigma e^(-qT) / (2 sqrt T) + q S N(d1) e^(-qT)
      - r K e^(-rT) N(d2)) / 365] for a Call and
    [(-S n(d1) sigma e^(-qT) / (2 sqrt T) - q S N(-d1) e^(-qT)
      + r K e^(-rT) N(-d2)) / 365] for a Put. *)
Theorem X2_theta_formula (o : Option.t) :
  0 < Option.underlying_price o ->
  0 < Option.strike_price o ->
  (0 < Option.time_to_maturity o)%Z ->
  0 < Option.implied_volatility o ->
  let S := Option.underlying_price o in
  let K := Option.strike_price o in
  let r := Option.interest_rate o in
  let q := Option.dividend_yield o in
  let sigma := Option.implied_volatility o in
  let T := IZR (Option.time_to_maturity o) / 365 in
  let d1 := (ln (S * exp (- q * T) / (K * exp (- r * T)))
             + 0.5 * sigma ^ 2 * T) / (sigma * sqrt T) in
  let d2 := d1 - sigma * sqrt T in
  (Option.option_type o = "Call"%string ->
   Option.call (Option.theta None None None) o
   = Ok ((- S * phi d1 * sigma * exp (- q * T) / (2 * sqrt T)
          + q * S * Phi d1 * exp (- q * T)
          - r * K * exp (- r * T) * Phi d2) / 365))
  /\
  (Option.option_type o = "Put"%string ->
   Option.call (Option.theta None None None) o
   = Ok ((- S * phi d1 * sigma * exp (- q * T) / (2 * sqrt T)
          - q * S * Phi (- d1) * exp (- q * T)
          + r * K * exp (- r * T) * Phi (- d2)) / 365)).
Proof.
  intros HS HK HT Hsigma. cbv zeta. unfold Option.call.
  rewrite OptionFacts.theta_run by (simpl; auto using Rgt_not_eq).
  unfold Spec.kind_of.
  split; intros Hty; rewrite Hty; reflexivity.
Qed.

Lemma X2_theta_formula_witness :
  0 < 100 /\ 0 < 110 /\ (0 < 30)%Z /\ 0 < 0.2 /\
  Option.call (Option.theta None None None) Spec.example_call
  = Ok (Spec.theta Spec.Call 100 110 0.05 0.02 (Spec.T 30) 0.2).
Proof.
  assert (H1 : 0 < 100) by lra.
  assert (H2 : 0 < 110) by lra.
  assert (H3 : (0 < 30)%Z) by lia.
  assert (H4 : 0 < 0.2) by lra.
  refine (conj H1 (conj H2 (conj H3 (conj H4 _)))).
  exact (proj1 (X2_theta_formula Spec.example_call H1 H2 H3 H4) eq_refl).
Defined.

(** X3: the delta of a Call exceeds the delta of the Put with the same
    parameters by exactly [e^(-qT)]. *)
Theorem X3_delta_parity (S K r q : R) (days : Z) (sigma : R) :
  0 < S -> 0 < K -> (0 < days)%Z -> 0 < sigma ->
  exists c p : R,
    Option.call (Option.delta None None None)
                (Option.mk "Call" S K r q days sigma) = Ok c
    /\ Option.call (Option.delta None None None)
                   (Option.mk "Put" S K r q days sigma) = Ok p
    /\ c - p = exp (- q * (IZR days / 365)).
Proof.
  intros HS HK HT Hsigma.
  eexists. eexists. unfold Option.call.
  rewrite !OptionFacts.delta_run by (simpl; auto using Rgt_not_eq).
  split; [reflexivity | split; [reflexivity |]].
  simpl. unfold Spec.T. ring.
Qed.

Lemma X3_delta_parity_witness :
  0 < 100 /\ 0 < 110 /\ (0 < 30)%Z /\ 0 < 0.2 /\
  exists c p : R,
    Option.call (Option.delta None None None)
                (Option.mk "Call" 100 110 0.05 0.02 30 0.2) = Ok c
    /\ Option.call (Option.delta None None None)
                   (Option.mk "Put" 100 110 0.05 0.02 30 0.2) = Ok p
    /\ c - p = exp (- (0.02) * (30 / 365)).
Proof.
  assert (H1 : 0 < 100) by lra.
  assert (H2 : 0 < 110) by lra.
  assert (H3 : (0 < 30)%Z) by lia.
  assert (H4 : 0 < 0.2) by lra.
  refine (conj H1 (conj H2 (conj H3 (conj H4 _)))).
  exact (X3_delta_parity 100 110 0.05 0.02 30 0.2 H1 H2 H3 H4).
Defined.

(** X4: the theta of a Call minus the theta of the Put with the same
    parameters is [(q S e^(-qT) - r K e^(-rT)) / 365]: the time decay of
    the parity relation, per calendar day. *)
Theorem X4_theta_parity (S K r q : R) (days : Z) (sigma : R) :
  0 < S -> 0 < K -> (0 < days)%Z -> 0 < sigma ->
  let T := IZR days / 365 in
  exists c p : R,
    Option.call (Option.theta None None None)
                (Option.mk "Call" S K r q days sigma) = Ok c
    /\ Option.call (Option.theta None None None)
                   (Option.mk "Put" S K r q days sigma) = Ok p
    /\ c - p = (q * S * exp (- q * T) - r * K * exp (- r * T)) / 365.
Proof.
  intros HS HK HT Hsigma T.
  eexists. eexists. unfold Option.call.
  rewrite !OptionFacts.theta_run by (simpl; auto using Rgt_not_eq).
  split; [reflexivity | split; [reflexivity |]].
  simpl.
  set (d1 := Spec.d1 S K r q (Spec.T days) sigma).
  set (d2 := Spec.d2 S K r q (Spec.T days) sigma).
  unfold Spec.T. fold T.
  assert (H1 := Phi_symmetric d1).
  assert (H2 := Phi_symmetric d2).
  replace (Phi (- d1)) with (1 - Phi d1) by lra.
  replace (Phi (- d2)) with (1 - Phi d2) by lra.
  field.
  apply Rgt_not_eq, sqrt_lt_R0. exact (OptionFacts.T_pos days HT).
Qed.

Lemma X4_theta_parity_witness :
  0 < 100 /\ 0 < 110 /\ (0 < 30)%Z /\ 0 < 0.2 /\
  exists c p : R,
    Option.call (Option.theta None None None)
                (Option.mk "Call" 100 110 0.05 0.02 30 0.2) = Ok c
    /\ Option.call (Option.theta None None None)
                   (Option.mk "Put" 100 110 0.05 0.02 30 0.2) = Ok p
    /\ c - p = (0.02 * 100 * exp (- (0.02) * (30 / 365))
                - 0.05 * 110 * exp (- (0.05) * (30 / 365))) / 365.
Proof.
  assert (H1 : 0 < 100) by lra.
  assert (H2 : 0 < 110) by lra.
  assert (H3 : (0 < 30)%Z) by lia.
  assert (H4 : 0 < 0.2) by lra.
  refine (conj H1 (conj H2 (conj H3 (conj H4 _)))).
  exact (X4_theta_parity 100 110 0.05 0.02 30 0.2 H1 H2 H3 H4).
Defined.

(** X5: a pricing call with overrides returns (or raises) exactly what the
    same call without overrides returns (or raises) on the instrument whose
    underlying price, time to maturity and volatility are the overridden
    ones. *)
Theorem X5_overrides_reprice
    (o : Option.t) (us : option R) (ut : option Z) (uv : option R) :
  let o' := Greeks.with_overrides us ut uv o in
  Option.call (Option.black_scholes us ut uv) o
  = Option.call (Option.black_scholes None None None) o'
  /\ Option.call (Option.delta us ut uv) o
     = Option.call (Option.delta None None None) o'
  /\ Option.call (Option.gamma us ut uv) o
     = Option.call (Option.gamma None None None) o'
  /\ Option.call (Option.vega us ut uv) o
     = Option.call (Option.vega None None None) o'
  /\ Option.call (Option.theta us ut uv) o
     = Option.call (Option.theta None None None) o'.
Proof.
  cbv zeta. unfold Spec.pricing_calls.
  repeat split; apply OverrideFacts.call_with_overrides; simpl; tauto.
Qed.

(** X6: when the underlying price a pricing call works with is [<= 0] (the
    strike being positive), the call raises the [ValueError] of [math.log],
    whatever the time to maturity and the volatility. *)
Theorem X6_nonpositive_spot_raises
    (m : option R -> option Z -> option R -> Option.method R)
    (o : Option.t) (us : option R) (ut : option Z) (uv : option R) :
  In m Spec.pricing_calls ->
  0 < Option.strike_price o ->
  Spec.spot us o <= 0 ->
  Option.call (m us ut uv) o = Raise (ValueError "math domain error").
Proof.
  intros Hm HK HS.
  apply OptionFailures.pricing_call_propagates; [exact Hm |].
  apply OverrideFacts.calculate_d1_d2_nonpositive_S; assumption.
Qed.

Lemma X6_nonpositive_spot_raises_witness :
  In Option.delta Spec.pricing_calls
  /\ 0 < Option.strike_price Spec.example_call
  /\ Spec.spot (Some 0) Spec.example_call <= 0
  /\ Option.call (Option.delta (Some 0) None None) Spec.example_call
     = Raise (ValueError "math domain error").
Proof.
  assert (Hm : In Option.delta Spec.pricing_calls)
    by (right; left; reflexivity).
  assert (HK : 0 < Option.strike_price Spec.example_call) by (simpl; lra).
  assert (HS : Spec.spot (Some 0) Spec.example_call <= 0) by (simpl; lra).
  refine (conj Hm (conj HK (conj HS _))).
  exact (X6_nonpositive_spot_raises Option.delta Spec.example_call
           (Some 0) None None Hm HK HS).
Defined.

(** X7: on a valid instrument the two kind-independent Greeks are tied by
    [vega = gamma * S^2 * sigma * T * 0.01]. *)
Theorem X7_vega_from_gamma (o : Option.t) :
  Spec.valid o ->
  exists g v : R,
    Option.call (Option.gamma None None None) o = Ok g
    /\ Option.call (Option.vega None None None) o = Ok v
    /\ v = g * Option.underlying_price o ^ 2 * Option.implied_volatility o
           * (IZR (Option.time_to_maturity o) / 365) * 0.01.
Proof.
  intros Hv.
  destruct (PortfolioFacts.valid_domain o Hv) as (HS & HK & HT & Hs).
  simpl in HS, HT, Hs.
  eexists. eexists. unfold Option.call.
  rewrite OptionFacts.gamma_run, OptionFacts.vega_run by assumption.
  split; [reflexivity | split; [reflexivity |]].
  simpl. unfold Spec.gamma, Spec.vega.
  set (T := Spec.T (Option.time_to_maturity o)).
  assert (HTpos : 0 < T) by (apply OptionFacts.T_pos; exact HT).
  assert (Hsq : sqrt T * sqrt T = T) by (apply sqrt_sqrt; lra).
  assert (Hsqpos : 0 < sqrt T) by (apply sqrt_lt_R0; exact HTpos).
  fold (Spec.T (Option.time_to_maturity o)). fold T.
  set (n := phi _). set (e := exp _). set (s := sqrt T) in *.
  rewrite <- Hsq.
  field. repeat split; try assumption; apply Rgt_not_eq; assumption.
Qed.

Lemma X7_vega_from_gamma_witness :
  Spec.valid Spec.example_call
  /\ exists g v : R,
       Option.call (Option.gamma None None None) Spec.example_call = Ok g
       /\ Option.call (Option.vega None None None) Spec.example_call = Ok v
       /\ v = g * 100 ^ 2 * 0.2 * (30 / 365) * 0.01.
Proof.
  refine (conj example_call_valid _).
  exact (X7_vega_from_gamma Spec.example_call example_call_valid).
Defined.

(** ** More on the aggregator: the other totals, appended entries, a
    failing entry *)

Module TotalsFacts.

Import Portfolio.

Lemma call_gamma (o : Option.t) :
  Spec.valid o ->
  Option.call (Option.gamma None None None) o = Ok (Greeks.gamma_of o).
Proof.
  intros Hv. destruct (PortfolioFacts.valid_domain o Hv) as (HS & HK & HT & Hs).
  unfold Option.call. rewrite OptionFacts.gamma_run by assumption.
  reflexivity.
Qed.

Lemma call_vega (o : Option.t) :
  Spec.valid o ->
  Option.call (Option.vega None None None) o = Ok (Greeks.vega_of o).
Proof.
  intros Hv. destruct (PortfolioFacts.valid_domain o Hv) as (HS & HK & HT & Hs).
  unfold Option.call. rewrite OptionFacts.vega_run by assumption.
  reflexivity.
Qed.

Lemma call_theta (o : Option.t) :
  Spec.valid o ->
  Option.call (Option.theta None None None) o = Ok (Greeks.theta_of o).
Proof.
  intros Hv. destruct (PortfolioFacts.valid_domain o Hv) as (HS & HK & HT & Hs).
  unfold Option.call. rewrite OptionFacts.theta_run by assumption.
  reflexivity.
Qed.

Section Returns.

Variable p : t.
Hypothesis value_nonzero : portfolio_value p <> 0.
Hypothesis entries_valid : Spec.valid_entries p.

Lemma valid_in (e : entry Option.t) :
  In e (options p) -> Spec.valid (instrument e).
Proof. exact (proj1 (Forall_forall _ _) entries_valid e). Qed.

Lemma delta_returns : delta p = Ok (Spec.totalDelta p).
Proof.
  unfold delta.
  rewrite (PortfolioFacts.for_each_np_returns _ (Spec.option_delta_term p)).
  - simpl.
    rewrite (PortfolioFacts.for_each_np_returns
               _ (Spec.forward_delta_term p)).
    + unfold Spec.totalDelta, Spec.sum_over.
      rewrite PortfolioFacts.fold_left_from. reflexivity.
    + intros e _. rewrite div_ok by exact value_nonzero. reflexivity.
  - intros e He. rewrite PortfolioFacts.call_delta by exact (valid_in e He).
    simpl. rewrite PortfolioFacts.np_div_ok by exact value_nonzero.
    reflexivity.
Qed.

Lemma gamma_returns : gamma p = Ok (Totals.totalGamma p).
Proof.
  unfold gamma, Totals.totalGamma, Spec.sum_over.
  apply PortfolioFacts.for_each_returns. intros e He.
  rewrite call_gamma by exact (valid_in e He). simpl.
  rewrite div_ok by lra. simpl.
  rewrite div_ok by exact value_nonzero. reflexivity.
Qed.

Lemma vega_returns : vega p = Ok (Totals.totalVega p).
Proof.
  unfold vega, Totals.totalVega, Spec.sum_over.
  apply PortfolioFacts.for_each_returns. intros e He.
  rewrite call_vega by exact (valid_in e He). simpl.
  rewrite div_ok by exact value_nonzero. reflexivity.
Qed.

Lemma theta_returns : theta p = Ok (Totals.totalTheta p).
Proof.
  unfold theta, Totals.totalTheta, Spec.sum_over.
  apply (PortfolioFacts.for_each_np_returns _ (Totals.theta_term p)).
  intros e He.
  rewrite call_theta by exact (valid_in e He). simpl.
  rewrite PortfolioFacts.np_div_ok by exact value_nonzero. reflexivity.
Qed.

End Returns.

Lemma sum_over_app {A : Type} (term : A -> R) (l : list A) (e : A) :
  Spec.sum_over term (l ++ [e]) = Spec.sum_over term l + term e.
Proof. unfold Spec.sum_over. rewrite fold_left_app. reflexivity. Qed.

Lemma valid_entries_add_option (p : t) (o : Option.t) (q c : R) :
  Spec.valid_entries p -> Spec.valid o ->
  Spec.valid_entries (add_option p o q c).
Proof.
  intros Hp Ho. unfold Spec.valid_entries, add_option. simpl.
  apply Forall_app. split; [exact Hp |].
  apply Forall_cons; [exact Ho | apply Forall_nil].
Qed.

(** The loop stops at the first entry whose body raises. *)
Lemma for_each_raises_after {A : Type} (body : A -> result R) (term : A -> R)
    (pre : list A) (e : A) (post : list A) (total : R) (x : exn) :
  (forall e', In e' pre -> body e' = Ok (term e')) ->
  body e = Raise x ->
  for_each body (pre ++ e :: post) total = Raise x.
Proof.
  revert total. induction pre as [| e' pre IH]; intros total Hpre He; simpl.
  - rewrite He. reflexivity.
  - rewrite (Hpre e') by (left; reflexivity). simpl.
    apply IH; [| exact He]. intros e'' H. apply Hpre. right. exact H.
Qed.

Lemma for_each_np_raises_after {A : Type} (body : A -> result Np.float64)
    (term : A -> R) (pre : list A) (e : A) (post : list A) (total : R)
    (x : exn) :
  (forall e', In e' pre -> body e' = Ok (Np.Finite (term e'))) ->
  body e = Raise x ->
  for_each_np body (pre ++ e :: post) (Np.Finite total) = Raise x.
Proof.
  revert total. induction pre as [| e' pre IH]; intros total Hpre He; simpl.
  - rewrite He. reflexivity.
  - rewrite (Hpre e') by (left; reflexivity). simpl.
    apply IH; [| exact He]. intros e'' H. apply Hpre. right. exact H.
Qed.

End TotalsFacts.

(** X8: for every portfolio with a nonzero [portfolio_value] whose option
    entries are valid instruments, [gamma()] returns the sum over the
    option entries, in list order, of
    [gamma() * quantity * contract_size * underlying_price^2 / 100
     / portfolio_value]. *)
Theorem X8_total_gamma (p : Portfolio.t) :
  Portfolio.portfolio_value p <> 0 ->
  Spec.valid_entries p ->
  Portfolio.gamma p
  = Ok (fold_left
          (fun acc e =>
             acc + Greeks.gamma_of (Portfolio.instrument e)
                   * Portfolio.quantity e * Portfolio.contract_size e
                   * Option.underlying_price (Portfolio.instrument e) ^ 2
                   / 100 / Portfolio.portfolio_value p)
          (Portfolio.options p) 0).
Proof.
  intros Hpv Hv. rewrite TotalsFacts.gamma_returns by assumption.
  reflexivity.
Qed.

Lemma X8_total_gamma_witness :
  Portfolio.portfolio_value Spec.example_book <> 0
  /\ Spec.valid_entries Spec.example_book
  /\ Portfolio.gamma Spec.example_book
     = Ok (0 + Greeks.gamma_of Spec.example_call * 100 * 1 * 100 ^ 2
               / 100 / 1000000).
Proof.
  assert (Hpv : Portfolio.portfolio_value Spec.example_book <> 0)
    by (simpl; lra).
  assert (Hv : Spec.valid_entries Spec.example_book)
    by (apply Forall_cons; [exact example_call_valid | apply Forall_nil]).
  refine (conj Hpv (conj Hv _)).
  exact (X8_total_gamma Spec.example_book Hpv Hv).
Defined.

(** X9: under the same conditions [vega()] returns the sum over the option
    entries of [vega() * quantity * contract_size * 10000
    / portfolio_value]. *)
Theorem X9_total_vega (p : Portfolio.t) :
  Portfolio.portfolio_value p <> 0 ->
  Spec.valid_entries p ->
  Portfolio.vega p
  = Ok (fold_left
          (fun acc e =>
             acc + Greeks.vega_of (Portfolio.instrument e)
                   * Portfolio.quantity e * Portfolio.contract_size e
                   * 10000 / Portfolio.portfolio_value p)
          (Portfolio.options p) 0).
Proof.
  intros Hpv Hv. rewrite TotalsFacts.vega_returns by assumption.
  reflexivity.
Qed.

Lemma X9_total_vega_witness :
  Portfolio.portfolio_value Spec.example_book <> 0
  /\ Spec.valid_entries Spec.example_book
  /\ Portfolio.vega Spec.example_book
     = Ok (0 + Greeks.vega_of Spec.example_call * 100 * 1 * 10000 / 1000000).
Proof.
  assert (Hpv : Portfolio.portfolio_value Spec.example_book <> 0)
    by (simpl; lra).
  assert (Hv : Spec.valid_entries Spec.example_book)
    by (apply Forall_cons; [exact example_call_valid | apply Forall_nil]).
  refine (conj Hpv (conj Hv _)).
  exact (X9_total_vega Spec.example_book Hpv Hv).
Defined.

(** X10: under the same conditions [theta()] returns the sum over the
    option entries of [theta() * quantity * contract_size * 10000
    / portfolio_value]. *)
Theorem X10_total_theta (p : Portfolio.t) :
  Portfolio.portfolio_value p <> 0 ->
  Spec.valid_entries p ->
  Portfolio.theta p
  = Ok (fold_left
          (fun acc e =>
             acc + Greeks.theta_of (Portfolio.instrument e)
                   * Portfolio.quantity e * Portfolio.contract_size e
                   * 10000 / Portfolio.portfolio_value p)
          (Portfolio.options p) 0).
Proof.
  intros Hpv Hv. rewrite TotalsFacts.theta_returns by assumption.
  reflexivity.
Qed.

Lemma X10_total_theta_witness :
  Portfolio.portfolio_value Spec.example_book <> 0
  /\ Spec.valid_entries Spec.example_book
  /\ Portfolio.theta Spec.example_book
     = Ok (0 + Greeks.theta_of Spec.example_call * 100 * 1 * 10000 / 1000000).
Proof.
  assert (Hpv : Portfolio.portfolio_value Spec.example_book <> 0)
    by (simpl; lra).
  assert (Hv : Spec.valid_entries Spec.example_book)
    by (apply Forall_cons; [exact example_call_valid | apply Forall_nil]).
  refine (conj Hpv (conj Hv _)).
  exact (X10_total_theta Spec.example_book Hpv Hv).
Defined.

Module AppendFacts.

Import Portfolio.

Local Open Scope py_scope.

(** A loop over [l ++ [e]] is the loop over [l] followed by one more turn of
    the body. *)
Lemma for_each_snoc {A : Type} (body : A -> result R) (l : list A) (e : A)
    (total : R) :
  for_each body (l ++ [e]) total
  = (t <- for_each body l total ;; x <- body e ;; Ok (t + x)).
Proof.
  revert total. induction l as [| e' l IH]; intros total; simpl.
  - destruct (body e); reflexivity.
  - destruct (body e') as [x' | err]; simpl; [apply IH | reflexivity].
Qed.

Lemma for_each_np_snoc {A : Type} (body : A -> result Np.float64)
    (l : list A) (e : A) (total : Np.float64) :
  for_each_np body (l ++ [e]) total
  = (t <- for_each_np body l total ;; x <- body e ;; Ok (Np.add t x)).
Proof.
  revert total. induction l as [| e' l IH]; intros total; simpl.
  - destruct (body e); reflexivity.
  - destruct (body e') as [x' | err]; simpl; [apply IH | reflexivity].
Qed.

Section AddOption.

Variables (p : t) (o : Option.t) (q c : R).
Hypothesis value_nonzero : portfolio_value p <> 0.
Hypothesis entries_valid : Spec.valid_entries p.
Hypothesis option_valid : Spec.valid o.

Let p' := add_option p o q c.

Let value_nonzero' : portfolio_value p' <> 0 := value_nonzero.

Let entries_valid' : Spec.valid_entries p' :=
  TotalsFacts.valid_entries_add_option p o q c entries_valid option_valid.

Lemma premium_add_option :
  total_premium_amount p'
  = Ok (Spec.totalPremium p + Spec.price_of o * q * c).
Proof.
  rewrite PortfolioFacts.total_premium_amount_returns by exact entries_valid'.
  unfold Spec.totalPremium, p', add_option. simpl.
  rewrite TotalsFacts.sum_over_app. reflexivity.
Qed.

Lemma delta_add_option :
  delta p'
  = Ok (Spec.totalDelta p
        + Spec.delta_of o * q * c * Option.underlying_price o
          / portfolio_value p).
Proof.
  rewrite TotalsFacts.delta_returns by assumption.
  unfold Spec.totalDelta, p', add_option. simpl.
  change (Spec.option_delta_term
            {| portfolio_value := portfolio_value p;
               options := options p ++ [mk_entry o q c];
               forwards := forwards p |})
    with (Spec.option_delta_term p).
  change (Spec.forward_delta_term
            {| portfolio_value := portfolio_value p;
               options := options p ++ [mk_entry o q c];
               forwards := forwards p |})
    with (Spec.forward_delta_term p).
  rewrite TotalsFacts.sum_over_app. unfold Spec.option_delta_term at 2.
  simpl. do 2 f_equal. ring.
Qed.

Lemma gamma_add_option :
  gamma p'
  = Ok (Totals.totalGamma p
        + Greeks.gamma_of o * q * c * Option.underlying_price o ^ 2
          / 100 / portfolio_value p).
Proof.
  rewrite TotalsFacts.gamma_returns by assumption.
  unfold Totals.totalGamma, p', add_option. simpl options.
  change (Totals.gamma_term
            {| portfolio_value := portfolio_value p;
               options := options p ++ [mk_entry o q c];
               forwards := forwards p |})
    with (Totals.gamma_term p).
  rewrite TotalsFacts.sum_over_app. reflexivity.
Qed.

Lemma vega_add_option :
  vega p'
  = Ok (Totals.totalVega p
        + Greeks.vega_of o * q * c * 10000 / portfolio_value p).
Proof.
  rewrite TotalsFacts.vega_returns by assumption.
  unfold Totals.totalVega, p', add_option. simpl options.
  change (Totals.vega_term
            {| portfolio_value := portfolio_value p;
               options := options p ++ [mk_entry o q c];
               forwards := forwards p |})
    with (Totals.vega_term p).
  rewrite TotalsFacts.sum_over_app. reflexivity.
Qed.

Lemma theta_add_option :
  theta p'
  = Ok (Totals.totalTheta p
        + Greeks.theta_of o * q * c * 10000 / portfolio_value p).
Proof.
  rewrite TotalsFacts.theta_returns by assumption.
  unfold Totals.totalTheta, p', add_option. simpl options.
  change (Totals.theta_term
            {| portfolio_value := portfolio_value p;
               options := options p ++ [mk_entry o q c];
               forwards := forwards p |})
    with (Totals.theta_term p).
  rewrite TotalsFacts.sum_over_app. reflexivity.
Qed.

End AddOption.

End AppendFacts.

(** X11: whatever the [portfolio_value] (zero included), on valid option
    entries [total_premium_amount()] returns the sum, in list order, of
    [price() * quantity * contract_size]; what it returns or raises depends
    neither on [portfolio_value] nor on the forward entries. *)
Theorem X11_total_premium (p : Portfolio.t) :
  (Spec.valid_entries p ->
   Portfolio.total_premium_amount p
   = Ok (fold_left
           (fun acc e =>
              acc + Spec.price_of (Portfolio.instrument e)
                    * Portfolio.quantity e * Portfolio.contract_size e)
           (Portfolio.options p) 0))
  /\ (forall (portfolio_value : R)
             (forwards : list (Portfolio.entry Forward.t)),
        Portfolio.total_premium_amount
          (Portfolio.mk portfolio_value (Portfolio.options p) forwards)
        = Portfolio.total_premium_amount p).
Proof.
  split.
  - intros Hv. rewrite PortfolioFacts.total_premium_amount_returns by exact Hv.
    reflexivity.
  - intros pv fwds. reflexivity.
Qed.

(** X12: appending a forward entry changes nothing in what
    [total_premium_amount()], [gamma()], [vega()] and [theta()] return or
    raise; when [delta()] returned [d] and [portfolio_value] is not zero,
    it now returns [d + quantity * contract_size * underlying_price
    / portfolio_value]. *)
Theorem X12_add_forward
    (p : Portfolio.t) (f : Forward.t) (q c : R) :
  let p' := Portfolio.add_forward p f q c in
  Portfolio.total_premium_amount p' = Portfolio.total_premium_amount p
  /\ Portfolio.gamma p' = Portfolio.gamma p
  /\ Portfolio.vega p' = Portfolio.vega p
  /\ Portfolio.theta p' = Portfolio.theta p
  /\ (Portfolio.portfolio_value p <> 0 ->
      forall d : R,
        Portfolio.delta p = Ok d ->
        Portfolio.delta p'
        = Ok (d + q * c * Forward.underlying_price f
                  / Portfolio.portfolio_value p)).
Proof.
  cbv zeta. repeat (split; [reflexivity |]).
  intros Hpv d Hd. unfold Portfolio.delta in *.
  unfold Portfolio.add_forward. simpl.
  destruct (Portfolio.for_each_np _ (Portfolio.options p) (Np.Finite 0))
    as [t | e]; simpl in *; [| discriminate].
  rewrite AppendFacts.for_each_np_snoc, Hd. simpl.
  rewrite div_ok by exact Hpv. reflexivity.
Qed.

(** X13: appending a valid option entry to a portfolio of valid entries
    and nonzero value adds exactly the term of that entry to each of the
    five totals. *)
Theorem X13_add_option
    (p : Portfolio.t) (o : Option.t) (q c : R) :
  Portfolio.portfolio_value p <> 0 ->
  Spec.valid_entries p ->
  Spec.valid o ->
  let p' := Portfolio.add_option p o q c in
  let pv := Portfolio.portfolio_value p in
  exists premium d g v th : R,
    (Portfolio.total_premium_amount p = Ok premium
     /\ Portfolio.total_premium_amount p'
        = Ok (premium + Spec.price_of o * q * c))
    /\ (Portfolio.delta p = Ok d
        /\ Portfolio.delta p'
           = Ok (d + Spec.delta_of o * q * c * Option.underlying_price o / pv))
    /\ (Portfolio.gamma p = Ok g
        /\ Portfolio.gamma p'
           = Ok (g + Greeks.gamma_of o * q * c
                     * Option.underlying_price o ^ 2 / 100 / pv))
    /\ (Portfolio.vega p = Ok v
        /\ Portfolio.vega p' = Ok (v + Greeks.vega_of o * q * c * 10000 / pv))
    /\ (Portfolio.theta p = Ok th
        /\ Portfolio.theta p'
           = Ok (th + Greeks.theta_of o * q * c * 10000 / pv)).
Proof.
  intros Hpv Hv Ho. cbv zeta.
  exists (Spec.totalPremium p), (Spec.totalDelta p), (Totals.totalGamma p),
         (Totals.totalVega p), (Totals.totalTheta p).
  repeat split.
  - apply PortfolioFacts.total_premium_amount_returns. exact Hv.
  - apply AppendFacts.premium_add_option; assumption.
  - apply TotalsFacts.delta_returns; assumption.
  - apply AppendFacts.delta_add_option; assumption.
  - apply TotalsFacts.gamma_returns; assumption.
  - apply AppendFacts.gamma_add_option; assumption.
  - apply TotalsFacts.vega_returns; assumption.
  - apply AppendFacts.vega_add_option; assumption.
  - apply TotalsFacts.theta_returns; assumption.
  - apply AppendFacts.theta_add_option; assumption.
Qed.

Lemma empty_book_valid : Spec.valid_entries (Portfolio.__init__ 1000000).
Proof. apply Forall_nil. Qed.

Lemma X13_add_option_witness :
  Portfolio.portfolio_value (Portfolio.__init__ 1000000) <> 0
  /\ Spec.valid_entries (Portfolio.__init__ 1000000)
  /\ Spec.valid Spec.example_call
  /\ Portfolio.vega
       (Portfolio.add_option (Portfolio.__init__ 1000000)
                             Spec.example_call 100 1)
     = Ok (0 + Greeks.vega_of Spec.example_call * 100 * 1 * 10000 / 1000000).
Proof.
  assert (Hpv : Portfolio.portfolio_value (Portfolio.__init__ 1000000) <> 0)
    by (simpl; lra).
  refine (conj Hpv (conj empty_book_valid (conj example_call_valid _))).
  destruct (X13_add_option (Portfolio.__init__ 1000000) Spec.example_call
              100 1 Hpv empty_book_valid example_call_valid)
    as (premium & d & g & v & th & _ & _ & _ & (Hv & Hv') & _).
  simpl in Hv. injection Hv as <-. exact Hv'.
Defined.

(** X14 (the totals are linear in the quantity): appending one entry of
    quantity [q1 + q2] gives the same five totals as appending two entries
    of the same instrument and contract size with quantities [q1] and
    [q2]. *)
Theorem X14_quantity_additive
    (p : Portfolio.t) (o : Option.t) (q1 q2 c : R) :
  Portfolio.portfolio_value p <> 0 ->
  Spec.valid_entries p ->
  Spec.valid o ->
  let one := Portfolio.add_option p o (q1 + q2) c in
  let two := Portfolio.add_option (Portfolio.add_option p o q1 c) o q2 c in
  Portfolio.total_premium_amount one = Portfolio.total_premium_amount two
  /\ Portfolio.delta one = Portfolio.delta two
  /\ Portfolio.gamma one = Portfolio.gamma two
  /\ Portfolio.vega one = Portfolio.vega two
  /\ Portfolio.theta one = Portfolio.theta two.
Proof.
  intros Hpv Hv Ho. cbv zeta.
  assert (Hv1 := TotalsFacts.valid_entries_add_option p o q1 c Hv Ho).
  assert (Hpv1 : Portfolio.portfolio_value (Portfolio.add_option p o q1 c) <> 0)
    by exact Hpv.
  rewrite AppendFacts.premium_add_option, AppendFacts.delta_add_option,
    AppendFacts.gamma_add_option, AppendFacts.vega_add_option,
    AppendFacts.theta_add_option by assumption.
  rewrite (AppendFacts.premium_add_option _ o q2 c),
    (AppendFacts.delta_add_option _ o q2 c),
    (AppendFacts.gamma_add_option _ o q2 c),
    (AppendFacts.vega_add_option _ o q2 c),
    (AppendFacts.theta_add_option _ o q2 c) by assumption.
  unfold Spec.totalPremium, Spec.totalDelta, Totals.totalGamma,
    Totals.totalVega, Totals.totalTheta, Portfolio.add_option.
  simpl Portfolio.options. simpl Portfolio.forwards.
  simpl Portfolio.portfolio_value.
  change (Spec.option_delta_term
            {| Portfolio.portfolio_value := Portfolio.portfolio_value p;
               Portfolio.options :=
                 Portfolio.options p ++ [Portfolio.mk_entry o q1 c];
               Portfolio.forwards := Portfolio.forwards p |})
    with (Spec.option_delta_term p).
  change (Spec.forward_delta_term
            {| Portfolio.portfolio_value := Portfolio.portfolio_value p;
               Portfolio.options :=
                 Portfolio.options p ++ [Portfolio.mk_entry o q1 c];
               Portfolio.forwards := Portfolio.forwards p |})
    with (Spec.forward_delta_term p).
  change (Totals.gamma_term
            {| Portfolio.portfolio_value := Portfolio.portfolio_value p;
               Portfolio.options :=
                 Portfolio.options p ++ [Portfolio.mk_entry o q1 c];
               Portfolio.forwards := Portfolio.forwards p |})
    with (Totals.gamma_term p).
  change (Totals.vega_term
            {| Portfolio.portfolio_value := Portfolio.portfolio_value p;
               Portfolio.options :=
                 Portfolio.options p ++ [Portfolio.mk_entry o q1 c];
               Portfolio.forwards := Portfolio.forwards p |})
    with (Totals.vega_term p).
  change (Totals.theta_term
            {| Portfolio.portfolio_value := Portfolio.portfolio_value p;
               Portfolio.options :=
                 Portfolio.options p ++ [Portfolio.mk_entry o q1 c];
               Portfolio.forwards := Portfolio.forwards p |})
    with (Totals.theta_term p).
  rewrite !TotalsFacts.sum_over_app.
  unfold Spec.premium_term, Spec.option_delta_term, Totals.gamma_term,
    Totals.vega_term, Totals.theta_term.
  simpl.
  repeat split;
    first [ apply (f_equal (fun x : R => Ok (Np.Finite x)))
          | apply (f_equal (@Ok R)) ];
    field; exact Hpv.
Qed.

Lemma X14_quantity_additive_witness :
  Portfolio.portfolio_value (Portfolio.__init__ 1000000) <> 0
  /\ Spec.valid_entries (Portfolio.__init__ 1000000)
  /\ Spec.valid Spec.example_call
  /\ Portfolio.delta
       (Portfolio.add_option (Portfolio.__init__ 1000000)
                             Spec.example_call (60 + 40) 1)
     = Portfolio.delta
         (Portfolio.add_option
            (Portfolio.add_option (Portfolio.__init__ 1000000)
                                  Spec.example_call 60 1)
            Spec.example_call 40 1).
Proof.
  assert (Hpv : Portfolio.portfolio_value (Portfolio.__init__ 1000000) <> 0)
    by (simpl; lra).
  refine (conj Hpv (conj empty_book_valid (conj example_call_valid _))).
  exact (proj1 (proj2 (X14_quantity_additive (Portfolio.__init__ 1000000)
                         Spec.example_call 60 40 1 Hpv empty_book_valid
                         example_call_valid))).
Defined.

Module BadEntry.

Import Portfolio.

Lemma call_raises (m : option R -> option Z -> option R -> Option.method R)
    (o : Option.t) :
  In m Spec.pricing_calls ->
  0 < Option.strike_price o -> Option.underlying_price o <= 0 ->
  Option.call (m None None None) o = Raise (ValueError "math domain error").
Proof.
  intros Hm HK HS.
  apply OptionFailures.pricing_call_propagates; [exact Hm |].
  apply OverrideFacts.calculate_d1_d2_nonpositive_S; assumption.
Qed.

Section BadEntry.

Variable p : t.
Variables (pre : list (entry Option.t)) (e : entry Option.t)
          (post : list (entry Option.t)).

Hypothesis value_nonzero : portfolio_value p <> 0.
Hypothesis options_split : options p = pre ++ e :: post.
Hypothesis pre_valid : Forall (fun e' => Spec.valid (instrument e')) pre.
Hypothesis strike_pos : 0 < Option.strike_price (instrument e).
Hypothesis spot_nonpos : Option.underlying_price (instrument e) <= 0.

Let valid_in (e' : entry Option.t) (H : In e' pre)
  : Spec.valid (instrument e') := proj1 (Forall_forall _ _) pre_valid e' H.

Ltac stop_at m term call_ok :=
  unfold m; rewrite options_split;
  apply (TotalsFacts.for_each_raises_after _ term);
  [ intros e' He'; rewrite call_ok by exact (valid_in e' He'); simpl;
    rewrite ?div_ok by (exact value_nonzero || lra); simpl;
    rewrite ?div_ok by exact value_nonzero; reflexivity
  | rewrite call_raises by (assumption || (simpl; tauto)); reflexivity ].

Lemma premium_stops :
  total_premium_amount p = Raise (ValueError "math domain error").
Proof.
  stop_at total_premium_amount Spec.premium_term
          PortfolioFacts.call_black_scholes.
Qed.

Lemma delta_stops :
  delta p = Raise (ValueError "math domain error").
Proof.
  unfold delta. rewrite options_split.
  rewrite (TotalsFacts.for_each_np_raises_after
             _ (Spec.option_delta_term p)
             pre e post 0 (ValueError "math domain error")).
  - reflexivity.
  - intros e' He'.
    rewrite PortfolioFacts.call_delta by exact (valid_in e' He'). simpl.
    rewrite PortfolioFacts.np_div_ok by exact value_nonzero. reflexivity.
  - rewrite call_raises by (assumption || (simpl; tauto)). reflexivity.
Qed.

Lemma gamma_stops :
  gamma p = Raise (ValueError "math domain error").
Proof. stop_at gamma (Totals.gamma_term p) TotalsFacts.call_gamma. Qed.

Lemma vega_stops :
  vega p = Raise (ValueError "math domain error").
Proof. stop_at vega (Totals.vega_term p) TotalsFacts.call_vega. Qed.

Lemma theta_stops :
  theta p = Raise (ValueError "math domain error").
Proof.
  unfold theta. rewrite options_split.
  apply (TotalsFacts.for_each_np_raises_after _ (Totals.theta_term p)).
  - intros e' He'.
    rewrite TotalsFacts.call_theta by exact (valid_in e' He'). simpl.
    rewrite PortfolioFacts.np_div_ok by exact value_nonzero. reflexivity.
  - rewrite call_raises by (assumption || (simpl; tauto)). reflexivity.
Qed.

End BadEntry.

End BadEntry.

(** X15 (no partial result): when the option entries are valid up to an
    entry whose instrument has an underlying price [<= 0] (and a positive
    strike), each of the five queries raises the [ValueError] of that
    entry's pricing call, whatever follows it in the list. *)
Theorem X15_bad_entry_fails_every_query
    (p : Portfolio.t) (pre : list (Portfolio.entry Option.t))
    (e : Portfolio.entry Option.t) (post : list (Portfolio.entry Option.t)) :
  Portfolio.portfolio_value p <> 0 ->
  Portfolio.options p = pre ++ e :: post ->
  Forall (fun e' => Spec.valid (Portfolio.instrument e')) pre ->
  0 < Option.strike_price (Portfolio.instrument e) ->
  Option.underlying_price (Portfolio.instrument e) <= 0 ->
  Portfolio.total_premium_amount p = Raise (ValueError "math domain error")
  /\ Portfolio.delta p = Raise (ValueError "math domain error")
  /\ Portfolio.gamma p = Raise (ValueError "math domain error")
  /\ Portfolio.vega p = Raise (ValueError "math domain error")
  /\ Portfolio.theta p = Raise (ValueError "math domain error").
Proof.
  intros Hpv Hsplit Hpre HK HS.
  split; [| split; [| split; [| split]]].
  - exact (BadEntry.premium_stops p pre e post Hsplit Hpre HK HS).
  - exact (BadEntry.delta_stops p pre e post Hpv Hsplit Hpre HK HS).
  - exact (BadEntry.gamma_stops p pre e post Hpv Hsplit Hpre HK HS).
  - exact (BadEntry.vega_stops p pre e post Hpv Hsplit Hpre HK HS).
  - exact (BadEntry.theta_stops p pre e post Hpv Hsplit Hpre HK HS).
Qed.

Lemma X15_bad_entry_fails_every_query_witness :
  Portfolio.portfolio_value Totals.book_with_bad_entry <> 0
  /\ Portfolio.options Totals.book_with_bad_entry
     = [Portfolio.mk_entry Spec.example_call 100 1]
       ++ Portfolio.mk_entry Totals.worthless_call 10 1 :: []
  /\ Forall (fun e' => Spec.valid (Portfolio.instrument e'))
            [Portfolio.mk_entry Spec.example_call 100 1]
  /\ 0 < Option.strike_price Totals.worthless_call
  /\ Option.underlying_price Totals.worthless_call <= 0
  /\ Portfolio.delta Totals.book_with_bad_entry
     = Raise (ValueError "math domain error").
Proof.
  assert (Hpv : Portfolio.portfolio_value Totals.book_with_bad_entry <> 0)
    by (simpl; lra).
  assert (Hsplit : Portfolio.options Totals.book_with_bad_entry
                   = [Portfolio.mk_entry Spec.example_call 100 1]
                     ++ Portfolio.mk_entry Totals.worthless_call 10 1 :: [])
    by reflexivity.
  assert (Hpre : Forall (fun e' => Spec.valid (Portfolio.instrument e'))
                        [Portfolio.mk_entry Spec.example_call 100 1])
    by (apply Forall_cons; [exact example_call_valid | apply Forall_nil]).
  assert (HK : 0 < Option.strike_price Totals.worthless_call)
    by (simpl; lra).
  assert (HS : Option.underlying_price Totals.worthless_call <= 0)
    by (simpl; lra).
  refine (conj Hpv (conj Hsplit (conj Hpre (conj HK (conj HS _))))).
  exact (proj1 (proj2 (X15_bad_entry_fails_every_query
                         Totals.book_with_bad_entry _ _ _
                         Hpv Hsplit Hpre HK HS))).
Defined.

(** ** More on the volatility estimator *)

Module SortFacts.

Import Volatility.
Import Realized.

Lemma ts_leb_total (a b : Timestamp) : ts_leb a b = false -> ts_leb b a = true.
Proof.
  unfold ts_leb. intros H.
  apply orb_false_iff in H. destruct H as [H1 H2].
  apply Z.ltb_ge in H1.
  destruct (Z.eqb_spec (month_index a) (month_index b)) as [E | E].
  - simpl in H2. apply Z.leb_gt in H2. rewrite E, Z.eqb_refl. simpl.
    apply orb_true_iff. right. apply Z.leb_le. lia.
  - apply orb_true_iff. left. apply Z.ltb_lt. lia.
Qed.

Lemma insert_sorted_perm {A : Type} (e : Timestamp * A) (s : Series A) :
  Permutation (insert_sorted e s) (e :: s).
Proof.
  induction s as [| e' s IH]; simpl.
  - apply Permutation_refl.
  - destruct (ts_leb (fst e) (fst e')).
    + apply Permutation_refl.
    + apply perm_trans with (e' :: e :: s).
      * apply perm_skip. exact IH.
      * apply perm_swap.
Qed.

Lemma insert_sorted_hd {A : Type} (a e : Timestamp * A) (s : Series A) :
  ts_le a e -> HdRel ts_le a s -> HdRel ts_le a (insert_sorted e s).
Proof.
  intros Hae Hs. destruct s as [| e' s]; simpl.
  - constructor. exact Hae.
  - destruct (ts_leb (fst e) (fst e')); constructor.
    + exact Hae.
    + exact (HdRel_inv Hs).
Qed.

Lemma insert_sorted_sorted {A : Type} (e : Timestamp * A) (s : Series A) :
  Sorted ts_le s -> Sorted ts_le (insert_sorted e s).
Proof.
  induction 1 as [| e' s Hs IH Hhd]; simpl.
  - repeat constructor.
  - destruct (ts_leb (fst e) (fst e')) eqn:Hle.
    + constructor; [constructor; assumption | constructor; exact Hle].
    + constructor; [exact IH |].
      apply insert_sorted_hd; [| exact Hhd].
      apply ts_leb_total. exact Hle.
Qed.

Lemma sort_index_sorted {A : Type} (s : Series A) :
  Sorted ts_le (sort_index s).
Proof.
  induction s as [| e s IH]; simpl.
  - constructor.
  - apply insert_sorted_sorted. exact IH.
Qed.

Lemma sort_index_perm {A : Type} (s : Series A) :
  Permutation (sort_index s) s.
Proof.
  induction s as [| e s IH]; simpl.
  - apply Permutation_refl.
  - apply perm_trans with (e :: sort_index s).
    + apply insert_sorted_perm.
    + apply perm_skip. exact IH.
Qed.

End SortFacts.

(** X16: the constructor stores the samples it is given, all of them and
    no other, in ascending order of their timestamps. *)
Theorem X16_prices_sorted (historical_prices : Volatility.Series R) :
  let v := Volatility.__init__ historical_prices in
  Sorted Realized.ts_le (Volatility.historical_prices v)
  /\ Permutation (Volatility.historical_prices v) historical_prices.
Proof.
  split.
  - apply SortFacts.sort_index_sorted.
  - apply SortFacts.sort_index_perm.
Qed.

Module RollingFacts.

Import Volatility.
Import Realized.

Lemma in_skipn {A : Type} (n : nat) (l : list A) (x : A) :
  In x (skipn n l) -> In x l.
Proof.
  intros H. rewrite <- (firstn_skipn n l). apply in_or_app. right. exact H.
Qed.

Lemma in_firstn {A : Type} (n : nat) (l : list A) (x : A) :
  In x (firstn n l) -> In x l.
Proof.
  intros H. rewrite <- (firstn_skipn n l). apply in_or_app. left. exact H.
Qed.

Lemma in_trailing (window i : nat) (l : list cell) (c : cell) :
  In c (trailing window i l) -> In c l.
Proof.
  unfold trailing. intros H. eapply in_firstn, in_skipn, H.
Qed.

Lemma in_observations (w : list cell) (x : R) :
  In x (observations w) -> In (Num x) w.
Proof.
  induction w as [| [| b | y] w IH]; simpl; intros H.
  - contradiction.
  - right. apply IH, H.
  - right. apply IH, H.
  - destruct H as [-> | H]; [left; reflexivity | right; apply IH, H].
Qed.

(** A value of the rolling volatility is NaN, or the annualized sample
    standard deviation of numbers taken from the returns. *)
Lemma rolling_volatility_cases (v : t) (e : Timestamp * cell) :
  In e (rolling_volatility v) ->
  snd e = NaN
  \/ exists obs : list R,
       (forall x, In x obs -> In (Num x) (map snd (daily_returns v)))
       /\ snd e = Num (sample_std obs * sqrt 252).
Proof.
  unfold rolling_volatility, scale, rolling_std. intros He.
  apply in_map_iff in He. destruct He as (e' & <- & He').
  apply in_map_iff in He'. destruct He' as (i & <- & _). simpl.
  set (obs := observations (trailing 30 i (map snd (daily_returns v)))).
  destruct (List.length obs <? 30)%nat.
  - left. reflexivity.
  - right. exists obs. split; [| reflexivity].
    intros x Hx. eapply in_trailing, in_observations, Hx.
Qed.

Lemma last_valid_from (bin : list cell) (acc : cell) :
  let r := fold_left (fun a c => if isna c then a else c) bin acc in
  r = acc \/ In r bin.
Proof.
  revert acc. induction bin as [| c bin IH]; intros acc; simpl.
  - left. reflexivity.
  - destruct (IH (if isna c then acc else c)) as [H | H].
    + destruct (isna c).
      * left. exact H.
      * right. left. symmetry. exact H.
    + right. right. exact H.
Qed.

(** What holds of NaN and of every cell of a series holds of every cell of
    its monthly resampling. *)
Lemma resample_preserves (P : cell -> Prop) (s : Series cell) :
  P NaN ->
  Forall (fun e => P (snd e)) s ->
  Forall (fun e => P (snd e)) (resample_M_last s).
Proof.
  intros Hnan Hs.
  destruct s as [| [first c] rest]; [constructor |].
  unfold resample_M_last.
  apply Forall_map, Forall_forall. intros k _.
  match goal with
  | |- P (snd (_, last_valid ?bin)) =>
      change (P (last_valid bin));
      destruct (last_valid_from bin NaN) as [H | H]
  end.
  - unfold last_valid. rewrite H. exact Hnan.
  - unfold last_valid.
    apply in_map_iff in H. destruct H as (e & He & Hin).
    rewrite <- He. apply filter_In in Hin. destruct Hin as [Hin _].
    exact (proj1 (Forall_forall _ _) Hs e Hin).
Qed.

Lemma sample_std_nonneg (l : list R) : 0 <= sample_std l.
Proof. unfold sample_std. apply sqrt_pos. Qed.

Lemma Rsum_zero (l : list R) : (forall x, In x l -> x = 0) -> Rsum l = 0.
Proof.
  unfold Rsum. induction l as [| x l IH]; simpl; intros H.
  - reflexivity.
  - rewrite (H x) by (left; reflexivity).
    rewrite IH by (intros y Hy; apply H; right; exact Hy). ring.
Qed.

Lemma sample_std_zero (l : list R) :
  (forall x, In x l -> x = 0) -> sample_std l = 0.
Proof.
  intros H. unfold sample_std, mean.
  rewrite (Rsum_zero l H).
  rewrite Rsum_zero.
  - unfold Rdiv. rewrite Rmult_0_l. apply sqrt_0.
  - intros y Hy. apply in_map_iff in Hy. destruct Hy as (x & <- & Hx).
    rewrite (H x Hx). unfold Rdiv. ring.
Qed.

End RollingFacts.

(** X17: every value of the rolling volatility and every value of the
    monthly output is either the insufficient-data marker or a number
    [>= 0]: never an infinity, never a negative number. *)
Theorem X17_volatility_nonnegative (v : Volatility.t) :
  Forall (fun e => Realized.nonneg_or_nan (snd e))
         (Volatility.rolling_volatility v)
  /\ Forall (fun e => Realized.nonneg_or_nan (snd e))
            (Volatility.compute_monthly_30d_volatility v).
Proof.
  assert (Hroll : Forall (fun e => Realized.nonneg_or_nan (snd e))
                         (Volatility.rolling_volatility v)).
  { apply Forall_forall. intros e He.
    destruct (RollingFacts.rolling_volatility_cases v e He)
      as [-> | (obs & _ & ->)]; simpl; [exact I |].
    apply Rmult_le_pos; [apply RollingFacts.sample_std_nonneg | apply sqrt_pos]. }
  split; [exact Hroll |].
  apply RollingFacts.resample_preserves; [exact I | exact Hroll].
Qed.

Module ConstantSeries.

Import Volatility.
Import Realized.

Lemma sort_index_forall {A : Type} (P : Timestamp * A -> Prop) (s : Series A) :
  Forall P s -> Forall P (sort_index s).
Proof.
  intros H. apply Forall_forall. intros e He.
  apply (proj1 (Forall_forall _ _) H).
  exact (Permutation_in e (SortFacts.sort_index_perm s) He).
Qed.

Lemma pct_constant (c : R) : zero_or_nan (pct c c).
Proof.
  unfold pct, zero_or_nan. destruct (Req_dec_T c 0) as [Hc | Hc].
  - left. reflexivity.
  - right. f_equal. field. exact Hc.
Qed.

Lemma pct_change_from_constant (c : R) (s : Series R) :
  Forall (fun e => snd e = c) s ->
  Forall (fun e => zero_or_nan (snd e)) (pct_change_from c s).
Proof.
  induction 1 as [| [ts p] s Hp _ IH]; simpl.
  - constructor.
  - simpl in Hp. subst p. constructor; [apply pct_constant | exact IH].
Qed.

Lemma daily_returns_constant (c : R) (v : t) :
  Forall (fun e => snd e = c) (historical_prices v) ->
  Forall (fun e => zero_or_nan (snd e)) (daily_returns v).
Proof.
  intros H. unfold daily_returns, dropna, pct_change.
  apply Forall_forall. intros e He.
  apply filter_In in He. destruct He as [He _].
  destruct (historical_prices v) as [| [ts p] s]; [contradiction |].
  inversion H as [| ? ? Hp Hs]. simpl in Hp. subst.
  destruct He as [<- | He].
  - left. reflexivity.
  - exact (proj1 (Forall_forall _ _) (pct_change_from_constant c s Hs) e He).
Qed.

End ConstantSeries.

(** X18: on a series whose prices are all equal, every value of the rolling
    volatility and of the monthly output is 0 where it is defined (the
    insufficient-data marker elsewhere). *)
Theorem X18_constant_prices_zero_volatility
    (prices : Volatility.Series R) (c : R) :
  Forall (fun e => snd e = c) prices ->
  let v := Volatility.__init__ prices in
  Forall (fun e => Realized.zero_or_nan (snd e))
         (Volatility.rolling_volatility v)
  /\ Forall (fun e => Realized.zero_or_nan (snd e))
            (Volatility.compute_monthly_30d_volatility v).
Proof.
  intros Hc v.
  assert (Hret : Forall (fun e => Realized.zero_or_nan (snd e))
                        (Volatility.daily_returns v)).
  { apply (ConstantSeries.daily_returns_constant c).
    apply ConstantSeries.sort_index_forall. exact Hc. }
  assert (Hroll : Forall (fun e => Realized.zero_or_nan (snd e))
                         (Volatility.rolling_volatility v)).
  { apply Forall_forall. intros e He.
    destruct (RollingFacts.rolling_volatility_cases v e He)
      as [-> | (obs & Hobs & ->)]; [left; reflexivity |].
    right. f_equal. rewrite RollingFacts.sample_std_zero; [ring |].
    intros x Hx. specialize (Hobs x Hx).
    apply in_map_iff in Hobs. destruct Hobs as (e' & He' & Hin).
    destruct (proj1 (Forall_forall _ _) Hret e' Hin) as [H | H];
      rewrite H in He'; [discriminate | injection He' as <-; reflexivity]. }
  split; [exact Hroll |].
  apply RollingFacts.resample_preserves; [left; reflexivity | exact Hroll].
Qed.

Lemma steady_january_constant :
  Forall (fun e : Volatility.Timestamp * R => snd e = 100)
         Realized.steady_january.
Proof.
  unfold Realized.steady_january.
  apply Forall_map, Forall_forall. intros k _. reflexivity.
Qed.

Lemma X18_constant_prices_zero_volatility_witness :
  Forall (fun e : Volatility.Timestamp * R => snd e = 100)
         Realized.steady_january
  /\ Forall (fun e => Realized.zero_or_nan (snd e))
            (Volatility.compute_monthly_30d_volatility
               (Volatility.__init__ Realized.steady_january)).
Proof.
  refine (conj steady_january_constant _).
  exact (proj2 (X18_constant_prices_zero_volatility
                  Realized.steady_january 100 steady_january_constant)).
Defined.

Module WarmUp.

Import Volatility.
Import Realized.

Lemma map_nth_seq {A B : Type} (f : A -> B) (l : list A) (d : A) :
  map (fun i => f (nth i l d)) (seq 0 (List.length l)) = map f l.
Proof.
  induction l as [| a l IH]; simpl.
  - reflexivity.
  - f_equal. rewrite <- seq_shift, map_map. exact IH.
Qed.

(** One value per return, at the date of the return. *)
Lemma rolling_volatility_index (v : t) :
  map fst (rolling_volatility v) = map fst (daily_returns v).
Proof.
  unfold rolling_volatility, scale, rolling_std.
  rewrite !map_map. simpl.
  apply (map_nth_seq fst).
Qed.

Lemma length_rolling_volatility (v : t) :
  List.length (rolling_volatility v) = List.length (daily_returns v).
Proof.
  rewrite <- (length_map fst (rolling_volatility v)),
    rolling_volatility_index.
  apply length_map.
Qed.

Lemma rolling_volatility_nth (v : t) (i : nat) (e : Timestamp * cell) :
  nth_error (rolling_volatility v) i = Some e ->
  (i < List.length (daily_returns v))%nat /\ snd e = value_at v i.
Proof.
  unfold rolling_volatility, scale, rolling_std, value_at.
  rewrite !nth_error_map, nth_error_seq.
  destruct (Nat.ltb_spec i (List.length (daily_returns v))) as [Hi | Hi];
    simpl; [| discriminate].
  intros H. injection H as <-. split; [exact Hi |]. simpl.
  destruct (List.length _ <? 30)%nat; reflexivity.
Qed.

Lemma length_trailing_le (window i : nat) (l : list cell) :
  (List.length (trailing window i l) <= S i)%nat.
Proof.
  unfold trailing. rewrite length_skipn, length_firstn. lia.
Qed.

Lemma length_trailing_full (window i : nat) (l : list cell) :
  (window <= S i)%nat -> (i < List.length l)%nat ->
  List.length (trailing window i l) = window.
Proof.
  intros Hw Hi. unfold trailing. rewrite length_skipn, length_firstn. lia.
Qed.

Lemma value_at_warm_up (v : t) (i : nat) : (i < 29)%nat -> value_at v i = NaN.
Proof.
  intros Hi. unfold value_at.
  set (w := trailing 30 i (map snd (daily_returns v))).
  assert (H1 := VolatilityFacts.length_observations w).
  assert (H2 := length_trailing_le 30 i (map snd (daily_returns v))).
  fold w in H2.
  destruct (Nat.ltb_spec (List.length (observations w)) 30); [reflexivity | lia].
Qed.

Lemma length_observations_numbers (w : list cell) :
  Forall is_number w -> List.length (observations w) = List.length w.
Proof.
  induction 1 as [| c w [x ->] _ IH]; simpl.
  - reflexivity.
  - rewrite IH. reflexivity.
Qed.

Lemma value_at_defined (v : t) (i : nat) :
  Forall (fun e => is_number (snd e)) (daily_returns v) ->
  (29 <= i)%nat -> (i < List.length (daily_returns v))%nat ->
  is_number (value_at v i).
Proof.
  intros Hnum Hlo Hhi. unfold value_at.
  set (l := map snd (daily_returns v)).
  assert (Hl : Forall is_number l).
  { unfold l. apply Forall_map. exact Hnum. }
  assert (Hw : Forall is_number (trailing 30 i l)).
  { apply Forall_forall. intros c Hc.
    exact (proj1 (Forall_forall _ _) Hl c (RollingFacts.in_trailing _ _ _ _ Hc)). }
  rewrite (length_observations_numbers _ Hw).
  rewrite length_trailing_full by (unfold l; rewrite ?length_map; lia).
  simpl. eexists. reflexivity.
Qed.

Lemma pct_change_from_numbers (prev : R) (s : Series R) :
  prev <> 0 ->
  Forall (fun e => snd e <> 0) s ->
  Forall (fun e => is_number (snd e)) (pct_change_from prev s).
Proof.
  intros Hprev Hs. revert prev Hprev.
  induction Hs as [| [ts p] s Hp _ IH]; intros prev Hprev; simpl.
  - constructor.
  - constructor.
    + simpl. unfold pct. destruct (Req_dec_T prev 0); [contradiction |].
      eexists. reflexivity.
    + apply IH. exact Hp.
Qed.

Lemma dropna_numbers (s : Series cell) :
  Forall (fun e => is_number (snd e)) s -> dropna s = s.
Proof.
  intros H. unfold dropna. apply forallb_filter_id.
  apply forallb_forall. intros e He.
  destruct (proj1 (Forall_forall _ _) H e He) as [x ->]. reflexivity.
Qed.

(** Without a zero price every return but the first position is a number:
    there is one return less than there are prices. *)
Lemma daily_returns_numbers (v : t) :
  Forall (fun e => snd e <> 0) (historical_prices v) ->
  Forall (fun e => is_number (snd e)) (daily_returns v)
  /\ List.length (daily_returns v) = (List.length (historical_prices v) - 1)%nat.
Proof.
  intros H. unfold daily_returns, pct_change.
  destruct (historical_prices v) as [| [ts p] s]; simpl.
  - split; [constructor | reflexivity].
  - inversion H as [| ? ? Hp Hs]. simpl in Hp. subst.
    assert (Hnum := pct_change_from_numbers p s Hp Hs).
    fold (dropna (pct_change_from p s)).
    rewrite (dropna_numbers _ Hnum).
    split; [exact Hnum |].
    rewrite VolatilityFacts.length_pct_change_from. lia.
Qed.

End WarmUp.

(** X19: the rolling volatility has one value per return, dated as the
    return, and its first 29 values are the insufficient-data marker,
    whatever the series. *)
Theorem X19_warm_up (v : Volatility.t) :
  map fst (Volatility.rolling_volatility v)
  = map fst (Volatility.daily_returns v)
  /\ Spec.all_nan (firstn 29 (Volatility.rolling_volatility v)).
Proof.
  split; [apply WarmUp.rolling_volatility_index |].
  apply Forall_forall. intros e He.
  apply In_nth_error in He. destruct He as [i Hi].
  rewrite nth_error_firstn in Hi.
  destruct (Nat.ltb_spec i 29) as [Hlt | Hge]; [| discriminate].
  destruct (WarmUp.rolling_volatility_nth v i e Hi) as [_ ->].
  apply WarmUp.value_at_warm_up. exact Hlt.
Qed.

(** X20: when no price is zero, a series of [n] prices has [n - 1] rolling
    values, and every value from the 30th on is a number: the annualized
    sample standard deviation of the 30 returns that end there. *)
Theorem X20_defined_after_warm_up (prices : Volatility.Series R) :
  Forall (fun e => snd e <> 0) prices ->
  let v := Volatility.__init__ prices in
  List.length (Volatility.rolling_volatility v)
  = (List.length prices - 1)%nat
  /\ Forall (fun e => Realized.is_number (snd e))
            (skipn 29 (Volatility.rolling_volatility v))
  /\ forall (i : nat) (e : Volatility.Timestamp * Volatility.cell),
       (29 <= i)%nat ->
       nth_error (Volatility.rolling_volatility v) i = Some e ->
       snd e
       = Volatility.Num
           (Volatility.sample_std
              (Volatility.observations
                 (Volatility.trailing 30 i
                    (map snd (Volatility.daily_returns v))))
            * sqrt 252).
Proof.
  intros Hnz v.
  assert (Hhp : Forall (fun e => snd e <> 0) (Volatility.historical_prices v)).
  { apply ConstantSeries.sort_index_forall. exact Hnz. }
  destruct (WarmUp.daily_returns_numbers v Hhp) as [Hnum Hlen].
  assert (Hdef : forall i e,
             (29 <= i)%nat ->
             nth_error (Volatility.rolling_volatility v) i = Some e ->
             (i < List.length (Volatility.daily_returns v))%nat
             /\ snd e = Realized.value_at v i
             /\ Realized.is_number (Realized.value_at v i)).
  { intros i e Hi He.
    destruct (WarmUp.rolling_volatility_nth v i e He) as [Hlt Hval].
    repeat split; try assumption.
    apply WarmUp.value_at_defined; assumption. }
  split; [| split].
  - rewrite WarmUp.length_rolling_volatility, Hlen.
    unfold v, Volatility.__init__. simpl.
    rewrite VolatilityFacts.length_sort_index. reflexivity.
  - apply Forall_forall. intros e He.
    apply In_nth_error in He. destruct He as [j Hj].
    rewrite nth_error_skipn in Hj.
    destruct (Hdef (29 + j)%nat e ltac:(lia) Hj) as (_ & -> & Hn).
    exact Hn.
  - intros i e Hi He.
    destruct (Hdef i e Hi He) as (_ & Hval & [x Hx]).
    rewrite Hval. unfold Realized.value_at in *.
    destruct (List.length _ <? 30)%nat; [discriminate | reflexivity].
Qed.

Lemma steady_january_nonzero :
  Forall (fun e : Volatility.Timestamp * R => snd e <> 0)
         Realized.steady_january.
Proof.
  unfold Realized.steady_january.
  apply Forall_map, Forall_forall. intros k _. simpl. lra.
Qed.

Lemma X20_defined_after_warm_up_witness :
  Forall (fun e : Volatility.Timestamp * R => snd e <> 0)
         Realized.steady_january
  /\ List.length
       (Volatility.rolling_volatility
          (Volatility.__init__ Realized.steady_january))
     = (List.length Realized.steady_january - 1)%nat
  /\ Forall (fun e => Realized.is_number (snd e))
            (skipn 29
               (Volatility.rolling_volatility
                  (Volatility.__init__ Realized.steady_january))).
Proof.
  refine (conj steady_january_nonzero _).
  destruct (X20_defined_after_warm_up Realized.steady_january
              steady_january_nonzero) as (Hlen & Hnum & _).
  exact (conj Hlen Hnum).
Defined.

Module MonthlyFacts.

Import Volatility.
Import Realized.

Lemma month_index_month_end (mi : Z) : month_index (month_end mi) = mi.
Proof.
  unfold month_index, month_end. cbn [year month].
  assert (H := Z.div_mod mi 12 ltac:(lia)). lia.
Qed.

Lemma month_end_is_month_end (mi : Z) : is_month_end (month_end mi).
Proof.
  unfold is_month_end, month_end. cbn [year month day].
  assert (H := Z.mod_pos_bound mi 12 ltac:(lia)).
  split; [lia | reflexivity].
Qed.

Lemma fold_min_le_in (a : Z) (l : list Z) (x : Z) :
  In x l -> (fold_right Z.min a l <= x)%Z.
Proof.
  induction l as [| b l IH]; simpl; intros H.
  - contradiction.
  - destruct H as [-> | H]; [lia | specialize (IH H); lia].
Qed.

Lemma fold_max_ge_in (a : Z) (l : list Z) (x : Z) :
  In x l -> (x <= fold_right Z.max a l)%Z.
Proof.
  induction l as [| b l IH]; simpl; intros H.
  - contradiction.
  - destruct H as [-> | H]; [lia | specialize (IH H); lia].
Qed.

Section Resample.

Variable s : Series cell.

(** The labels are the month ends of consecutive calendar months. *)
Lemma resample_labels :
  Forall (fun e => is_month_end (fst e)) (resample_M_last s)
  /\ exists lo : Z,
       map (fun e => month_index (fst e)) (resample_M_last s)
       = map (fun k => (lo + Z.of_nat k)%Z)
             (seq 0 (List.length (resample_M_last s))).
Proof.
  destruct s as [| [first c] rest].
  - split; [constructor | exists 0%Z; reflexivity].
  - unfold resample_M_last.
    set (months := map (fun e => month_index (fst e)) rest).
    set (lo := fold_right Z.min (month_index first) months).
    set (hi := fold_right Z.max (month_index first) months).
    split.
    + apply Forall_map, Forall_forall. intros k _.
      apply month_end_is_month_end.
    + exists lo. rewrite length_map, length_seq, map_map.
      apply map_ext. intros k. simpl. apply month_index_month_end.
Qed.

(** Every month in which the series has a sample has its entry. *)
Lemma resample_covers (e : Timestamp * cell) :
  In e s ->
  exists e' : Timestamp * cell,
    In e' (resample_M_last s) /\ fst e' = month_end (month_index (fst e)).
Proof.
  intros He. destruct s as [| [first c] rest]; [contradiction |].
  unfold resample_M_last.
  set (months := map (fun e => month_index (fst e)) rest).
  set (lo := fold_right Z.min (month_index first) months).
  set (hi := fold_right Z.max (month_index first) months).
  assert (Hlo : (lo <= month_index (fst e))%Z).
  { destruct He as [<- | He]; [apply VolatilityFacts.fold_min_le |].
    apply fold_min_le_in. unfold months.
    apply in_map_iff. exists e. split; [reflexivity | exact He]. }
  assert (Hhi : (month_index (fst e) <= hi)%Z).
  { destruct He as [<- | He]; [apply VolatilityFacts.fold_max_ge |].
    apply fold_max_ge_in. unfold months.
    apply in_map_iff. exists e. split; [reflexivity | exact He]. }
  eexists. split.
  - apply in_map_iff. exists (Z.to_nat (month_index (fst e) - lo)).
    split; [reflexivity |]. apply in_seq. lia.
  - simpl. f_equal. lia.
Qed.

End Resample.

End MonthlyFacts.

(** ** The months of the monthly series *)

Module SpanFacts.

Import Volatility.

Lemma fold_min_in (a : Z) (l : list Z) :
  In (fold_right Z.min a l) (a :: l).
Proof.
  induction l as [| b l IH]; simpl.
  - left. reflexivity.
  - destruct (Z.min_spec b (fold_right Z.min a l)) as [[_ ->] | [_ ->]].
    + right. left. reflexivity.
    + destruct IH as [H | H]; [left; exact H | right; right; exact H].
Qed.

Lemma fold_max_in (a : Z) (l : list Z) :
  In (fold_right Z.max a l) (a :: l).
Proof.
  induction l as [| b l IH]; simpl.
  - left. reflexivity.
  - destruct (Z.max_spec b (fold_right Z.max a l)) as [[_ ->] | [_ ->]].
    + destruct IH as [H | H]; [left; exact H | right; right; exact H].
    + right. left. reflexivity.
Qed.

Lemma fold_min_lower (a : Z) (l : list Z) (x : Z) :
  In x (a :: l) -> (fold_right Z.min a l <= x)%Z.
Proof.
  intros [<- | H].
  - apply VolatilityFacts.fold_min_le.
  - apply MonthlyFacts.fold_min_le_in. exact H.
Qed.

Lemma fold_max_upper (a : Z) (l : list Z) (x : Z) :
  In x (a :: l) -> (x <= fold_right Z.max a l)%Z.
Proof.
  intros [<- | H].
  - apply VolatilityFacts.fold_max_ge.
  - apply MonthlyFacts.fold_max_ge_in. exact H.
Qed.

(** The two bounds [resample_M_last] computes are the months the index
    spans. *)
Lemma spans_bounds (a : Z) (l : list Z) (lo hi : Z) :
  In lo (a :: l) -> In hi (a :: l) ->
  Forall (fun m => (lo <= m <= hi)%Z) (a :: l) ->
  fold_right Z.min a l = lo /\ fold_right Z.max a l = hi.
Proof.
  intros Hlo Hhi Hall.
  assert (H1 := fold_min_lower a l lo Hlo).
  assert (H2 := fold_max_upper a l hi Hhi).
  assert (H3 := proj1 (Forall_forall _ _) Hall _ (fold_min_in a l)).
  assert (H4 := proj1 (Forall_forall _ _) Hall _ (fold_max_in a l)).
  simpl in H3, H4. lia.
Qed.

Lemma spans_exists (index : list Timestamp) :
  index <> [] -> exists lo hi : Z, Spec.spans index lo hi.
Proof.
  destruct index as [| first rest]; [contradiction |]. intros _.
  exists (fold_right Z.min (month_index first) (map month_index rest)),
         (fold_right Z.max (month_index first) (map month_index rest)).
  unfold Spec.spans. simpl map.
  refine (conj (fold_min_in _ _) (conj (fold_max_in _ _) _)).
  apply Forall_forall. intros ts Hts.
  assert (Hin : In (month_index ts)
                   (month_index first :: map month_index rest)).
  { destruct Hts as [<- | Hts]; [left; reflexivity |].
    right. apply in_map. exact Hts. }
  split; [apply fold_min_lower | apply fold_max_upper]; exact Hin.
Qed.

(** A series of markers only: one bin per month of the span, each with the
    marker. *)
Lemma resample_all_nan_shape (s : Series cell) (lo hi : Z) :
  Spec.all_nan s ->
  Spec.spans (map fst s) lo hi ->
  resample_M_last s
  = map (fun mi => (month_end mi, NaN)) (Spec.months lo hi).
Proof.
  intros Hnan (Hlo & Hhi & Hall).
  destruct s as [| [first c] rest]; [contradiction |].
  rewrite map_map in Hlo, Hhi. simpl in Hlo, Hhi.
  assert (Hall' : Forall (fun m => (lo <= m <= hi)%Z)
                         (month_index first
                          :: map (fun e => month_index (fst e)) rest)).
  { apply Forall_forall. intros m Hm.
    change (month_index first :: map (fun e => month_index (fst e)) rest)
      with (map (fun e : Timestamp * cell => month_index (fst e))
                ((first, c) :: rest)) in Hm.
    apply in_map_iff in Hm. destruct Hm as (e & <- & He).
    apply (proj1 (Forall_forall _ _) Hall). apply in_map. exact He. }
  destruct (spans_bounds _ _ lo hi Hlo Hhi Hall') as [Hmin Hmax].
  unfold resample_M_last, Spec.months. rewrite Hmin, Hmax, map_map.
  apply map_ext. intros k.
  rewrite (VolatilityFacts.bin_all_nan _ _ Hnan). reflexivity.
Qed.

End SpanFacts.

(** C9, as the code has it: for every price series of fewer than 30
    samples, every position of the rolling volatility carries the
    insufficient-data marker (NaN) rather than a number, and so does every
    entry of the monthly output.  The monthly output is not empty for all
    that: it holds exactly one entry per calendar month from the month of
    the earliest return to the month of the latest one, labelled by its
    month end, and it is empty only when the series yields no return
    (in particular with fewer than two samples). *)
Theorem C9_short_series (prices : Volatility.Series R) :
  (List.length prices < 30)%nat ->
  let v := Volatility.__init__ prices in
  Spec.all_nan (Volatility.rolling_volatility v)
  /\ Spec.all_nan (Volatility.compute_monthly_30d_volatility v)
  /\ (Volatility.compute_monthly_30d_volatility v = []
      <-> Volatility.daily_returns v = [])
  /\ ((List.length prices < 2)%nat ->
      Volatility.compute_monthly_30d_volatility v = [])
  /\ (forall lo hi : Z,
        Spec.spans (map fst (Volatility.daily_returns v)) lo hi ->
        Volatility.compute_monthly_30d_volatility v
        = map (fun mi => (Volatility.month_end mi, Volatility.NaN))
              (Spec.months lo hi))
  /\ (Volatility.daily_returns v <> [] ->
      exists lo hi : Z,
        Spec.spans (map fst (Volatility.daily_returns v)) lo hi).
Proof.
  intros Hshort v.
  assert (Hlen := VolatilityFacts.length_daily_returns v).
  assert (Hprices : List.length (Volatility.historical_prices v)
                    = List.length prices)
    by apply VolatilityFacts.length_sort_index.
  assert (Hroll : Spec.all_nan (Volatility.rolling_volatility v)).
  { apply VolatilityFacts.scale_all_nan, VolatilityFacts.rolling_std_short.
    lia. }
  assert (Hiff : Volatility.compute_monthly_30d_volatility v = []
                 <-> Volatility.daily_returns v = []).
  { unfold Volatility.compute_monthly_30d_volatility.
    rewrite VolatilityFacts.resample_empty_iff.
    apply VolatilityFacts.rolling_volatility_empty_iff. }
  refine (conj Hroll (conj _ (conj Hiff (conj _ (conj _ _))))).
  - apply VolatilityFacts.resample_all_nan, Hroll.
  - intros Hfew. apply Hiff. apply length_zero_iff_nil. lia.
  - intros lo hi Hspan.
    unfold Volatility.compute_monthly_30d_volatility.
    apply SpanFacts.resample_all_nan_shape; [exact Hroll |].
    rewrite WarmUp.rolling_volatility_index. exact Hspan.
  - intros Hne. apply SpanFacts.spans_exists.
    intros Hnil. apply Hne. apply map_eq_nil in Hnil. exact Hnil.
Qed.

Lemma C9_short_series_witness :
  (List.length Spec.two_closes < 30)%nat
  /\ Spec.all_nan
       (Volatility.rolling_volatility (Volatility.__init__ Spec.two_closes))
  /\ Spec.all_nan
       (Volatility.compute_monthly_30d_volatility
          (Volatility.__init__ Spec.two_closes))
  /\ (Spec.spans
        (map fst (Volatility.daily_returns
                    (Volatility.__init__ Spec.two_closes)))
        24288%Z 24288%Z ->
      Volatility.compute_monthly_30d_volatility
        (Volatility.__init__ Spec.two_closes)
      = map (fun mi => (Volatility.month_end mi, Volatility.NaN))
            (Spec.months 24288%Z 24288%Z)).
Proof.
  assert (Hshort : (List.length Spec.two_closes < 30)%nat) by (simpl; lia).
  destruct (C9_short_series Spec.two_closes Hshort)
    as (Hroll & Hmonth & _ & _ & Hshape & _).
  exact (conj Hshort (conj Hroll (conj Hmonth (Hshape 24288%Z 24288%Z)))).
Defined.

(** C9 fails as stated: two daily closes of January 2024 are fewer than 30
    samples, and the monthly output is not empty: it holds the entry of
    January 2024, with the insufficient-data marker as its value. *)
Lemma C9_counterexample :
  (List.length Spec.two_closes < 30)%nat
  /\ Volatility.compute_monthly_30d_volatility
       (Volatility.__init__ Spec.two_closes)
     = [(Volatility.mk_ts 2024 1 31, Volatility.NaN)]
  /\ Volatility.compute_monthly_30d_volatility
       (Volatility.__init__ Spec.two_closes) <> [].
Proof.
  assert (Hreturns :
            Volatility.daily_returns (Volatility.__init__ Spec.two_closes)
            = [(Volatility.mk_ts 2024 1 3, Volatility.Num (101 / 100 - 1))]).
  { unfold Volatility.daily_returns, Volatility.__init__.
    change (Volatility.historical_prices
              (Volatility.mk (Volatility.sort_index Spec.two_closes)))
      with Spec.two_closes.
    unfold Spec.two_closes, Volatility.pct_change, Volatility.pct_change_from,
      Volatility.pct.
    destruct (Req_dec_T 100 0) as [H | _]; [lra | reflexivity]. }
  assert (Hmonthly :
            Volatility.compute_monthly_30d_volatility
              (Volatility.__init__ Spec.two_closes)
            = [(Volatility.mk_ts 2024 1 31, Volatility.NaN)]).
  { unfold Volatility.compute_monthly_30d_volatility,
      Volatility.rolling_volatility.
    rewrite Hreturns. reflexivity. }
  split; [simpl; lia |].
  split; [exact Hmonthly |].
  rewrite Hmonthly. discriminate.
Qed.

(** X21: the timestamps of the monthly output are the last calendar days
    of consecutive months, in ascending order, and every month in which the
    rolling volatility has a value (defined or not) has its entry. *)
Theorem X21_monthly_labels (v : Volatility.t) :
  let out := Volatility.compute_monthly_30d_volatility v in
  Forall (fun e => Realized.is_month_end (fst e)) out
  /\ (exists lo : Z,
        map (fun e => Volatility.month_index (fst e)) out
        = map (fun k => (lo + Z.of_nat k)%Z) (seq 0 (List.length out)))
  /\ forall e : Volatility.Timestamp * Volatility.cell,
       In e (Volatility.rolling_volatility v) ->
       exists e' : Volatility.Timestamp * Volatility.cell,
         In e' out
         /\ fst e'
            = Volatility.month_end (Volatility.month_index (fst e)).
Proof.
  cbv zeta. unfold Volatility.compute_monthly_30d_volatility.
  destruct (MonthlyFacts.resample_labels (Volatility.rolling_volatility v))
    as [Hends Hrow].
  split; [exact Hends | split; [exact Hrow |]].
  apply MonthlyFacts.resample_covers.
Qed.

Module RescaleFacts.

Import Volatility.
Import Realized.

Lemma insert_sorted_rescale (k : R) (e : Timestamp * R) (s : Series R) :
  insert_sorted (fst e, k * snd e) (rescale k s)
  = rescale k (insert_sorted e s).
Proof.
  induction s as [| e' s IH]; simpl.
  - reflexivity.
  - destruct (ts_leb (fst e) (fst e')); simpl.
    + reflexivity.
    + f_equal. exact IH.
Qed.

Lemma sort_index_rescale (k : R) (s : Series R) :
  sort_index (rescale k s) = rescale k (sort_index s).
Proof.
  induction s as [| e s IH]; simpl.
  - reflexivity.
  - unfold sort_index in *. simpl. fold (rescale k s).
    rewrite IH. apply insert_sorted_rescale.
Qed.

(** A return does not depend on the unit of the prices. *)
Lemma pct_rescale (k prev p : R) : 0 < k -> pct (k * prev) (k * p) = pct prev p.
Proof.
  intros Hk. unfold pct, Rltb.
  destruct (Req_dec_T (k * prev) 0) as [H1 | H1];
    destruct (Req_dec_T prev 0) as [H2 | H2]; try nra.
  - destruct (Req_dec_T (k * p) 0) as [H3 | H3];
      destruct (Req_dec_T p 0) as [H4 | H4]; try nra; try reflexivity.
    destruct (Rlt_dec (k * p) 0); destruct (Rlt_dec p 0);
      try reflexivity; nra.
  - f_equal. field. split; lra.
Qed.

Lemma pct_change_from_rescale (k prev : R) (s : Series R) :
  0 < k ->
  pct_change_from (k * prev) (rescale k s) = pct_change_from prev s.
Proof.
  intros Hk. revert prev. induction s as [| [ts p] s IH]; intros prev; simpl.
  - reflexivity.
  - rewrite pct_rescale by exact Hk. f_equal. apply IH.
Qed.

Lemma pct_change_rescale (k : R) (s : Series R) :
  0 < k -> pct_change (rescale k s) = pct_change s.
Proof.
  intros Hk. destruct s as [| [ts p] s]; simpl.
  - reflexivity.
  - f_equal. apply pct_change_from_rescale. exact Hk.
Qed.

Lemma daily_returns_rescale (k : R) (s : Series R) :
  0 < k ->
  daily_returns (__init__ (rescale k s)) = daily_returns (__init__ s).
Proof.
  intros Hk. unfold daily_returns, __init__. simpl.
  rewrite sort_index_rescale, pct_change_rescale by exact Hk.
  reflexivity.
Qed.

End RescaleFacts.

(** X22: the estimator reads relative moves only: multiplying every price
    by the same [k > 0] changes neither the returns, nor the rolling
    volatility, nor the monthly output. *)
Theorem X22_unit_of_price_irrelevant
    (prices : Volatility.Series R) (k : R) :
  0 < k ->
  let v := Volatility.__init__ prices in
  let v' := Volatility.__init__ (Realized.rescale k prices) in
  Volatility.daily_returns v' = Volatility.daily_returns v
  /\ Volatility.rolling_volatility v' = Volatility.rolling_volatility v
  /\ Volatility.compute_monthly_30d_volatility v'
     = Volatility.compute_monthly_30d_volatility v.
Proof.
  intros Hk v v'.
  assert (H := RescaleFacts.daily_returns_rescale k prices Hk).
  fold v v' in H.
  unfold Volatility.compute_monthly_30d_volatility,
    Volatility.rolling_volatility.
  rewrite H. repeat split; reflexivity.
Qed.

Lemma X22_unit_of_price_irrelevant_witness :
  0 < 2
  /\ Volatility.compute_monthly_30d_volatility
       (Volatility.__init__ (Realized.rescale 2 Spec.two_closes))
     = Volatility.compute_monthly_30d_volatility
         (Volatility.__init__ Spec.two_closes).
Proof.
  assert (Hk : 0 < 2) by lra.
  refine (conj Hk _).
  exact (proj2 (proj2 (X22_unit_of_price_irrelevant Spec.two_closes 2 Hk))).
Defined.

(** ** The Greeks as derivatives of the price *)

Module Calculus.

(** The rules of differentiation, on functions written as abstractions. *)
Lemma dlim_eq (f g : R -> R) (x l l' : R) :
  (forall z, f z = g z) -> l = l' ->
  derivable_pt_lim f x l -> derivable_pt_lim g x l'.
Proof.
  intros Hfg <- Hf. exact (derivable_pt_lim_ext f g x l Hfg Hf).
Qed.

Lemma dlim_const (c x : R) : derivable_pt_lim (fun _ => c) x 0.
Proof. exact (derivable_pt_lim_const c x). Qed.

Lemma dlim_id (x : R) : derivable_pt_lim (fun y => y) x 1.
Proof. exact (derivable_pt_lim_id x). Qed.

Lemma dlim_plus (f g : R -> R) (x lf lg : R) :
  derivable_pt_lim f x lf -> derivable_pt_lim g x lg ->
  derivable_pt_lim (fun y => f y + g y) x (lf + lg).
Proof. exact (derivable_pt_lim_plus f g x lf lg). Qed.

Lemma dlim_minus (f g : R -> R) (x lf lg : R) :
  derivable_pt_lim f x lf -> derivable_pt_lim g x lg ->
  derivable_pt_lim (fun y => f y - g y) x (lf - lg).
Proof. exact (derivable_pt_lim_minus f g x lf lg). Qed.

Lemma dlim_mult (f g : R -> R) (x lf lg : R) :
  derivable_pt_lim f x lf -> derivable_pt_lim g x lg ->
  derivable_pt_lim (fun y => f y * g y) x (lf * g x + f x * lg).
Proof. exact (derivable_pt_lim_mult f g x lf lg). Qed.

Lemma dlim_div (f g : R -> R) (x lf lg : R) :
  derivable_pt_lim f x lf -> derivable_pt_lim g x lg -> g x <> 0 ->
  derivable_pt_lim (fun y => f y / g y) x ((lf * g x - lg * f x) / Rsqr (g x)).
Proof. exact (derivable_pt_lim_div f g x lf lg). Qed.

Lemma dlim_comp (f g : R -> R) (x lf lg : R) :
  derivable_pt_lim f x lf -> derivable_pt_lim g (f x) lg ->
  derivable_pt_lim (fun y => g (f y)) x (lg * lf).
Proof. exact (derivable_pt_lim_comp f g x lf lg). Qed.

Section PhiDerivative.

Variable M : R.
Hypothesis M_pos : 0 < M.

Let bounds : - M <= M.
Proof. lra. Qed.

Let C0 : forall x : R, - M <= x <= M -> continuity_pt phi x.
Proof. intros x _. apply phi_continuity. Qed.

Let G : R -> R := primitive bounds (FTC_P1 bounds C0).

Lemma G_value (x : R) :
  - M <= x <= M -> G x = RiemannInt (phi_integrable (- M) x).
Proof.
  intros [Hl Hr]. unfold G, primitive.
  destruct (Rle_dec (- M) x) as [H1 | H1]; [| contradiction].
  destruct (Rle_dec x M) as [H2 | H2]; [| contradiction].
  apply RiemannInt_P5.
Qed.

Lemma Phi_from_G (x : R) : - M <= x <= M -> 1 / 2 - G 0 + G x = Phi x.
Proof.
  intros Hx. unfold Phi. rewrite !G_value by lra.
  assert (H := RiemannInt_P26 (phi_integrable (- M) 0) (phi_integrable 0 x)
                 (phi_integrable (- M) x)).
  lra.
Qed.

Lemma Phi_derivative_within (x : R) :
  - M < x < M -> derivable_pt_lim Phi x (phi x).
Proof.
  intros Hx.
  apply (derivable_pt_lim_locally_ext (fun y => 1 / 2 - G 0 + G y) Phi
           x (- M) M).
  - exact Hx.
  - intros z Hz. apply Phi_from_G. lra.
  - apply (dlim_eq (fun y => (fun _ => 1 / 2 - G 0) y + G y) _ x
             (0 + phi x)); [reflexivity | ring |].
    apply dlim_plus; [apply dlim_const |].
    apply RiemannInt_P28. lra.
Qed.

End PhiDerivative.

(** The density is the derivative of the distribution function. *)
Lemma Phi_derivative (x : R) : derivable_pt_lim Phi x (phi x).
Proof.
  apply (Phi_derivative_within (Rabs x + 1)).
  - assert (H := Rabs_pos x). lra.
  - unfold Rabs. destruct (Rcase_abs x); lra.
Qed.

End Calculus.

Module Slopes.

Import Calculus.

(** [S e^(-qT) n(d1) = K e^(-rT) n(d2)]. *)
Lemma density_identity (S K r q T sigma : R) :
  0 < S -> 0 < K -> 0 < T -> 0 < sigma ->
  S * exp (- q * T) * phi (Spec.d1 S K r q T sigma)
  = K * exp (- r * T) * phi (Spec.d2 S K r q T sigma).
Proof.
  intros HS HK HT Hs.
  assert (Hx := OptionFacts.ratio_pos S K r q T HS HK).
  assert (Hb := exp_pos (- r * T)).
  assert (Hc := sqrt_2pi_pos).
  assert (Hsqpos : 0 < sqrt T) by (apply sqrt_lt_R0; exact HT).
  assert (Hsq : sqrt T * sqrt T = T) by (apply sqrt_sqrt; lra).
  unfold Spec.d2, phi.
  set (d1 := Spec.d1 S K r q T sigma).
  assert (Harg : - (d1 - sigma * sqrt T) ^ 2 / 2
                 = - d1 ^ 2 / 2
                   + ln (S * exp (- q * T) / (K * exp (- r * T)))).
  { unfold d1, Spec.d1.
    set (L := ln _). set (s := sqrt T) in *. clearbody L.
    assert (Hhalf : 0.5 = / 2) by lra.
    rewrite <- Hsq, Hhalf. clearbody s.
    field. split; apply Rgt_not_eq; assumption. }
  rewrite Harg, exp_plus, exp_ln by exact Hx.
  field. repeat split; apply Rgt_not_eq; assumption.
Qed.

Section InSpot.

Variables K r q T sigma : R.
Hypothesis K_pos : 0 < K.
Hypothesis T_pos : 0 < T.
Hypothesis sigma_pos : 0 < sigma.

Let w_pos : 0 < sigma * sqrt T.
Proof. apply Rmult_lt_0_compat; [exact sigma_pos | apply sqrt_lt_R0, T_pos]. Qed.

Lemma d1_in_spot (s : R) :
  0 < s ->
  derivable_pt_lim (fun z => Spec.d1 z K r q T sigma) s
                   (/ (s * (sigma * sqrt T))).
Proof.
  intros Hs.
  assert (Hb := exp_pos (- r * T)). assert (Ha := exp_pos (- q * T)).
  set (m := exp (- q * T) / (K * exp (- r * T))).
  assert (Hm : 0 < m).
  { unfold m. apply Rdiv_lt_0_compat; [exact Ha |].
    apply Rmult_lt_0_compat; assumption. }
  apply (dlim_eq
           (fun z => ((fun y => ln ((fun x => x * m) y)) z
                      + (fun _ => 0.5 * sigma ^ 2 * T) z)
                     / (sigma * sqrt T))
           _ s ((/ (s * m) * (1 * m) + 0) / (sigma * sqrt T))).
  - intros z. unfold Spec.d1, m. f_equal. f_equal. f_equal.
    unfold Rdiv. ring.
  - field. repeat split; apply Rgt_not_eq; try assumption.
    apply sqrt_lt_R0, T_pos.
  - apply derivable_pt_lim_div_scal.
    apply dlim_plus; [| apply dlim_const].
    apply (dlim_comp (fun x => x * m) ln).
    + apply derivable_pt_lim_scal_right. apply dlim_id.
    + apply derivable_pt_lim_ln. apply Rmult_lt_0_compat; assumption.
Qed.

Lemma Phi_d1_in_spot (s : R) :
  0 < s ->
  derivable_pt_lim (fun z => Phi (Spec.d1 z K r q T sigma)) s
    (phi (Spec.d1 s K r q T sigma) * / (s * (sigma * sqrt T))).
Proof.
  intros Hs.
  apply (dlim_comp (fun z => Spec.d1 z K r q T sigma) Phi).
  - apply d1_in_spot. exact Hs.
  - apply Phi_derivative.
Qed.

Lemma Phi_d2_in_spot (s : R) :
  0 < s ->
  derivable_pt_lim (fun z => Phi (Spec.d2 z K r q T sigma)) s
    (phi (Spec.d2 s K r q T sigma) * / (s * (sigma * sqrt T))).
Proof.
  intros Hs.
  apply (dlim_comp (fun z => Spec.d2 z K r q T sigma) Phi).
  - unfold Spec.d2.
    apply (dlim_eq
             (fun z => Spec.d1 z K r q T sigma
                       - (fun _ => sigma * sqrt T) z)
             _ s (/ (s * (sigma * sqrt T)) - 0)); [reflexivity | ring |].
    apply dlim_minus; [apply d1_in_spot; exact Hs | apply dlim_const].
  - apply Phi_derivative.
Qed.

(** The slope of the Call price in the underlying price is the Call
    delta. *)
Lemma call_price_in_spot (s : R) :
  0 < s ->
  derivable_pt_lim (fun z => Spec.price Spec.Call z K r q T sigma) s
                   (Spec.delta Spec.Call s K r q T sigma).
Proof.
  intros Hs.
  assert (Hid := density_identity s K r q T sigma Hs K_pos T_pos sigma_pos).
  set (a := exp (- q * T)) in *. set (b := exp (- r * T)) in *.
  set (d1 := Spec.d1 s K r q T sigma) in *.
  set (d2 := Spec.d2 s K r q T sigma) in *.
  set (slope := / (s * (sigma * sqrt T))).
  apply (dlim_eq
           (fun z => (fun y => y * a) z
                     * (fun y => Phi (Spec.d1 y K r q T sigma)) z
                     - (fun y => K * b * Phi (Spec.d2 y K r q T sigma)) z)
           _ s
           ((1 * a) * Phi d1 + (s * a) * (phi d1 * slope)
            - K * b * (phi d2 * slope))).
  - intros z. reflexivity.
  - change (Spec.delta Spec.Call s K r q T sigma) with (a * Phi d1).
    replace (s * a * (phi d1 * slope)) with (s * a * phi d1 * slope) by ring.
    rewrite Hid. ring.
  - apply (dlim_minus
             (fun z => (fun y => y * a) z
                       * (fun y => Phi (Spec.d1 y K r q T sigma)) z)
             (fun y => K * b * Phi (Spec.d2 y K r q T sigma))).
    + apply (dlim_mult (fun y => y * a)
                       (fun y => Phi (Spec.d1 y K r q T sigma))).
      * apply derivable_pt_lim_scal_right. apply dlim_id.
      * apply Phi_d1_in_spot. exact Hs.
    + apply (derivable_pt_lim_scal
               (fun y => Phi (Spec.d2 y K r q T sigma)) (K * b) s).
      apply Phi_d2_in_spot. exact Hs.
Qed.

Lemma put_from_call (s : R) :
  Spec.price Spec.Call s K r q T sigma
  - (s * exp (- q * T) - K * exp (- r * T))
  = Spec.price Spec.Put s K r q T sigma.
Proof.
  unfold Spec.price.
  assert (H1 := Phi_symmetric (Spec.d1 s K r q T sigma)).
  assert (H2 := Phi_symmetric (Spec.d2 s K r q T sigma)).
  replace (Phi (- Spec.d1 s K r q T sigma))
    with (1 - Phi (Spec.d1 s K r q T sigma)) by lra.
  replace (Phi (- Spec.d2 s K r q T sigma))
    with (1 - Phi (Spec.d2 s K r q T sigma)) by lra.
  ring.
Qed.

(** The slope of the price in the underlying price is the delta. *)
Lemma price_in_spot (k : Spec.kind) (s : R) :
  0 < s ->
  derivable_pt_lim (fun z => Spec.price k z K r q T sigma) s
                   (Spec.delta k s K r q T sigma).
Proof.
  intros Hs. destruct k.
  - apply call_price_in_spot. exact Hs.
  - apply (dlim_eq
             (fun z => Spec.price Spec.Call z K r q T sigma
                       - (fun y => y * exp (- q * T) - K * exp (- r * T)) z)
             _ s
             (Spec.delta Spec.Call s K r q T sigma
              - (1 * exp (- q * T) - 0))).
    + intros z. apply put_from_call.
    + unfold Spec.delta. ring.
    + apply dlim_minus; [apply call_price_in_spot; exact Hs |].
      apply (dlim_minus (fun y => y * exp (- q * T))
                        (fun _ => K * exp (- r * T))).
      * apply derivable_pt_lim_scal_right. apply dlim_id.
      * apply dlim_const.
Qed.

(** The slope of the delta in the underlying price is the gamma. *)
Lemma delta_in_spot (k : Spec.kind) (s : R) :
  0 < s ->
  derivable_pt_lim (fun z => Spec.delta k z K r q T sigma) s
                   (Spec.gamma s K r q T sigma).
Proof.
  intros Hs.
  assert (Hsq : 0 < sqrt T) by (apply sqrt_lt_R0, T_pos).
  assert (Hslope :
            exp (- q * T)
            * (phi (Spec.d1 s K r q T sigma) * / (s * (sigma * sqrt T)))
            = Spec.gamma s K r q T sigma).
  { unfold Spec.gamma. field. repeat split; apply Rgt_not_eq; assumption. }
  destruct k; unfold Spec.delta.
  - rewrite <- Hslope.
    apply (derivable_pt_lim_scal
             (fun y => Phi (Spec.d1 y K r q T sigma)) (exp (- q * T)) s).
    apply Phi_d1_in_spot. exact Hs.
  - rewrite <- Hslope.
    apply (derivable_pt_lim_scal
             (fun y => Phi (Spec.d1 y K r q T sigma) - 1) (exp (- q * T)) s).
    apply (dlim_eq
             (fun z => Phi (Spec.d1 z K r q T sigma) - (fun _ => 1) z) _ s
             (phi (Spec.d1 s K r q T sigma) * / (s * (sigma * sqrt T)) - 0));
      [reflexivity | ring |].
    apply dlim_minus; [apply Phi_d1_in_spot; exact Hs | apply dlim_const].
Qed.

End InSpot.

Section InVol.

Variables S K r q T : R.
Hypothesis S_pos : 0 < S.
Hypothesis K_pos : 0 < K.
Hypothesis T_pos : 0 < T.

Lemma d1_in_vol (v : R) :
  0 < v ->
  derivable_pt_lim (fun x => Spec.d1 S K r q T x) v
                   (sqrt T - Spec.d1 S K r q T v / v).
Proof.
  intros Hv.
  assert (Hsqpos : 0 < sqrt T) by (apply sqrt_lt_R0, T_pos).
  assert (Hsq : sqrt T * sqrt T = T) by (apply sqrt_sqrt; lra).
  set (L := ln (S * exp (- q * T) / (K * exp (- r * T)))).
  apply (dlim_eq
           (fun x => ((fun _ => L) x
                      + (fun y => (fun z => 0.5 * z ^ 2) y * T) x)
                     / (fun y => y * sqrt T) x)
           _ v
           (((0 + 0.5 * (INR 2 * v ^ pred 2) * T) * (v * sqrt T)
             - (1 * sqrt T) * (L + 0.5 * v ^ 2 * T))
            / Rsqr (v * sqrt T))).
  - intros z. reflexivity.
  - unfold Spec.d1, Rsqr. fold L. simpl INR. simpl pred.
    assert (Hhalf : 0.5 = / 2) by lra. rewrite Hhalf.
    set (s := sqrt T) in *. clearbody L. rewrite <- Hsq. clearbody s.
    field. split; apply Rgt_not_eq; assumption.
  - apply (dlim_div
             (fun x => (fun _ => L) x
                       + (fun y => (fun z => 0.5 * z ^ 2) y * T) x)
             (fun y => y * sqrt T)).
    + apply (dlim_plus (fun _ => L)
                       (fun y => (fun z => 0.5 * z ^ 2) y * T)).
      * apply dlim_const.
      * apply (derivable_pt_lim_scal_right (fun z => 0.5 * z ^ 2)).
        apply (derivable_pt_lim_scal (fun z => z ^ 2) 0.5 v).
        apply derivable_pt_lim_pow.
    + apply derivable_pt_lim_scal_right. apply dlim_id.
    + apply Rgt_not_eq. apply Rmult_lt_0_compat; assumption.
Qed.

Lemma d2_in_vol (v : R) :
  0 < v ->
  derivable_pt_lim (fun x => Spec.d2 S K r q T x) v
                   (- (Spec.d1 S K r q T v / v)).
Proof.
  intros Hv. unfold Spec.d2.
  apply (dlim_eq
           (fun x => Spec.d1 S K r q T x - (fun y => y * sqrt T) x)
           _ v
           (sqrt T - Spec.d1 S K r q T v / v - 1 * sqrt T));
    [reflexivity | ring |].
  apply (dlim_minus (fun x => Spec.d1 S K r q T x) (fun y => y * sqrt T)).
  - apply d1_in_vol. exact Hv.
  - apply derivable_pt_lim_scal_right. apply dlim_id.
Qed.

(** The slope of the price in the volatility, for either kind. *)
Lemma price_in_vol (k : Spec.kind) (v : R) :
  0 < v ->
  derivable_pt_lim (fun x => Spec.price k S K r q T x) v
    (S * exp (- q * T) * phi (Spec.d1 S K r q T v) * sqrt T).
Proof.
  intros Hv.
  assert (Hid := density_identity S K r q T v S_pos K_pos T_pos Hv).
  set (a := exp (- q * T)) in *. set (b := exp (- r * T)) in *.
  set (d1 := Spec.d1 S K r q T v) in *.
  set (d2 := Spec.d2 S K r q T v) in *.
  assert (Hcall :
            derivable_pt_lim (fun x => Spec.price Spec.Call S K r q T x) v
                             (S * a * phi d1 * sqrt T)).
  { apply (dlim_eq
             (fun x => (fun y => (S * a) * Phi (Spec.d1 S K r q T y)) x
                       - (fun y => (K * b) * Phi (Spec.d2 S K r q T y)) x)
             _ v
             ((S * a) * (phi d1 * (sqrt T - d1 / v))
              - (K * b) * (phi d2 * - (d1 / v)))).
    - intros z. reflexivity.
    - replace (K * b * (phi d2 * - (d1 / v)))
        with (K * b * phi d2 * - (d1 / v)) by ring.
      rewrite <- Hid. ring.
    - apply (dlim_minus
               (fun y => (S * a) * Phi (Spec.d1 S K r q T y))
               (fun y => (K * b) * Phi (Spec.d2 S K r q T y))).
      + apply (derivable_pt_lim_scal
                 (fun y => Phi (Spec.d1 S K r q T y)) (S * a) v).
        apply (dlim_comp (fun y => Spec.d1 S K r q T y) Phi).
        * apply d1_in_vol. exact Hv.
        * apply Phi_derivative.
      + apply (derivable_pt_lim_scal
                 (fun y => Phi (Spec.d2 S K r q T y)) (K * b) v).
        apply (dlim_comp (fun y => Spec.d2 S K r q T y) Phi).
        * apply d2_in_vol. exact Hv.
        * apply Phi_derivative. }
  destruct k; [exact Hcall |].
  apply (dlim_eq
           (fun x => Spec.price Spec.Call S K r q T x
                     - (fun _ => S * a - K * b) x)
           _ v (S * a * phi d1 * sqrt T - 0)).
  - intros z. apply (put_from_call K r q T z S).
  - ring.
  - apply (dlim_minus (fun x => Spec.price Spec.Call S K r q T x)
                      (fun _ => S * a - K * b)).
    + exact Hcall.
    + apply dlim_const.
Qed.

End InVol.

End Slopes.

Module GreeksFacts.

Section OnValid.

Variable o : Option.t.
Hypothesis o_valid : Spec.valid o.

Let K := Option.strike_price o.
Let r := Option.interest_rate o.
Let q := Option.dividend_yield o.
Let T := Spec.T (Option.time_to_maturity o).

Let K_pos : 0 < K.
Proof. apply o_valid. Qed.

Let days_pos : (0 < Option.time_to_maturity o)%Z.
Proof. apply o_valid. Qed.

Lemma price_at_spot_formula (s : R) :
  0 < s ->
  Greeks.price_at_spot o s
  = Spec.price (Spec.kind_of o) s K r q T (Option.implied_volatility o).
Proof.
  intros Hs. unfold Greeks.price_at_spot, Option.call.
  rewrite OptionFacts.black_scholes_run; try assumption; try reflexivity.
  simpl. apply Rgt_not_eq, o_valid.
Qed.

Lemma delta_at_spot_formula (s : R) :
  0 < s ->
  Greeks.delta_at_spot o s
  = Spec.delta (Spec.kind_of o) s K r q T (Option.implied_volatility o).
Proof.
  intros Hs. unfold Greeks.delta_at_spot, Option.call.
  rewrite OptionFacts.delta_run; try assumption; try reflexivity.
  simpl. apply Rgt_not_eq, o_valid.
Qed.

Lemma gamma_at_spot_formula (s : R) :
  0 < s ->
  Greeks.gamma_at_spot o s
  = Spec.gamma s K r q T (Option.implied_volatility o).
Proof.
  intros Hs. unfold Greeks.gamma_at_spot, Option.call.
  rewrite OptionFacts.gamma_run; try assumption; try reflexivity.
  simpl. apply Rgt_not_eq, o_valid.
Qed.

Lemma price_at_vol_formula (v : R) :
  0 < v ->
  Greeks.price_at_vol o v
  = Spec.price (Spec.kind_of o) (Option.underlying_price o) K r q T v.
Proof.
  intros Hv. unfold Greeks.price_at_vol, Option.call.
  rewrite OptionFacts.black_scholes_run; try assumption; try reflexivity.
  - simpl. apply o_valid.
  - simpl. apply Rgt_not_eq, Hv.
Qed.

Lemma vega_at_vol_formula (v : R) :
  0 < v ->
  Greeks.vega_at_vol o v
  = Spec.vega (Option.underlying_price o) K r q T v.
Proof.
  intros Hv. unfold Greeks.vega_at_vol, Option.call.
  rewrite OptionFacts.vega_run; try assumption; try reflexivity.
  - simpl. apply o_valid.
  - simpl. apply Rgt_not_eq, Hv.
Qed.

End OnValid.

End GreeksFacts.

Module Monotone.

(** A function whose derivative is positive on [[a, b]] increases from [a]
    to [b]. *)
Lemma increases_between (f f' : R -> R) (a b : R) :
  a < b ->
  (forall c, a <= c <= b -> derivable_pt_lim f c (f' c)) ->
  (forall c, a <= c <= b -> 0 < f' c) ->
  f a < f b.
Proof.
  intros Hab Hd Hpos.
  destruct (MVT_cor2 f f' a b Hab Hd) as (c & Heq & Hc).
  assert (H := Hpos c ltac:(lra)).
  assert (0 < f' c * (b - a)) by (apply Rmult_lt_0_compat; lra).
  lra.
Qed.

Lemma vega_pos (S K r q T v : R) :
  0 < S -> 0 < T -> 0 < Spec.vega S K r q T v.
Proof.
  intros HS HT. unfold Spec.vega.
  assert (Hn := phi_pos (Spec.d1 S K r q T v)).
  assert (He := exp_pos (- q * T)).
  assert (Hsq : 0 < sqrt T) by (apply sqrt_lt_R0; exact HT).
  apply Rmult_lt_0_compat; [| lra].
  apply Rmult_lt_0_compat; [| exact Hsq].
  apply Rmult_lt_0_compat; [| exact Hn].
  apply Rmult_lt_0_compat; assumption.
Qed.

Lemma gamma_pos (S K r q T v : R) :
  0 < S -> 0 < T -> 0 < v -> 0 < Spec.gamma S K r q T v.
Proof.
  intros HS HT Hv. unfold Spec.gamma.
  assert (Hn := phi_pos (Spec.d1 S K r q T v)).
  assert (He := exp_pos (- q * T)).
  assert (Hsq : 0 < sqrt T) by (apply sqrt_lt_R0; exact HT).
  apply Rdiv_lt_0_compat.
  - apply Rmult_lt_0_compat; assumption.
  - repeat apply Rmult_lt_0_compat; assumption.
Qed.

End Monotone.

Module SlopeFacts.

(** [delta()] is the slope of [price()] in the underlying price: on a
    valid instrument, the function that maps an underlying price [s > 0] to
    the price the pricer returns for it is differentiable at [s], and its
    derivative there is the delta the pricer returns for [s]. *)
Lemma price_slope_in_spot (o : Option.t) (s : R) :
  Spec.valid o -> 0 < s ->
  derivable_pt_lim (Greeks.price_at_spot o) s (Greeks.delta_at_spot o s).
Proof.
  intros Hv Hs.
  rewrite (GreeksFacts.delta_at_spot_formula o Hv s Hs).
  apply (derivable_pt_lim_locally_ext
           (fun z => Spec.price (Spec.kind_of o) z (Option.strike_price o)
                       (Option.interest_rate o) (Option.dividend_yield o)
                       (Spec.T (Option.time_to_maturity o))
                       (Option.implied_volatility o))
           (Greeks.price_at_spot o) s (s / 2) (2 * s)).
  - lra.
  - intros z Hz. symmetry.
    apply GreeksFacts.price_at_spot_formula; [exact Hv | lra].
  - destruct Hv as (_ & _ & HK & HT & Hsig).
    apply Slopes.price_in_spot; try assumption.
    apply OptionFacts.T_pos. exact HT.
Qed.


(** [gamma()] is the slope of [delta()] in the underlying price, for
    a Call and for a Put alike. *)
Lemma delta_slope_in_spot (o : Option.t) (s : R) :
  Spec.valid o -> 0 < s ->
  derivable_pt_lim (Greeks.delta_at_spot o) s (Greeks.gamma_at_spot o s).
Proof.
  intros Hv Hs.
  rewrite (GreeksFacts.gamma_at_spot_formula o Hv s Hs).
  apply (derivable_pt_lim_locally_ext
           (fun z => Spec.delta (Spec.kind_of o) z (Option.strike_price o)
                       (Option.interest_rate o) (Option.dividend_yield o)
                       (Spec.T (Option.time_to_maturity o))
                       (Option.implied_volatility o))
           (Greeks.delta_at_spot o) s (s / 2) (2 * s)).
  - lra.
  - intros z Hz. symmetry.
    apply GreeksFacts.delta_at_spot_formula; [exact Hv | lra].
  - destruct Hv as (_ & _ & HK & HT & Hsig).
    apply Slopes.delta_in_spot; try assumption.
    apply OptionFacts.T_pos. exact HT.
Qed.


(** [vega()] is one hundredth of the slope of [price()] in the
    volatility (the change of the price per percentage point of
    volatility, to first order). *)
Lemma price_slope_in_vol (o : Option.t) (v : R) :
  Spec.valid o -> 0 < v ->
  derivable_pt_lim (Greeks.price_at_vol o) v (Greeks.vega_at_vol o v / 0.01).
Proof.
  intros Hv Hpos.
  rewrite (GreeksFacts.vega_at_vol_formula o Hv v Hpos).
  apply (derivable_pt_lim_locally_ext
           (fun z => Spec.price (Spec.kind_of o) (Option.underlying_price o)
                       (Option.strike_price o)
                       (Option.interest_rate o) (Option.dividend_yield o)
                       (Spec.T (Option.time_to_maturity o)) z)
           (Greeks.price_at_vol o) v (v / 2) (2 * v)).
  - lra.
  - intros z Hz. symmetry.
    apply GreeksFacts.price_at_vol_formula; [exact Hv | lra].
  - destruct Hv as (_ & HS & HK & HT & _).
    unfold Spec.vega.
    match goal with
    | |- derivable_pt_lim _ _ (?x * 0.01 / 0.01) =>
        replace (x * 0.01 / 0.01) with x by (field; lra)
    end.
    apply Slopes.price_in_vol; try assumption.
    apply OptionFacts.T_pos. exact HT.
Qed.

(** on a valid instrument the price the pricer returns increases
    strictly with the volatility it is given: for [0 < v1 < v2] the price
    at [v1] is below the price at [v2], for a Call and for a Put. *)
Lemma price_increases_in_vol (o : Option.t) (v1 v2 : R) :
  Spec.valid o -> 0 < v1 -> v1 < v2 ->
  Greeks.price_at_vol o v1 < Greeks.price_at_vol o v2.
Proof.
  intros Hv H1 H12.
  apply (Monotone.increases_between
           (Greeks.price_at_vol o)
           (fun c => Greeks.vega_at_vol o c / 0.01) v1 v2 H12).
  - intros c Hc.
    apply (derivable_pt_lim_locally_ext
             (fun z => Spec.price (Spec.kind_of o)
                         (Option.underlying_price o) (Option.strike_price o)
                         (Option.interest_rate o) (Option.dividend_yield o)
                         (Spec.T (Option.time_to_maturity o)) z)
             (Greeks.price_at_vol o) c (c / 2) (2 * c)).
    + lra.
    + intros z Hz. symmetry.
      apply GreeksFacts.price_at_vol_formula; [exact Hv | lra].
    + rewrite (GreeksFacts.vega_at_vol_formula o Hv c ltac:(lra)).
      destruct Hv as (_ & HS & HK & HT & _).
      unfold Spec.vega.
      match goal with
      | |- derivable_pt_lim _ _ (?x * 0.01 / 0.01) =>
          replace (x * 0.01 / 0.01) with x by (field; lra)
      end.
      apply Slopes.price_in_vol; try assumption; try lra.
      apply OptionFacts.T_pos. exact HT.
  - intros c Hc.
    rewrite (GreeksFacts.vega_at_vol_formula o Hv c ltac:(lra)).
    destruct Hv as (_ & HS & _ & HT & _).
    apply Rdiv_lt_0_compat; [| lra].
    apply Monotone.vega_pos; [exact HS |].
    apply OptionFacts.T_pos. exact HT.
Qed.


(** on a valid instrument the delta the pricer returns increases
    strictly with the underlying price it is given (the price is convex in
    the underlying price), for a Call and for a Put. *)
Lemma delta_increases_in_spot (o : Option.t) (s1 s2 : R) :
  Spec.valid o -> 0 < s1 -> s1 < s2 ->
  Greeks.delta_at_spot o s1 < Greeks.delta_at_spot o s2.
Proof.
  intros Hv H1 H12.
  apply (Monotone.increases_between
           (Greeks.delta_at_spot o) (Greeks.gamma_at_spot o) s1 s2 H12).
  - intros c Hc.
    rewrite (GreeksFacts.gamma_at_spot_formula o Hv c ltac:(lra)).
    apply (derivable_pt_lim_locally_ext
             (fun z => Spec.delta (Spec.kind_of o) z (Option.strike_price o)
                         (Option.interest_rate o) (Option.dividend_yield o)
                         (Spec.T (Option.time_to_maturity o))
                         (Option.implied_volatility o))
             (Greeks.delta_at_spot o) c (c / 2) (2 * c)).
    + lra.
    + intros z Hz. symmetry.
      apply GreeksFacts.delta_at_spot_formula; [exact Hv | lra].
    + destruct Hv as (_ & _ & HK & HT & Hsig).
      apply Slopes.delta_in_spot; try assumption; try lra.
      apply OptionFacts.T_pos. exact HT.
  - intros c Hc.
    rewrite (GreeksFacts.gamma_at_spot_formula o Hv c ltac:(lra)).
    destruct Hv as (_ & _ & _ & HT & Hsig).
    apply Monotone.gamma_pos; try lra.
    apply OptionFacts.T_pos. exact HT.
Qed.

End SlopeFacts.

Module CallReturns.

(** On a valid instrument, with a positive underlying price and a positive
    volatility, a pricing call returns its number. *)
Lemma at_spot m (o : Option.t) (s : R) :
  In m Spec.pricing_calls -> Spec.valid o -> 0 < s ->
  Option.call (m (Some s) None None) o
  = Ok (Greeks.value (Option.call (m (Some s) None None) o)).
Proof.
  intros Hm (_ & _ & HK & HT & Hsig) Hs.
  destruct (OptionFailures.pricing_call_returns m (Some s) None None o Hm)
    as [x Hx]; try assumption.
  - simpl. apply Rgt_not_eq, Hsig.
  - rewrite Hx. reflexivity.
Qed.

Lemma at_vol m (o : Option.t) (v : R) :
  In m Spec.pricing_calls -> Spec.valid o -> 0 < v ->
  Option.call (m None None (Some v)) o
  = Ok (Greeks.value (Option.call (m None None (Some v)) o)).
Proof.
  intros Hm (_ & HS & HK & HT & _) Hv.
  destruct (OptionFailures.pricing_call_returns m None None (Some v) o Hm)
    as [x Hx]; try assumption.
  - simpl. apply Rgt_not_eq, Hv.
  - rewrite Hx. reflexivity.
Qed.

Lemma black_scholes_listed : In Option.black_scholes Spec.pricing_calls.
Proof. left. reflexivity. Qed.

Lemma delta_listed : In Option.delta Spec.pricing_calls.
Proof. right. left. reflexivity. Qed.

Lemma gamma_listed : In Option.gamma Spec.pricing_calls.
Proof. right. right. left. reflexivity. Qed.

Lemma vega_listed : In Option.vega Spec.pricing_calls.
Proof. right. right. right. left. reflexivity. Qed.

End CallReturns.

(** X23: [delta()] is the slope of [price()] in the underlying price.  On a
    valid instrument and for an underlying price [s > 0], [price()] and
    [delta()] called with [s] return numbers, the function that maps [s] to
    the price returned is differentiable at [s], and its derivative there
    is the delta returned. *)
Theorem X23_delta_is_slope_of_price (o : Option.t) (s : R) :
  Spec.valid o -> 0 < s ->
  Option.call (Option.black_scholes (Some s) None None) o
  = Ok (Greeks.price_at_spot o s)
  /\ Option.call (Option.delta (Some s) None None) o
     = Ok (Greeks.delta_at_spot o s)
  /\ derivable_pt_lim (Greeks.price_at_spot o) s (Greeks.delta_at_spot o s).
Proof.
  intros Hv Hs. split; [| split].
  - exact (CallReturns.at_spot _ o s CallReturns.black_scholes_listed Hv Hs).
  - exact (CallReturns.at_spot _ o s CallReturns.delta_listed Hv Hs).
  - exact (SlopeFacts.price_slope_in_spot o s Hv Hs).
Qed.

Lemma X23_delta_is_slope_of_price_witness :
  Spec.valid Spec.example_call /\ 0 < 100
  /\ derivable_pt_lim (Greeks.price_at_spot Spec.example_call) 100
                      (Greeks.delta_at_spot Spec.example_call 100).
Proof.
  assert (Hs : 0 < 100) by lra.
  refine (conj example_call_valid (conj Hs _)).
  exact (proj2 (proj2 (X23_delta_is_slope_of_price Spec.example_call 100
                         example_call_valid Hs))).
Defined.

(** X24: [gamma()] is the slope of [delta()] in the underlying price, for
    a Call and for a Put alike: both calls return for [s > 0], and the
    function that maps [s] to the delta returned has the gamma returned as
    its derivative at [s]. *)
Theorem X24_gamma_is_slope_of_delta (o : Option.t) (s : R) :
  Spec.valid o -> 0 < s ->
  Option.call (Option.delta (Some s) None None) o
  = Ok (Greeks.delta_at_spot o s)
  /\ Option.call (Option.gamma (Some s) None None) o
     = Ok (Greeks.gamma_at_spot o s)
  /\ derivable_pt_lim (Greeks.delta_at_spot o) s (Greeks.gamma_at_spot o s).
Proof.
  intros Hv Hs. split; [| split].
  - exact (CallReturns.at_spot _ o s CallReturns.delta_listed Hv Hs).
  - exact (CallReturns.at_spot _ o s CallReturns.gamma_listed Hv Hs).
  - exact (SlopeFacts.delta_slope_in_spot o s Hv Hs).
Qed.

Lemma X24_gamma_is_slope_of_delta_witness :
  Spec.valid Spec.example_call /\ 0 < 100
  /\ derivable_pt_lim (Greeks.delta_at_spot Spec.example_call) 100
                      (Greeks.gamma_at_spot Spec.example_call 100).
Proof.
  assert (Hs : 0 < 100) by lra.
  refine (conj example_call_valid (conj Hs _)).
  exact (proj2 (proj2 (X24_gamma_is_slope_of_delta Spec.example_call 100
                         example_call_valid Hs))).
Defined.

(** X25: [vega()] is one hundredth of the slope of [price()] in the
    volatility: both calls return for a volatility [v > 0], and the
    function that maps [v] to the price returned has [vega / 0.01] as its
    derivative at [v]. *)
Theorem X25_vega_is_slope_of_price (o : Option.t) (v : R) :
  Spec.valid o -> 0 < v ->
  Option.call (Option.black_scholes None None (Some v)) o
  = Ok (Greeks.price_at_vol o v)
  /\ Option.call (Option.vega None None (Some v)) o
     = Ok (Greeks.vega_at_vol o v)
  /\ derivable_pt_lim (Greeks.price_at_vol o) v
                      (Greeks.vega_at_vol o v / 0.01).
Proof.
  intros Hv Hpos. split; [| split].
  - exact (CallReturns.at_vol _ o v CallReturns.black_scholes_listed Hv Hpos).
  - exact (CallReturns.at_vol _ o v CallReturns.vega_listed Hv Hpos).
  - exact (SlopeFacts.price_slope_in_vol o v Hv Hpos).
Qed.

Lemma X25_vega_is_slope_of_price_witness :
  Spec.valid Spec.example_call /\ 0 < 0.2
  /\ derivable_pt_lim (Greeks.price_at_vol Spec.example_call) 0.2
                      (Greeks.vega_at_vol Spec.example_call 0.2 / 0.01).
Proof.
  assert (Hs : 0 < 0.2) by lra.
  refine (conj example_call_valid (conj Hs _)).
  exact (proj2 (proj2 (X25_vega_is_slope_of_price Spec.example_call 0.2
                         example_call_valid Hs))).
Defined.



(** X27: on a valid instrument the delta does not decrease with the
    underlying price (the price is convex in the underlying price): for
    [0 < s1 < s2], [delta()] called with [s1] and with [s2] returns two
    numbers, the first at most the second, for a Call and for a Put.  (The
    two can be equal: far out of the money both are [0.0].) *)
Theorem X27_delta_monotone_in_spot (o : Option.t) (s1 s2 : R) :
  Spec.valid o -> 0 < s1 -> s1 < s2 ->
  exists d1 d2 : R,
    Option.call (Option.delta (Some s1) None None) o = Ok d1
    /\ Option.call (Option.delta (Some s2) None None) o = Ok d2
    /\ d1 <= d2.
Proof.
  intros Hv H1 H12.
  exists (Greeks.delta_at_spot o s1), (Greeks.delta_at_spot o s2).
  split; [| split].
  - exact (CallReturns.at_spot _ o s1 CallReturns.delta_listed Hv H1).
  - apply (CallReturns.at_spot _ o s2 CallReturns.delta_listed Hv). lra.
  - left. exact (SlopeFacts.delta_increases_in_spot o s1 s2 Hv H1 H12).
Qed.

Lemma X27_delta_monotone_in_spot_witness :
  Spec.valid Spec.example_call /\ 0 < 100 /\ 100 < 101
  /\ exists d1 d2 : R,
       Option.call (Option.delta (Some 100) None None)
                   Spec.example_call = Ok d1
       /\ Option.call (Option.delta (Some 101) None None)
                      Spec.example_call = Ok d2
       /\ d1 <= d2.
Proof.
  assert (H1 : 0 < 100) by lra.
  assert (H2 : 100 < 101) by lra.
  refine (conj example_call_valid (conj H1 (conj H2 _))).
  exact (X27_delta_monotone_in_spot Spec.example_call 100 101
           example_call_valid H1 H2).
Defined.

(** ** The order of the samples given to the constructor *)

Module OrderFacts.

Import Volatility.
Import Realized.

Lemma ts_le_trans {A : Type} (a b c : Timestamp * A) :
  ts_le a b -> ts_le b c -> ts_le a c.
Proof.
  unfold ts_le, ts_leb. intros Hab Hbc.
  apply orb_true_iff in Hab. apply orb_true_iff in Hbc.
  apply orb_true_iff.
  rewrite !Z.ltb_lt, !andb_true_iff, !Z.eqb_eq, !Z.leb_le in *.
  lia.
Qed.

Lemma ts_le_antisym {A : Type} (a b : Timestamp * A) :
  ts_le a b -> ts_le b a -> key (fst a) = key (fst b).
Proof.
  unfold ts_le, ts_leb, key. intros Hab Hba.
  apply orb_true_iff in Hab. apply orb_true_iff in Hba.
  rewrite !Z.ltb_lt, !andb_true_iff, !Z.eqb_eq, !Z.leb_le in *.
  f_equal; lia.
Qed.

Lemma sort_index_strongly_sorted {A : Type} (s : Series A) :
  StronglySorted ts_le (sort_index s).
Proof.
  apply Sorted_StronglySorted.
  - intros a b c. apply ts_le_trans.
  - apply SortFacts.sort_index_sorted.
Qed.

(** Two sorted arrangements of the same samples, no two of which share a
    day, are the same list. *)
Lemma sorted_unique {A : Type} (l1 l2 : Series A) :
  StronglySorted ts_le l1 -> StronglySorted ts_le l2 ->
  Permutation l1 l2 -> distinct_days l1 -> l1 = l2.
Proof.
  unfold distinct_days. revert l2.
  induction l1 as [| a l1 IH]; intros l2 H1 H2 Hperm Hnd.
  - apply Permutation_nil in Hperm. symmetry. exact Hperm.
  - destruct l2 as [| b l2].
    { apply Permutation_sym, Permutation_nil in Hperm. discriminate. }
    apply StronglySorted_inv in H1. destruct H1 as [H1 Ha].
    apply StronglySorted_inv in H2. destruct H2 as [H2 Hb].
    simpl in Hnd. apply NoDup_cons_iff in Hnd. destruct Hnd as [Hna Hnd].
    assert (Hab : a = b).
    { assert (Hin_a : In a (b :: l2))
        by (apply (Permutation_in a Hperm); left; reflexivity).
      assert (Hin_b : In b (a :: l1))
        by (apply (Permutation_in b (Permutation_sym Hperm)); left;
            reflexivity).
      destruct Hin_a as [E | Hin_a]; [symmetry; exact E |].
      destruct Hin_b as [E | Hin_b]; [exact E |].
      exfalso. apply Hna.
      rewrite (ts_le_antisym a b).
      - apply in_map_iff. exists b. split; [reflexivity | exact Hin_b].
      - exact (proj1 (Forall_forall _ _) Ha b Hin_b).
      - exact (proj1 (Forall_forall _ _) Hb a Hin_a). }
    subst b. f_equal.
    apply IH; try assumption.
    exact (Permutation_cons_inv Hperm).
Qed.

Lemma sort_index_of_permutation {A : Type} (s s' : Series A) :
  Permutation s s' -> distinct_days s -> sort_index s' = sort_index s.
Proof.
  intros Hperm Hnd. symmetry.
  apply sorted_unique; try apply sort_index_strongly_sorted.
  - apply perm_trans with s; [apply SortFacts.sort_index_perm |].
    apply perm_trans with s'; [exact Hperm |].
    apply Permutation_sym, SortFacts.sort_index_perm.
  - unfold distinct_days in *.
    apply (Permutation_NoDup (l := map (fun e => key (fst e)) s));
      [| exact Hnd].
    apply Permutation_map, Permutation_sym, SortFacts.sort_index_perm.
Qed.

End OrderFacts.

(** X28: the order in which the samples are given does not matter: when no
    two samples share a day, two series with the same samples give the
    same stored prices and the same monthly output. *)
Theorem X28_order_of_samples_irrelevant
    (prices prices' : Volatility.Series R) :
  Permutation prices prices' ->
  Realized.distinct_days prices ->
  Volatility.historical_prices (Volatility.__init__ prices')
  = Volatility.historical_prices (Volatility.__init__ prices)
  /\ Volatility.compute_monthly_30d_volatility (Volatility.__init__ prices')
     = Volatility.compute_monthly_30d_volatility (Volatility.__init__ prices).
Proof.
  intros Hperm Hnd.
  assert (H := OrderFacts.sort_index_of_permutation prices prices' Hperm Hnd).
  unfold Volatility.__init__. rewrite H. split; reflexivity.
Qed.

Lemma two_closes_distinct_days : Realized.distinct_days Spec.two_closes.
Proof.
  unfold Realized.distinct_days, Spec.two_closes. simpl.
  apply NoDup_cons.
  - intros [H | []]. discriminate H.
  - apply NoDup_cons; [intros [] | apply NoDup_nil].
Qed.

Lemma X28_order_of_samples_irrelevant_witness :
  Permutation Spec.two_closes (rev Spec.two_closes)
  /\ Realized.distinct_days Spec.two_closes
  /\ Volatility.compute_monthly_30d_volatility
       (Volatility.__init__ (rev Spec.two_closes))
     = Volatility.compute_monthly_30d_volatility
         (Volatility.__init__ Spec.two_closes).
Proof.
  assert (Hperm : Permutation Spec.two_closes (rev Spec.two_closes))
    by apply Permutation_rev.
  refine (conj Hperm (conj two_closes_distinct_days _)).
  exact (proj2 (X28_order_of_samples_irrelevant Spec.two_closes
                  (rev Spec.two_closes) Hperm two_closes_distinct_days)).
Defined.
